(** * Department queue scheduler of stra-sys-backend

    A shallow embedding of the queue code of the hospital backend:
    [TriageService] (intake, queue listing, re-prioritisation, department
    routing) and [QueueService] (queue status, call next, complete, skip,
    manual reposition).

    The relational store is a record of tables, each table a list of rows in
    storage order.  A query is a filter of the rows followed by a sort; an
    UPDATE maps over every row that satisfies its WHERE clause; an INSERT
    appends a row whose key is fresh.  Service methods run in a state and
    error monad over the store; [db_transaction] restores the store when its
    body throws.

    Conventions.  The model holds the statements the services send to the
    store, not the store's own refusals of them: a value a column cannot
    hold (position_in_queue is a 32-bit integer, oxygen_saturation a
    decimal(4,2)), a foreign key without its row (the doctor of a call must
    be a stored user), a lost connection.  Such a refusal makes the method
    throw and its transaction roll back, so statements about what a method
    stores are made for the runs in which the method returns.  PostgreSQL
    leaves the order of rows with equal sort keys open; the functions of the
    model keep such rows in storage order, and [ordered_rows] describes
    every order the store may return.  A method reads the clock once, and
    that reading is its argument [now].  Socket broadcasts, log lines, the
    reads of display columns from joined tables and the deletions of cache
    keys write to none of the three tables and are left out; so is the
    body-mass index stored with a triage session, a floating-point quotient
    that no queue operation reads. *)

From Stdlib Require Import ZArith QArith Lia.
From stdpp Require Import base list gmap strings sorting.

Local Open Scope Z_scope.

(** ** Values of the schema *)

(** Keys are UUIDs in the schema; only their identity matters. *)
Definition uuid := nat.

(** Timestamps, as milliseconds of the clock. *)
Definition timestamp := Z.

Inductive UrgencyLevel := RED | YELLOW | GREEN.

Inductive QueueStatus := WAITING | IN_PROGRESS | COMPLETED | CANCELLED | SKIPPED.

#[global] Instance UrgencyLevel_eq_dec : EqDecision UrgencyLevel.
Proof. solve_decision. Defined.

#[global] Instance QueueStatus_eq_dec : EqDecision QueueStatus.
Proof. solve_decision. Defined.

(** The ordering expression shared by every queue query:
    [CASE WHEN urgency = 'RED' THEN 1 WHEN urgency = 'YELLOW' THEN 2 ELSE 3 END]. *)
Definition urgencyRank (u : UrgencyLevel) : Z :=
  match u with
  | RED => 1
  | YELLOW => 2
  | _ => 3
  end.

(** ** JavaScript values of the symptoms object *)

Inductive JsValue :=
| JsUndefined
| JsNull
| JsBool (b : bool)
| JsNumber (q : Q)
| JsString (s : string)
| JsObject.

(** Truthiness, as [if], [&&] and [||] test it. *)
Definition truthy (v : JsValue) : bool :=
  match v with
  | JsUndefined | JsNull => false
  | JsBool b => b
  | JsNumber q => negb (Qeq_bool q 0)
  | JsString s => negb (String.eqb s "")
  | JsObject => true
  end.

(** [symptoms.flag]: a missing property reads as [undefined]. *)
Definition prop (symptoms : gmap string JsValue) (flag : string) : JsValue :=
  default JsUndefined (symptoms !! flag).

Record Vitals := mkVitals {
  temperature : option Q;
  systolicBp : option Q;
  diastolicBp : option Q;
  heartRate : option Q;
  respiratoryRate : option Q;
  oxygenSaturation : option Q;
  bloodGlucose : option Q;
  painScale : Q;
  weight : option Q;
  height : option Q
}.

(** [x < n] for an optional number: [undefined < n] is false. *)
Definition js_lt (x : option Q) (n : Q) : bool :=
  match x with
  | Some q => negb (Qle_bool n q)
  | None => false
  end.

(** [x || 0] for an optional number. *)
Definition or_zero (x : option Q) : Q :=
  match x with
  | Some q => if Qeq_bool q 0 then 0%Q else q
  | None => 0%Q
  end.

(** ** Errors and results *)

Inductive Error :=
| AppError (message : string) (statusCode : Z)
| ReferenceError (message : string).

Inductive Result (A : Type) :=
| Ok (a : A)
| Err (e : Error).

Arguments Ok {A} a.
Arguments Err {A} e.

(** ** Department routing: [TriageService.determineDepartment] *)

(** The last test reads [patient.age], and no binding named [patient] is in
    scope of the method: evaluating the identifier throws a ReferenceError.
    [&&] evaluates its right operand only when the left one is truthy. *)
Definition determineDepartment (symptoms : gmap string JsValue) (vitals : Vitals)
  : Result string :=
  if js_lt (oxygenSaturation vitals) 92 || truthy (prop symptoms "chest_pain") then
    Ok "Emergency/Cardiology"
  else if truthy (prop symptoms "head_trauma") || truthy (prop symptoms "seizure")
          || truthy (prop symptoms "stroke_symptoms") then
    Ok "Emergency/Neurology"
  else if truthy (prop symptoms "abdominal_pain")
          || truthy (prop symptoms "gastrointestinal_bleeding") then
    Ok "Emergency/Surgery"
  else if truthy (prop symptoms "fever")
          && (truthy (prop symptoms "cough") || truthy (prop symptoms "shortness_of_breath")) then
    Ok "Emergency/Infectious Diseases"
  else if truthy (prop symptoms "burn") || truthy (prop symptoms "trauma") then
    Ok "Emergency/Trauma"
  else if truthy (prop symptoms "pediatric") then
    Err (ReferenceError "patient is not defined")
  else
    Ok "Emergency/General".

(** The vitals ranges of [triageSchema] (validators.ts). *)
Definition in_range (lo hi : Q) (x : option Q) : bool :=
  match x with
  | Some q => Qle_bool lo q && Qle_bool q hi
  | None => true
  end.

Definition triageSchema_vitals (v : Vitals) : bool :=
  in_range 30 45 (temperature v) && in_range 50 250 (systolicBp v)
  && in_range 30 150 (diastolicBp v) && in_range 30 250 (heartRate v)
  && in_range 5 60 (respiratoryRate v) && in_range 70 100 (oxygenSaturation v)
  && in_range 1 50 (bloodGlucose v) && in_range 0 10 (Some (painScale v))
  && in_range 1 300 (weight v) && in_range 30 250 (height v).

(** ** Tables of the schema (db/schema) *)

Module Dept.
Record t := mk {
  departmentId : uuid;
  name : string;
  currentPatientLoad : Z;
  maxCapacity : Z;
  averageTreatmentTime : Z
}.
End Dept.

Module Queue.
Record t := mk {
  queueId : uuid;
  departmentId : uuid;
  patientId : uuid;
  triageSessionId : option uuid;
  urgencyLevel : UrgencyLevel;
  positionInQueue : Z;
  expectedWaitTime : Z;
  status : QueueStatus;
  calledAt : option timestamp;
  startedAt : option timestamp;
  completedAt : option timestamp;
  assignedDoctorId : option uuid;
  createdAt : timestamp;
  updatedAt : timestamp
}.
End Queue.

Module Triage.
Record t := mk {
  sessionId : uuid;
  patientId : uuid;
  nurseId : uuid;
  vitals : Vitals;
  symptoms : gmap string JsValue;
  chiefComplaint : option string;
  triageScore : Z;
  urgencyLevel : UrgencyLevel;
  recommendedDept : string;
  estimatedWaitMinutes : Z;
  createdAt : timestamp
}.
End Triage.

Record Db := mkDb {
  departments : list Dept.t;
  departmentQueues : list Queue.t;
  triageSessions : list Triage.t
}.

(** The [.set({...})] clauses of the UPDATE statements. *)

Definition set_called (doctorId : uuid) (now : timestamp) (e : Queue.t) : Queue.t :=
  Queue.mk (Queue.queueId e) (Queue.departmentId e) (Queue.patientId e)
    (Queue.triageSessionId e) (Queue.urgencyLevel e) (Queue.positionInQueue e)
    (Queue.expectedWaitTime e) IN_PROGRESS (Some now) (Queue.startedAt e)
    (Queue.completedAt e) (Some doctorId) (Queue.createdAt e) now.

Definition set_completed (now : timestamp) (e : Queue.t) : Queue.t :=
  Queue.mk (Queue.queueId e) (Queue.departmentId e) (Queue.patientId e)
    (Queue.triageSessionId e) (Queue.urgencyLevel e) (Queue.positionInQueue e)
    (Queue.expectedWaitTime e) COMPLETED (Queue.calledAt e) (Queue.startedAt e)
    (Some now) (Queue.assignedDoctorId e) (Queue.createdAt e) now.

Definition set_skipped (now : timestamp) (e : Queue.t) : Queue.t :=
  Queue.mk (Queue.queueId e) (Queue.departmentId e) (Queue.patientId e)
    (Queue.triageSessionId e) (Queue.urgencyLevel e) (Queue.positionInQueue e)
    (Queue.expectedWaitTime e) SKIPPED (Queue.calledAt e) (Queue.startedAt e)
    (Queue.completedAt e) (Queue.assignedDoctorId e) (Queue.createdAt e) now.

(** [SET position_in_queue = position, updated_at = now].  The number is
    written as given; the column is a 32-bit integer, and the refusal of a
    number it cannot hold is the store's, not part of the model. *)
Definition set_position (position : Z) (now : timestamp) (e : Queue.t) : Queue.t :=
  Queue.mk (Queue.queueId e) (Queue.departmentId e) (Queue.patientId e)
    (Queue.triageSessionId e) (Queue.urgencyLevel e) position
    (Queue.expectedWaitTime e) (Queue.status e) (Queue.calledAt e) (Queue.startedAt e)
    (Queue.completedAt e) (Queue.assignedDoctorId e) (Queue.createdAt e) now.

Definition add_load (delta : Z) (d : Dept.t) : Dept.t :=
  Dept.mk (Dept.departmentId d) (Dept.name d) (Dept.currentPatientLoad d + delta)
    (Dept.maxCapacity d) (Dept.averageTreatmentTime d).

(** ** Queries *)

(** [UPDATE ... SET ... WHERE ...]: every matching row is rewritten in place. *)
Definition update_where {A} (P : A -> Prop) `{!forall x, Decision (P x)}
    (f : A -> A) (rows : list A) : list A :=
  (fun r => if decide (P r) then f r else r) <$> rows.

(** A key the table does not hold yet ([gen_random_uuid()]). *)
Definition fresh_uuid (keys : list uuid) : uuid := S (foldr Nat.max 0%nat keys).

(** [ORDER BY]: insertion sort on a key comparison.  Rows with equal keys keep
    their storage order; that is one of the orders the store may return
    ([ordered_rows] below holds of all of them). *)
Fixpoint insertBy {A} (le : A -> A -> bool) (x : A) (l : list A) : list A :=
  match l with
  | [] => [x]
  | y :: l' => if le x y then x :: y :: l' else y :: insertBy le x l'
  end.

Definition orderBy {A} (le : A -> A -> bool) (l : list A) : list A :=
  foldr (insertBy le) [] l.

(** Comparison of two-column sort keys, first column first. *)
Definition key_le (a b : Z * Z) : bool :=
  (a.1 <? b.1) || ((a.1 =? b.1) && (a.2 <=? b.2)).

(** [ORDER BY CASE ... END, position_in_queue]. *)
Definition queueKey (e : Queue.t) : Z * Z :=
  (urgencyRank (Queue.urgencyLevel e), Queue.positionInQueue e).

(** [ORDER BY CASE ... END, created_at]. *)
Definition arrivalKey (e : Queue.t) : Z * Z :=
  (urgencyRank (Queue.urgencyLevel e), Queue.createdAt e).

Definition by_key {A} (key : A -> Z * Z) (a b : A) : bool := key_le (key a) (key b).

(** [WHERE department_id = d AND status = 'WAITING']. *)
Definition waitingIn (d : uuid) (e : Queue.t) : Prop :=
  Queue.departmentId e = d /\ Queue.status e = WAITING.

#[global] Instance waitingIn_dec d e : Decision (waitingIn d e).
Proof. unfold waitingIn. apply _. Defined.

Definition hasQueueId (q : uuid) (e : Queue.t) : Prop := Queue.queueId e = q.

#[global] Instance hasQueueId_dec q e : Decision (hasQueueId q e).
Proof. unfold hasQueueId. apply _. Defined.

Definition hasDepartmentId (d : uuid) (x : Dept.t) : Prop := Dept.departmentId x = d.

#[global] Instance hasDepartmentId_dec d x : Decision (hasDepartmentId d x).
Proof. unfold hasDepartmentId. apply _. Defined.

Definition hasName (n : string) (x : Dept.t) : Prop := Dept.name x = n.

#[global] Instance hasName_dec n x : Decision (hasName n x).
Proof. unfold hasName. apply _. Defined.

Definition waitingRows (db : Db) (d : uuid) : list Queue.t :=
  filter (waitingIn d) (departmentQueues db).

(** ** The service monad *)

Definition M (A : Type) : Type := Db -> Result A * Db.

Definition ret {A} (a : A) : M A := fun db => (Ok a, db).

Definition bind {A B} (m : M A) (k : A -> M B) : M B :=
  fun db =>
    match m db with
    | (Ok a, db') => k a db'
    | (Err e, db') => (Err e, db')
    end.

Notation "'do' x <- m ; k" := (bind m (fun x => k))
  (at level 10, x name, m at level 100, k at level 200).
Notation "'run' m ; k" := (bind m (fun _ => k))
  (at level 10, m at level 100, k at level 200).

Definition throw {A} (e : Error) : M A := fun db => (Err e, db).

Definition select {A} (q : Db -> A) : M A := fun db => (Ok (q db), db).

Definition exec (f : Db -> Db) : M unit := fun db => (Ok tt, f db).

Definition lift {A} (r : Result A) : M A := fun db => (r, db).

(** [db.transaction(async tx => ...)]: when the body throws, the statements
    it has run are rolled back. *)
Definition db_transaction {A} (body : M A) : M A :=
  fun db =>
    match body db with
    | (Ok a, db') => (Ok a, db')
    | (Err e, _) => (Err e, db)
    end.

(** [catch (error) { if (error instanceof AppError) throw error;
                      throw new AppError(message, 500) }]. *)
Definition rethrow {A} (message : string) (body : M A) : M A :=
  fun db =>
    match body db with
    | (Err (AppError m c), db') => (Err (AppError m c), db')
    | (Err _, db') => (Err (AppError message 500), db')
    | ok => ok
    end.

(** [catch (error) { throw new AppError(message, 500) }]. *)
Definition rethrow_all {A} (message : string) (body : M A) : M A :=
  fun db =>
    match body db with
    | (Err _, db') => (Err (AppError message 500), db')
    | ok => ok
    end.

Definition set_queues (f : list Queue.t -> list Queue.t) (db : Db) : Db :=
  mkDb (departments db) (f (departmentQueues db)) (triageSessions db).

Definition set_departments (f : list Dept.t -> list Dept.t) (db : Db) : Db :=
  mkDb (f (departments db)) (departmentQueues db) (triageSessions db).

Definition set_sessions (f : list Triage.t -> list Triage.t) (db : Db) : Db :=
  mkDb (departments db) (departmentQueues db) (f (triageSessions db)).

(** ** TriageCalculator (utils/TriageCalculator)

    The three static methods the intake calls.  The class is defined outside
    the modelled files, so the services take it as a parameter. *)

Record MewsInput := mkMewsInput {
  mews_respiratoryRate : Q;
  mews_oxygenSaturation : Q;
  mews_temperature : Q;
  mews_systolicBP : Q;
  mews_heartRate : Q
}.

Record TriageCalculator := mkCalculator {
  calculateMEWS : MewsInput -> Z;
  getUrgencyLevel : Z -> UrgencyLevel;
  estimateWaitTime : UrgencyLevel -> Z -> Z -> Z
}.

(** ** TriageService *)

Record TriageData := mkTriageData {
  td_patientId : uuid;
  td_nurseId : uuid;
  td_vitals : Vitals;
  td_symptoms : gmap string JsValue;
  td_chiefComplaint : option string
}.

(** The count of rows [WHERE department_id = d AND status = 'WAITING']. *)
Definition queueCount (d : uuid) (db : Db) : Z :=
  Z.of_nat (length (waitingRows db d)).

(** [INSERT ... RETURNING]: the row is appended under a fresh key.  The
    refusal of a row (a vital sign its column cannot hold, a foreign key
    without its row) is the store's, not part of the model. *)
Definition insert_triageSession (row : uuid -> Triage.t) : M Triage.t :=
  fun db =>
    let r := row (fresh_uuid (Triage.sessionId <$> triageSessions db)) in
    (Ok r, set_sessions (fun t => t ++ [r]) db).

Definition insert_departmentQueue (row : uuid -> Queue.t) : M Queue.t :=
  fun db =>
    let r := row (fresh_uuid (Queue.queueId <$> departmentQueues db)) in
    (Ok r, set_queues (fun t => t ++ [r]) db).

(** [performTriage].  [now] is the reading of the clock ([defaultNow()]).
    The critical alert sent for RED cases after the transaction swallows its
    own failures and writes to none of the three tables; it is left out. *)
Definition performTriage (calc : TriageCalculator) (now : timestamp)
    (triageData : TriageData) : M (Triage.t * Queue.t) :=
  rethrow "Failed to perform triage" (
    let v := td_vitals triageData in
    let mewsScore := calculateMEWS calc
      (mkMewsInput (or_zero (respiratoryRate v)) (or_zero (oxygenSaturation v))
         (or_zero (temperature v)) (or_zero (systolicBp v)) (or_zero (heartRate v))) in
    let urgencyLevel := getUrgencyLevel calc mewsScore in
    do recommendedDept <- lift (determineDepartment (td_symptoms triageData) v);
    do department <- select (fun db => head (filter (hasName recommendedDept) (departments db)));
    match department with
    | None => throw (AppError "Department not found" 404)
    | Some department =>
      do count <- select (queueCount (Dept.departmentId department));
      let estimatedWait :=
        estimateWaitTime calc urgencyLevel count (Dept.averageTreatmentTime department) in
      db_transaction (
        do triageSession <- insert_triageSession (fun id =>
          Triage.mk id (td_patientId triageData) (td_nurseId triageData) v
            (td_symptoms triageData) (td_chiefComplaint triageData)
            mewsScore urgencyLevel recommendedDept estimatedWait now);
        let queuePosition := count + 1 in
        do queueEntry <- insert_departmentQueue (fun id =>
          Queue.mk id (Dept.departmentId department) (td_patientId triageData)
            (Some (Triage.sessionId triageSession)) urgencyLevel queuePosition
            estimatedWait WAITING None None None None now now);
        run exec (set_departments
              (update_where (hasDepartmentId (Dept.departmentId department)) (add_load 1)));
        ret (triageSession, queueEntry))
    end).

(** [getPatientQueue]: the WAITING rows of a department, in queue order. *)
Definition getPatientQueue (departmentId : uuid) (db : Db) : list Queue.t :=
  orderBy (by_key queueKey) (waitingRows db departmentId).

(** [updateQueuePosition]: a bare write of one position. *)
Definition updateQueuePosition (now : timestamp) (queueId : uuid) (position : Z) : M unit :=
  rethrow_all "Failed to update queue position" (
    exec (set_queues (update_where (hasQueueId queueId) (set_position position now)))).

(** The loop [for (i = 0; i < waitingPatients.length; i++)] of
    [prioritizeCriticalPatients]: row [i] gets position [i + 1]. *)
Fixpoint renumber (now : timestamp) (i : Z) (waitingPatients : list Queue.t)
    (rows : list Queue.t) : list Queue.t :=
  match waitingPatients with
  | [] => rows
  | w :: rest =>
    renumber now (i + 1) rest
      (update_where (hasQueueId (Queue.queueId w)) (set_position (i + 1) now) rows)
  end.

Definition prioritizeCriticalPatients (now : timestamp) (departmentId : uuid) : M unit :=
  rethrow_all "Failed to prioritize queue" (
    db_transaction (
      do waitingPatients <- select (fun db =>
        orderBy (by_key arrivalKey) (waitingRows db departmentId));
      exec (set_queues (renumber now 0 waitingPatients)))).

(** ** QueueService *)

Record QueueStatusRow := mkRow {
  row_queueId : uuid;
  row_urgencyLevel : UrgencyLevel;
  row_position : Z;
  row_waitTime : Z;
  row_status : QueueStatus;
  row_calledAt : option timestamp;
  row_assignedDoctor : option uuid
}.

Record QueueStatusResult := mkStatus {
  qs_currentLoad : option Z;
  qs_maxCapacity : option Z;
  qs_total : Z;
  qs_waiting : Z;
  qs_inProgress : Z;
  qs_patients : list QueueStatusRow
}.

Definition inDepartment (d : uuid) (e : Queue.t) : Prop := Queue.departmentId e = d.

#[global] Instance inDepartment_dec d e : Decision (inDepartment d e).
Proof. unfold inDepartment. apply _. Defined.

Definition hasStatus (st : QueueStatus) (e : Queue.t) : Prop := Queue.status e = st.

#[global] Instance hasStatus_dec st e : Decision (hasStatus st e).
Proof. unfold hasStatus. apply _. Defined.

Definition status_row (q : Queue.t) : QueueStatusRow :=
  mkRow (Queue.queueId q) (Queue.urgencyLevel q) (Queue.positionInQueue q)
    (Queue.expectedWaitTime q) (Queue.status q) (Queue.calledAt q)
    (Queue.assignedDoctorId q).

(** The query of [getQueueStatus]: every row of the department, whatever its
    status, in queue order.  The joined tables only add display columns. *)
Definition queueStatusQuery (departmentId : uuid) (db : Db) : list Queue.t :=
  orderBy (by_key queueKey) (filter (inDepartment departmentId) (departmentQueues db)).

(** [getQueueStatus].  [cached] is what the Redis cache returns for the key
    of the department (RedisService is defined outside the modelled files);
    the second component is the value the cache holds afterwards.  The two
    rounded ratios of the summary are left out. *)
Definition getQueueStatus (cached : option QueueStatusResult) (departmentId : uuid)
    (db : Db) : QueueStatusResult * option QueueStatusResult :=
  match cached with
  | Some r => (r, cached)
  | None =>
    let queue := queueStatusQuery departmentId db in
    let department := head (filter (hasDepartmentId departmentId) (departments db)) in
    let result :=
      mkStatus (Dept.currentPatientLoad <$> department) (Dept.maxCapacity <$> department)
        (Z.of_nat (length queue))
        (Z.of_nat (length (filter (hasStatus WAITING) queue)))
        (Z.of_nat (length (filter (hasStatus IN_PROGRESS) queue)))
        (status_row <$> queue) in
    (result, Some result)
  end.

(** [callNextPatient].  The refusal of the UPDATE for a [doctorId] that is
    the key of no stored user is the store's, not part of the model. *)
Definition callNextPatient (now : timestamp) (departmentId doctorId : uuid)
  : M (option Queue.t) :=
  rethrow "Failed to call next patient" (
    db_transaction (
      do next <- select (fun db =>
        head (orderBy (by_key queueKey) (waitingRows db departmentId)));
      match next with
      | None => throw (AppError "No patients in queue" 404)
      | Some nextPatient =>
        run exec (set_queues
              (update_where (hasQueueId (Queue.queueId nextPatient)) (set_called doctorId now)));
        do updated <- select (fun db =>
          head (filter (hasQueueId (Queue.queueId nextPatient)) (departmentQueues db)));
        run exec (set_departments (update_where (hasDepartmentId departmentId) (add_load (-1))));
        ret updated
      end)).

Definition findQueueEntry (queueId : uuid) (db : Db) : option Queue.t :=
  head (filter (hasQueueId queueId) (departmentQueues db)).

(** [completePatient]. *)
Definition completePatient (now : timestamp) (queueId : uuid) : M unit :=
  rethrow "Failed to complete patient" (
    db_transaction (
      do queueEntry <- select (findQueueEntry queueId);
      match queueEntry with
      | None => throw (AppError "Queue entry not found" 404)
      | Some _ => exec (set_queues (update_where (hasQueueId queueId) (set_completed now)))
      end)).

(** [skipPatient]. *)
Definition skipPatient (now : timestamp) (queueId : uuid) (reason : string) : M unit :=
  rethrow "Failed to skip patient" (
    db_transaction (
      do queueEntry <- select (findQueueEntry queueId);
      match queueEntry with
      | None => throw (AppError "Queue entry not found" 404)
      | Some _ => exec (set_queues (update_where (hasQueueId queueId) (set_skipped now)))
      end)).

(** The rows the reposition renumbers:
    [WHERE department_id = d AND status = 'WAITING' AND queue_id != q]. *)
Definition otherWaiting (d q : uuid) (e : Queue.t) : Prop :=
  Queue.departmentId e = d /\ Queue.status e = WAITING /\ Queue.queueId e <> q.

#[global] Instance otherWaiting_dec d q e : Decision (otherWaiting d q e).
Proof. unfold otherWaiting. apply _. Defined.

(** [ORDER BY position_in_queue]. *)
Definition by_position (a b : Queue.t) : bool :=
  Queue.positionInQueue a <=? Queue.positionInQueue b.

(** One round of the loop that fills [positions]; the state is the array and
    [currentPos]. *)
Definition adjust_step (queueId : uuid) (newPosition : Z)
    (st : list (uuid * Z) * Z) (w : uuid) : list (uuid * Z) * Z :=
  let '(positions, currentPos) := st in
  let '(positions, currentPos) :=
    if currentPos =? newPosition
    then (positions ++ [(queueId, currentPos)], currentPos + 1)
    else (positions, currentPos) in
  (positions ++ [(w, currentPos)], currentPos + 1).

Definition adjustPositions (queueId : uuid) (newPosition : Z)
    (waitingPatients : list uuid) : list (uuid * Z) :=
  let '(positions, currentPos) :=
    foldl (adjust_step queueId newPosition) ([], 1) waitingPatients in
  if currentPos <=? newPosition
  then positions ++ [(queueId, newPosition)]
  else positions.

(** [for (const pos of positions) UPDATE ... SET position WHERE queue_id]. *)
Definition write_positions (now : timestamp) (positions : list (uuid * Z))
    (rows : list Queue.t) : list Queue.t :=
  foldl (fun rows pos => update_where (hasQueueId pos.1) (set_position pos.2 now) rows)
    rows positions.

(** [updatePatientPosition]. *)
Definition updatePatientPosition (now : timestamp) (queueId : uuid) (newPosition : Z)
  : M unit :=
  rethrow "Failed to update patient position" (
    db_transaction (
      do queueEntry <- select (findQueueEntry queueId);
      match queueEntry with
      | None => throw (AppError "Queue entry not found" 404)
      | Some queueEntry =>
        do waitingPatients <- select (fun db =>
          Queue.queueId <$>
            orderBy by_position
              (filter (otherWaiting (Queue.departmentId queueEntry) queueId)
                 (departmentQueues db)));
        exec (set_queues
                (write_positions now (adjustPositions queueId newPosition waitingPatients)))
      end)).

(** ** Observations on a store *)

(** The stored positions of the WAITING rows of a department. *)
Definition waitingPositions (db : Db) (d : uuid) : list Z :=
  Queue.positionInQueue <$> waitingRows db d.

(** The positions are exactly 1..N. *)
Definition dense (db : Db) (d : uuid) : Prop :=
  waitingPositions db d ≡ₚ seqZ 1 (Z.of_nat (length (waitingRows db d))).

(** [queue_id] is the primary key of [department_queues]. *)
Definition primary_key (db : Db) : Prop :=
  NoDup (Queue.queueId <$> departmentQueues db).

Definition isActive (e : Queue.t) : Prop :=
  Queue.status e = WAITING \/ Queue.status e = IN_PROGRESS.

#[global] Instance isActive_dec e : Decision (isActive e).
Proof. unfold isActive. apply _. Defined.

(** The position a sequence of writes leaves on the rows of key [q]: the
    last write to [q] wins. *)
Fixpoint final_position (positions : list (uuid * Z)) (q : uuid) : option Z :=
  match positions with
  | [] => None
  | pos :: rest =>
    match final_position rest q with
    | Some p => Some p
    | None => if decide (pos.1 = q) then Some pos.2 else None
    end
  end.

Definition relocate (now : timestamp) (positions : list (uuid * Z)) (e : Queue.t)
  : Queue.t :=
  match final_position positions (Queue.queueId e) with
  | Some p => set_position p now e
  | None => e
  end.

(** The canonical order of the WAITING rows of a department: urgency rank,
    then time of enqueue. *)
Definition canonicalOrder (db : Db) (d : uuid) : list Queue.t :=
  orderBy (by_key arrivalKey) (waitingRows db d).

(** The urgency class the intake computes for a triage request. *)
Definition triageUrgency (calc : TriageCalculator) (triageData : TriageData)
  : UrgencyLevel :=
  let v := td_vitals triageData in
  getUrgencyLevel calc (calculateMEWS calc
    (mkMewsInput (or_zero (respiratoryRate v)) (or_zero (oxygenSaturation v))
       (or_zero (temperature v)) (or_zero (systolicBp v)) (or_zero (heartRate v)))).

(** ** Readings of the specification compared with the code *)

(** Position by urgency band: one more than the number of WAITING rows of the
    department whose urgency rank is at most that of the new entry. *)
Definition spec_bandPosition (db : Db) (d : uuid) (u : UrgencyLevel) : Z :=
  Z.of_nat (length (filter (fun e => urgencyRank (Queue.urgencyLevel e) <= urgencyRank u)
                      (waitingRows db d))) + 1.

(** Queue depth ahead of a new entry: the WAITING rows of the department that
    are at least as urgent as the new entry (RED ahead of YELLOW and GREEN,
    equal urgency counted). *)
Definition spec_depthAhead (db : Db) (d : uuid) (u : UrgencyLevel) : Z :=
  Z.of_nat (length (filter (fun e => urgencyRank (Queue.urgencyLevel e) <= urgencyRank u)
                      (waitingRows db d))).

(** The same count with the comparison of rank numbers turned around. *)
Definition spec_depthRankAtLeast (db : Db) (d : uuid) (u : UrgencyLevel) : Z :=
  Z.of_nat (length (filter (fun e => urgencyRank u <= urgencyRank (Queue.urgencyLevel e))
                      (waitingRows db d))).

(** The active rows of a patient in a department. *)
Definition activeEntries (db : Db) (d p : uuid) : list Queue.t :=
  filter (fun e => Queue.departmentId e = d /\ Queue.patientId e = p /\ isActive e)
    (departmentQueues db).

(** ** Sample stores *)

(** A calculator for the examples: every request is classed [u], and the
    estimate is the queue depth handed to the estimator. *)
Definition fixedCalculator (u : UrgencyLevel) : TriageCalculator :=
  mkCalculator (fun _ => 0) (fun _ => u) (fun _ depth _ => depth).

Definition general : Dept.t := Dept.mk 1%nat "Emergency/General" 0 50 20.

Definition empty_db : Db := mkDb [general] [] [].

(** A request with no symptom flag set: routed to Emergency/General. *)
Definition intake (patient : uuid) : TriageData :=
  mkTriageData patient 9%nat
    (mkVitals None None None None None (Some 98%Q) None 2%Q None None) ∅ None.

Definition after {A} (m : M A) (db : Db) : Db := (m db).2.

(** One WAITING GREEN entry (patient 5, queue id 1, position 1). *)
Definition green_db : Db :=
  after (performTriage (fixedCalculator GREEN) 10 (intake 5%nat)) empty_db.

(** GREEN (queue id 1), then RED (queue id 2), both WAITING. *)
Definition green_red_db : Db :=
  after (performTriage (fixedCalculator RED) 20 (intake 6%nat)) green_db.

(** Two WAITING GREEN entries at positions 1 and 2. *)
Definition two_green_db : Db :=
  after (performTriage (fixedCalculator GREEN) 20 (intake 6%nat)) green_db.

(** A request that reaches the pediatric test of the routing: only the
    [pediatric] flag is set, and the oxygen saturation is 98. *)
Definition pediatric_input_symptoms : gmap string JsValue :=
  {[ "pediatric" := JsBool true ]}.

Definition pediatric_input_vitals : Vitals :=
  mkVitals None None None None None (Some 98%Q) None 2%Q None None.

Definition pediatric_intake : TriageData :=
  mkTriageData 5%nat 9%nat pediatric_input_vitals pediatric_input_symptoms None.

(** ** Histories of intake, call-next and complete *)



(** A store before any intake: no queue row, every load counter at its
    default 0. *)
Definition initial (db : Db) : Prop :=
  departmentQueues db = [] /\
  Forall (fun x => Dept.currentPatientLoad x = 0) (departments db).



Definition uncalledIn (d : uuid) (e : Queue.t) : Prop :=
  Queue.departmentId e = d /\ Queue.calledAt e = None.

#[global] Instance uncalledIn_dec d e : Decision (uncalledIn d e).
Proof. unfold uncalledIn. apply _. Defined.

(** The rows of a department that have not been called. *)
Definition uncalledCount (db : Db) (d : uuid) : Z :=
  Z.of_nat (length (filter (uncalledIn d) (departmentQueues db))).

(** What a history of intake, call-next and complete maintains. *)
Record load_invariant (db : Db) : Prop := mkInvariant {
  inv_primary_key : primary_key db;
  inv_waiting_uncalled :
    Forall (fun e => Queue.status e = WAITING -> Queue.calledAt e = None) (departmentQueues db);
  inv_in_progress_called :
    Forall (fun e => Queue.status e = IN_PROGRESS -> Queue.calledAt e <> None)
      (departmentQueues db);
  inv_load :
    Forall (fun x => Dept.currentPatientLoad x = uncalledCount db (Dept.departmentId x))
      (departments db)
}.


(** ** Order of a read *)

(** Lexicographic order on (urgency rank, position). *)
Definition queueOrder (a b : Z * Z) : Prop :=
  a.1 < b.1 \/ (a.1 = b.1 /\ a.2 <= b.2).

Definition rowKey (r : QueueStatusRow) : Z * Z :=
  (urgencyRank (row_urgencyLevel r), row_position r).

(** The entry with key [a] comes before the entry with key [b] in a listing. *)
Definition precedes (l : list Queue.t) (a b : uuid) : Prop :=
  exists i j, (i < j)%nat /\
    (Queue.queueId <$> l) !! i = Some a /\ (Queue.queueId <$> l) !! j = Some b.

(** ** Histories of all the mutations of the two services *)

Inductive Operation :=
| OpIntake (now : timestamp) (triageData : TriageData)
| OpCallNext (now : timestamp) (departmentId doctorId : uuid)
| OpComplete (now : timestamp) (queueId : uuid)
| OpSkip (now : timestamp) (queueId : uuid) (reason : string)
| OpReposition (now : timestamp) (queueId : uuid) (newPosition : Z)
| OpPrioritize (now : timestamp) (departmentId : uuid)
| OpSetPosition (now : timestamp) (queueId : uuid) (position : Z).

Definition run_operation (calc : TriageCalculator) (op : Operation) : M unit :=
  match op with
  | OpIntake now triageData => run performTriage calc now triageData; ret tt
  | OpCallNext now d doctorId => run callNextPatient now d doctorId; ret tt
  | OpComplete now q => completePatient now q
  | OpSkip now q reason => skipPatient now q reason
  | OpReposition now q p => updatePatientPosition now q p
  | OpPrioritize now d => prioritizeCriticalPatients now d
  | OpSetPosition now q p => updateQueuePosition now q p
  end.

Inductive served (calc : TriageCalculator) : Db -> Prop :=
| served_initial db : initial db -> served calc db
| served_step db op : served calc db -> served calc (after (run_operation calc op) db).

(** What an operation may change on a stored row: never its key, department,
    patient, urgency, triage session, estimate or time of enqueue; it never
    puts a row back to WAITING, makes it IN_PROGRESS only from WAITING, and
    never cancels it or clears its calledAt. *)
Record evolves (r r' : Queue.t) : Prop := mkEvolves {
  ev_queueId : Queue.queueId r' = Queue.queueId r;
  ev_departmentId : Queue.departmentId r' = Queue.departmentId r;
  ev_patientId : Queue.patientId r' = Queue.patientId r;
  ev_triageSessionId : Queue.triageSessionId r' = Queue.triageSessionId r;
  ev_urgencyLevel : Queue.urgencyLevel r' = Queue.urgencyLevel r;
  ev_expectedWaitTime : Queue.expectedWaitTime r' = Queue.expectedWaitTime r;
  ev_createdAt : Queue.createdAt r' = Queue.createdAt r;
  ev_waiting : Queue.status r' = WAITING -> Queue.status r = WAITING;
  ev_in_progress :
    Queue.status r' = IN_PROGRESS ->
    Queue.status r = WAITING \/ Queue.status r = IN_PROGRESS;
  ev_cancelled : Queue.status r' = CANCELLED -> Queue.status r = CANCELLED;
  ev_calledAt : Queue.calledAt r' = None -> Queue.calledAt r = None
}.

(** A store with a skipped entry: patient 5 was taken in and skipped. *)
Definition skipped_db : Db := after (skipPatient 30 1%nat "no show") green_db.

(** ** TriageController: the HTTP answers of the queue endpoints *)

(** The JSON body of an answer: [{success: true, data}], [{success: false,
    error: message}], or the [{success: false, errors}] of a failed schema
    check. *)
Inductive Body (A : Type) :=
| Data (a : A)
| Failure (message : string)
| Invalid.

Arguments Data {A} a.
Arguments Failure {A} message.
Arguments Invalid {A}.

Record Response (A : Type) := mkResponse {
  res_status : Z;
  res_body : Body A
}.

Arguments mkResponse {A} res_status res_body.
Arguments res_status {A} r.
Arguments res_body {A} r.

(** [res.status(error.statusCode || 500).json({success: false, error: error.message})]. *)
Definition error_response {A} (e : Error) : Response A :=
  match e with
  | AppError message statusCode =>
    mkResponse (if statusCode =? 0 then 500 else statusCode) (Failure message)
  | ReferenceError message => mkResponse 500 (Failure message)
  end.

(** A handler body that answers [status] with the value of the service call,
    and the error answer when the call throws. *)
Definition respond {A} (status : Z) (body : M A) (db : Db) : Response A * Db :=
  match body db with
  | (Ok a, db') => (mkResponse status (Data a), db')
  | (Err e, db') => (error_response e, db')
  end.

(** [z.number().int()]: the number is whole. *)
Definition is_integer (q : Q) : bool := (Qnum q mod Zpos (Qden q)) =? 0.

(** [queueUpdateSchema] (validators.ts) on the [position] of a request
    body: a whole number of at least 1. *)
Definition queueUpdateSchema (position : JsValue) : option Z :=
  match position with
  | JsNumber q =>
    if is_integer q && Qle_bool 1 q then Some (Qnum q / Zpos (Qden q)) else None
  | _ => None
  end.

Module TriageController.

(** [doctorId] is the field of the request body: absent (or falsy), or the
    key of a user. *)
Definition callNextPatient (now : timestamp) (departmentId : uuid)
    (doctorId : option uuid) : Db -> Response (option Queue.t) * Db :=
  respond 200
    match doctorId with
    | None => throw (AppError "Doctor ID is required" 400)
    | Some doctorId => callNextPatient now departmentId doctorId
    end.

Definition completePatient (now : timestamp) (queueId : uuid) : Db -> Response unit * Db :=
  respond 200 (completePatient now queueId).

Definition updateQueuePosition (now : timestamp) (queueId : uuid) (position : JsValue)
    (db : Db) : Response unit * Db :=
  match queueUpdateSchema position with
  | None => (mkResponse 400 Invalid, db)
  | Some position => respond 200 (updatePatientPosition now queueId position) db
  end.

Definition prioritizeQueue (now : timestamp) (departmentId : uuid)
  : Db -> Response unit * Db :=
  respond 200 (prioritizeCriticalPatients now departmentId).

(** The body has the types of [triageSchema]; the schema check that is left
    is the one of the ranges of the vitals. *)
Definition performTriage (calc : TriageCalculator) (now : timestamp)
    (body : TriageData) (db : Db) : Response (Triage.t * Queue.t) * Db :=
  if triageSchema_vitals (td_vitals body)
  then respond 201 (performTriage calc now body) db
  else (mkResponse 400 Invalid, db).

End TriageController.

(** ** Patient records: [TriageService.getPatientDetails] *)

Module Patient.
Record t := mk {
  patientId : uuid;
  straId : string;
  firstName : string;
  lastName : string;
  dateOfBirth : timestamp;
  isActive : bool;
  createdAt : timestamp
}.
End Patient.

Record PatientDetails := mkDetails {
  pd_patient : Patient.t;
  pd_age : Z;
  pd_latestTriage : option Triage.t;
  pd_recentVitals : list Vitals;
  pd_currentQueue : option Queue.t
}.

(** [ORDER BY created_at DESC] on triage sessions. *)
Definition newest_first (a b : Triage.t) : bool :=
  Triage.createdAt b <=? Triage.createdAt a.

(** [getPatientDetails].  [patients] is the table of patients.  The third
    query names [vitalsHistory], which the module neither imports nor
    declares: evaluating the identifier throws a ReferenceError.  [age] is
    the floor of the elapsed milliseconds over those of 365.25 days. *)
Definition getPatientDetails (patients : list Patient.t) (now : timestamp)
    (patientId : uuid) : M PatientDetails :=
  rethrow "Failed to fetch patient details" (
    do patient <- select (fun _ =>
      head (filter (fun p => Patient.patientId p = patientId) patients));
    match patient with
    | None => throw (AppError "Patient not found" 404)
    | Some patient =>
      do latestTriage <- select (fun db =>
        head (orderBy newest_first
                (filter (fun t => Triage.patientId t = patientId) (triageSessions db))));
      do recentVitals <- throw (ReferenceError "vitalsHistory is not defined");
      do currentQueue <- select (fun db =>
        head (filter (fun e => Queue.patientId e = patientId /\ isActive e)
                (departmentQueues db)));
      let age := (now - Patient.dateOfBirth patient) / 31557600000 in
      ret (mkDetails patient age latestTriage recentVitals currentQueue)
    end).

(** [TriageController.getPatientDetails]. *)
Definition getPatientDetails_endpoint (patients : list Patient.t) (now : timestamp)
    (patientId : uuid) : Db -> Response PatientDetails * Db :=
  respond 200 (getPatientDetails patients now patientId).

(** Call-next requests in a row on one department that all return: the
    entries they return, in turn, and the store they leave. *)
Inductive served_in_turn (now : timestamp) (d doctorId : uuid)
  : Db -> list Queue.t -> Db -> Prop :=
| served_none db : served_in_turn now d doctorId db [] db
| served_next db called db1 rest db2 :
    callNextPatient now d doctorId db = (Ok (Some called), db1) ->
    served_in_turn now d doctorId db1 rest db2 ->
    served_in_turn now d doctorId db (called :: rest) db2.

(** ** What an ORDER BY may return *)

(** [l] holds the rows [rows] in an order in which the sort key ascends.
    Rows with equal keys may come in any order. *)
Definition ordered_rows {A} (le : A -> A -> bool) (rows l : list A) : Prop :=
  l ≡ₚ rows /\ StronglySorted (fun a b => le a b = true) l.

(** The urgency rank and the time of enqueue of [a] come before those of
    [b]: the canonical order of a queue, without the ties. *)
Definition arrives_before (a b : Queue.t) : Prop :=
  urgencyRank (Queue.urgencyLevel a) < urgencyRank (Queue.urgencyLevel b) \/
  (urgencyRank (Queue.urgencyLevel a) = urgencyRank (Queue.urgencyLevel b) /\
   Queue.createdAt a < Queue.createdAt b).

(** A stored patient, born at time 0. *)
Definition stored_patient : Patient.t :=
  Patient.mk 5%nat "STRA-000001" "Ada" "Okoye" 0 true 0.


(** GREEN (queue id 1, enqueued at 10), RED (2, at 20), GREEN (3, at 30),
    at positions 1, 2, 3. *)
Definition three_db : Db :=
  after (performTriage (fixedCalculator GREEN) 30 (intake 7%nat)) green_red_db.

(** The same entries after two manual writes: positions 3, 2, 1. *)
Definition overridden_db : Db :=
  after (updateQueuePosition 35 3%nat 1) (after (updateQueuePosition 35 1%nat 3) three_db).




(** * Properties *)

(** ** Sorting *)

Section OrderBy.
Context {A : Type} (le : A -> A -> bool).
Hypothesis le_total : forall a b, le a b = true \/ le b a = true.
Hypothesis le_trans : forall a b c, le a b = true -> le b c = true -> le a c = true.

Lemma insertBy_perm x l : insertBy le x l ≡ₚ x :: l.
Proof.
  induction l as [|y l IH]; simpl; [done|].
  destruct (le x y); [done|].
  rewrite IH. apply Permutation_swap.
Qed.

Lemma orderBy_perm l : orderBy le l ≡ₚ l.
Proof.
  induction l as [|x l IH]; simpl; [done|].
  rewrite insertBy_perm. by rewrite IH.
Qed.

Lemma orderBy_length l : length (orderBy le l) = length l.
Proof. by rewrite orderBy_perm. Qed.

Lemma orderBy_elem x l : x ∈ orderBy le l <-> x ∈ l.
Proof. by rewrite orderBy_perm. Qed.

Lemma insertBy_sorted x l :
  StronglySorted (fun a b => le a b = true) l ->
  StronglySorted (fun a b => le a b = true) (insertBy le x l).
Proof.
  induction 1 as [|y l Hs IH Hall]; simpl.
  - repeat constructor.
  - destruct (le x y) eqn:Hxy.
    + constructor; [by constructor|].
      constructor; [done|].
      eapply Forall_impl; [exact Hall|]. intros z Hz. by eapply le_trans.
    + constructor; [done|].
      rewrite insertBy_perm. constructor; [|done].
      destruct (le_total x y); congruence.
Qed.

Lemma orderBy_sorted l : StronglySorted (fun a b => le a b = true) (orderBy le l).
Proof.
  induction l as [|x l IH]; simpl; [constructor|]. by apply insertBy_sorted.
Qed.

Lemma orderBy_head_min x l :
  head (orderBy le l) = Some x -> x ∈ l /\ forall y, y ∈ l -> le x y = true.
Proof.
  intros Hh. pose proof (orderBy_sorted l) as Hs.
  destruct (orderBy le l) as [|x' r] eqn:E; simplify_eq/=.
  assert (Hin : forall y, y ∈ l <-> y ∈ x :: r) by (intros y; by rewrite <- E, orderBy_elem).
  split; [apply Hin; left|].
  intros y Hy. apply Hin in Hy. apply StronglySorted_inv in Hs as [_ Hall].
  apply elem_of_cons in Hy as [->|Hy].
  - destruct (le_total x x); done.
  - rewrite Forall_forall in Hall. by apply Hall.
Qed.


End OrderBy.

Lemma insertBy_fmap {A} (le : A -> A -> bool) (f : A -> A) x l :
  (forall a b, le (f a) (f b) = le a b) ->
  insertBy le (f x) (f <$> l) = f <$> insertBy le x l.
Proof.
  intros Hf. induction l as [|y l IH]; [done|].
  rewrite fmap_cons. cbn [insertBy]. rewrite Hf.
  destruct (le x y); [done|]. by rewrite fmap_cons, IH.
Qed.

Lemma orderBy_fmap {A} (le : A -> A -> bool) (f : A -> A) l :
  (forall a b, le (f a) (f b) = le a b) ->
  orderBy le (f <$> l) = f <$> orderBy le l.
Proof.
  intros Hf. induction l as [|x l IH]; [done|].
  rewrite fmap_cons. change (orderBy le (f x :: (f <$> l)))
    with (insertBy le (f x) (orderBy le (f <$> l))).
  rewrite IH. by apply insertBy_fmap.
Qed.

Lemma key_le_total a b : key_le a b = true \/ key_le b a = true.
Proof. unfold key_le. destruct a, b; simpl. lia. Qed.

Lemma key_le_trans a b c : key_le a b = true -> key_le b c = true -> key_le a c = true.
Proof. unfold key_le. destruct a, b, c; simpl. lia. Qed.

Lemma by_key_total {A} (key : A -> Z * Z) a b :
  by_key key a b = true \/ by_key key b a = true.
Proof. apply key_le_total. Qed.

Lemma by_key_trans {A} (key : A -> Z * Z) a b c :
  by_key key a b = true -> by_key key b c = true -> by_key key a c = true.
Proof. apply key_le_trans. Qed.

Lemma by_position_total a b : by_position a b = true \/ by_position b a = true.
Proof. unfold by_position. lia. Qed.

Lemma by_position_trans a b c :
  by_position a b = true -> by_position b c = true -> by_position a c = true.
Proof. unfold by_position. lia. Qed.

(** ** Writes of positions *)

Lemma filter_fmap_stable {A} (P : A -> Prop) `{!forall x, Decision (P x)}
    (f : A -> A) (l : list A) :
  (forall x, P (f x) <-> P x) -> filter P (f <$> l) = f <$> filter P l.
Proof.
  intros Hf. induction l as [|x l IH]; [done|].
  rewrite fmap_cons, !filter_cons.
  destruct (decide (P (f x))) as [HP|HP], (decide (P x)) as [HP'|HP'];
    rewrite ?fmap_cons, ?IH; try done; pose proof (Hf x); tauto.
Qed.

Lemma write_positions_spec now positions rows :
  write_positions now positions rows = relocate now positions <$> rows.
Proof.
  unfold write_positions. revert rows.
  induction positions as [|[q p] rest IH]; intros rows; simpl.
  - unfold relocate. simpl. by rewrite list_fmap_id.
  - rewrite IH. unfold update_where. rewrite <- list_fmap_compose.
    apply list_fmap_ext. intros _ r _. simpl. unfold relocate. simpl.
    destruct (decide (hasQueueId q r)) as [Hq|Hq]; unfold hasQueueId in Hq.
    + simpl. destruct (final_position rest (Queue.queueId r)); [done|].
      by rewrite decide_True.
    + destruct (final_position rest (Queue.queueId r)); [done|].
      by rewrite decide_False.
Qed.

Lemma seqZ_succ m (n : nat) :
  seqZ m (Z.of_nat (S n)) = m :: seqZ (m + 1) (Z.of_nat n).
Proof.
  rewrite seqZ_cons by lia. f_equal. f_equal; lia.
Qed.

Lemma renumber_spec now i waitingPatients rows :
  renumber now i waitingPatients rows =
  write_positions now
    (zip (Queue.queueId <$> waitingPatients)
         (seqZ (i + 1) (Z.of_nat (length waitingPatients)))) rows.
Proof.
  revert i rows. induction waitingPatients as [|w ws IH]; intros i rows; [done|].
  cbn [renumber length]. rewrite IH, seqZ_succ. done.
Qed.

Lemma relocate_queueId now ps e : Queue.queueId (relocate now ps e) = Queue.queueId e.
Proof. unfold relocate. by destruct (final_position _ _). Qed.

Lemma relocate_departmentId now ps e :
  Queue.departmentId (relocate now ps e) = Queue.departmentId e.
Proof. unfold relocate. by destruct (final_position _ _). Qed.

Lemma relocate_status now ps e : Queue.status (relocate now ps e) = Queue.status e.
Proof. unfold relocate. by destruct (final_position _ _). Qed.

Lemma relocate_urgencyLevel now ps e :
  Queue.urgencyLevel (relocate now ps e) = Queue.urgencyLevel e.
Proof. unfold relocate. by destruct (final_position _ _). Qed.

Lemma relocate_createdAt now ps e : Queue.createdAt (relocate now ps e) = Queue.createdAt e.
Proof. unfold relocate. by destruct (final_position _ _). Qed.

Lemma relocate_waitingIn now ps d e : waitingIn d (relocate now ps e) <-> waitingIn d e.
Proof. unfold waitingIn. by rewrite relocate_departmentId, relocate_status. Qed.

Lemma final_position_None ps q : q ∉ ps.*1 -> final_position ps q = None.
Proof.
  induction ps as [|[q' p] rest IH]; simpl; [done|].
  intros Hq. apply not_elem_of_cons in Hq as [Hne Hq].
  rewrite IH by done. by rewrite decide_False.
Qed.

Lemma relocate_fields now ps r :
  relocate now ps r
  = set_position (Queue.positionInQueue (relocate now ps r))
      (Queue.updatedAt (relocate now ps r)) r.
Proof. unfold relocate. destruct (final_position _ _); by destruct r. Qed.

Lemma fst_zip_subseteq {A B} (l : list A) (k : list B) x : x ∈ (zip l k).*1 -> x ∈ l.
Proof.
  revert k. induction l as [|a l IH]; intros [|b k]; simpl; try by inversion 1.
  intros [->|H]%elem_of_cons; [left|right; eauto].
Qed.

(** Writing the values [vals] to rows [R] with distinct keys leaves exactly
    [vals] as their positions. *)
Lemma relocate_zip now (R : list Queue.t) (vals : list Z) :
  NoDup (Queue.queueId <$> R) -> length vals = length R ->
  (fun r => Queue.positionInQueue (relocate now (zip (Queue.queueId <$> R) vals) r)) <$> R
  = vals.
Proof.
  revert vals. induction R as [|r R IH]; intros [|v vals] Hnd Hlen; simplify_eq/=; [done|].
  apply NoDup_cons in Hnd as [Hr Hnd]. f_equal.
  - unfold relocate. simpl. rewrite final_position_None.
    + by rewrite decide_True.
    + intros H. apply Hr. by apply fst_zip_subseteq in H.
  - etrans; [|by apply IH].
    apply Forall_fmap_ext, Forall_forall. intros x Hx.
    unfold relocate. simpl.
    destruct (final_position _ (Queue.queueId x)); [done|].
    rewrite decide_False; [done|].
    intros Heq. apply Hr. rewrite Heq. by apply list_elem_of_fmap_2.
Qed.

Lemma NoDup_queueId_filter (P : Queue.t -> Prop) `{!forall x, Decision (P x)}
    (rows R : list Queue.t) :
  NoDup (Queue.queueId <$> rows) -> R ≡ₚ filter P rows -> NoDup (Queue.queueId <$> R).
Proof.
  intros Hnd ->. eapply sublist_NoDup; [exact Hnd|].
  apply fmap_sublist, sublist_filter.
Qed.

Lemma waitingRows_relocate now ps db d :
  waitingRows (set_queues (write_positions now ps) db) d
  = relocate now ps <$> waitingRows db d.
Proof.
  unfold waitingRows, set_queues. simpl. rewrite write_positions_spec.
  apply filter_fmap_stable. intros x. apply relocate_waitingIn.
Qed.

Lemma find_relocate now ps q db :
  head (filter (hasQueueId q) (relocate now ps <$> departmentQueues db))
  = relocate now ps <$> findQueueEntry q db.
Proof.
  unfold findQueueEntry. rewrite filter_fmap_stable.
  - by destruct (filter (hasQueueId q) (departmentQueues db)).
  - intros x. unfold hasQueueId. by rewrite relocate_queueId.
Qed.

(** Writing [vals] to a listing [R] of the WAITING rows of [d] makes [vals]
    their positions. *)
Lemma write_positions_waiting now db d (R : list Queue.t) (vals : list Z) :
  primary_key db -> R ≡ₚ waitingRows db d -> length vals = length R ->
  waitingPositions (set_queues (write_positions now (zip (Queue.queueId <$> R) vals)) db) d
  ≡ₚ vals.
Proof.
  intros Hpk HR Hlen. unfold waitingPositions.
  rewrite waitingRows_relocate, <- list_fmap_compose, <- HR.
  rewrite <- (relocate_zip now R vals) at 2; [done| |done].
  by eapply NoDup_queueId_filter.
Qed.

Lemma dense_intro db d (m : nat) :
  waitingPositions db d ≡ₚ seqZ 1 (Z.of_nat m) -> dense db d.
Proof.
  intros H. unfold dense.
  assert (length (waitingRows db d) = m) as ->; [|done].
  apply Permutation_length in H. unfold waitingPositions in H.
  rewrite length_fmap, length_seqZ in H. lia.
Qed.

(** ** [prioritizeCriticalPatients] *)

Lemma prioritize_run now d db :
  prioritizeCriticalPatients now d db =
  (Ok tt,
   set_queues
     (write_positions now
        (zip (Queue.queueId <$> canonicalOrder db d)
             (seqZ 1 (Z.of_nat (length (waitingRows db d)))))) db).
Proof.
  unfold prioritizeCriticalPatients, rethrow_all, db_transaction, bind, select, exec.
  unfold set_queues. cbv beta iota. rewrite renumber_spec. unfold canonicalOrder.
  by rewrite orderBy_length.
Qed.

Lemma canonicalOrder_relocate now ps db d :
  canonicalOrder (set_queues (write_positions now ps) db) d
  = relocate now ps <$> canonicalOrder db d.
Proof.
  unfold canonicalOrder. rewrite waitingRows_relocate.
  apply orderBy_fmap. intros a b. unfold by_key, arrivalKey.
  by rewrite !relocate_urgencyLevel, !relocate_createdAt.
Qed.


(** ** [updatePatientPosition]: the loop that fills [positions] *)

Lemma adjust_fold_past q p ws acc c :
  p < c ->
  foldl (adjust_step q p) (acc, c) ws
  = (acc ++ zip ws (seqZ c (Z.of_nat (length ws))), c + Z.of_nat (length ws)).
Proof.
  revert acc c. induction ws as [|w ws IH]; intros acc c Hc.
  - simpl. rewrite app_nil_r. f_equal. lia.
  - cbn [foldl length]. unfold adjust_step at 2.
    destruct (Z.eqb_spec c p); [lia|].
    rewrite IH by lia. rewrite seqZ_succ. simpl. rewrite <- app_assoc. simpl.
    f_equal. lia.
Qed.

Lemma adjust_fold_in_range q p ws acc c :
  c <= p <= c + Z.of_nat (length ws) ->
  (let '(positions, currentPos) := foldl (adjust_step q p) (acc, c) ws in
   if currentPos <=? p then positions ++ [(q, p)] else positions)
  = acc ++ zip (take (Z.to_nat (p - c)) ws ++ q :: drop (Z.to_nat (p - c)) ws)
             (seqZ c (Z.of_nat (S (length ws)))).
Proof.
  revert acc c. induction ws as [|w ws IH]; intros acc c Hc.
  - simpl in *. assert (p = c) as -> by lia.
    rewrite Z.leb_refl. by rewrite Z.sub_diag.
  - cbn [foldl length]. unfold adjust_step at 2.
    destruct (Z.eqb_spec c p) as [->|Hne].
    + rewrite adjust_fold_past by lia.
      destruct (Z.leb_spec (p + 1 + 1 + Z.of_nat (length ws)) p); [lia|].
      rewrite Z.sub_diag. simpl. rewrite !seqZ_succ. simpl.
      rewrite <- !app_assoc. simpl. repeat (f_equal; try lia).
    + rewrite IH by (cbn [length] in Hc; lia).
      replace (Z.to_nat (p - c)) with (S (Z.to_nat (p - (c + 1)))) by lia.
      rewrite (seqZ_succ c). simpl. by rewrite <- app_assoc.
Qed.

(** The loop on three waiting rows: a target inside the queue, at its tail,
    and beyond it (the requested value is written as it is). *)
Example adjustPositions_inside :
  adjustPositions 9%nat 2 [1; 2; 3]%nat = [(1%nat, 1); (9%nat, 2); (2%nat, 3); (3%nat, 4)].
Proof. reflexivity. Qed.

Example adjustPositions_tail :
  adjustPositions 9%nat 4 [1; 2; 3]%nat = [(1%nat, 1); (2%nat, 2); (3%nat, 3); (9%nat, 4)].
Proof. reflexivity. Qed.

Example adjustPositions_beyond :
  adjustPositions 9%nat 6 [1; 2; 3]%nat = [(1%nat, 1); (2%nat, 2); (3%nat, 3); (9%nat, 6)].
Proof. reflexivity. Qed.

Lemma adjustPositions_in_range q p ws :
  1 <= p <= Z.of_nat (length ws) + 1 ->
  adjustPositions q p ws
  = zip (take (Z.to_nat (p - 1)) ws ++ q :: drop (Z.to_nat (p - 1)) ws)
        (seqZ 1 (Z.of_nat (S (length ws)))).
Proof.
  intros Hp. unfold adjustPositions.
  by rewrite (adjust_fold_in_range q p ws [] 1) by lia.
Qed.


Lemma canonicalOrder_perm db d : canonicalOrder db d ≡ₚ waitingRows db d.
Proof. apply orderBy_perm. Qed.

(** ** [performTriage] *)

Ltac unfold_service :=
  unfold rethrow, rethrow_all, db_transaction, bind, select, exec, throw, ret, lift,
    insert_triageSession, insert_departmentQueue, set_queues, set_departments,
    set_sessions in *.

Lemma determineDepartment_err symptoms vitals e :
  determineDepartment symptoms vitals = Err e ->
  e = ReferenceError "patient is not defined" /\ truthy (prop symptoms "pediatric") = true.
Proof.
  unfold determineDepartment.
  repeat (match goal with |- context [if ?b then _ else _] => destruct b eqn:? end;
          try discriminate).
  by intros [= <-].
Qed.

Lemma performTriage_inv calc now triageData db ts qe db' :
  performTriage calc now triageData db = (Ok (ts, qe), db') ->
  exists name dept,
    determineDepartment (td_symptoms triageData) (td_vitals triageData) = Ok name /\
    head (filter (hasName name) (departments db)) = Some dept /\
    qe = Queue.mk (fresh_uuid (Queue.queueId <$> departmentQueues db))
           (Dept.departmentId dept) (td_patientId triageData)
           (Some (Triage.sessionId ts)) (triageUrgency calc triageData)
           (queueCount (Dept.departmentId dept) db + 1)
           (estimateWaitTime calc (triageUrgency calc triageData)
              (queueCount (Dept.departmentId dept) db) (Dept.averageTreatmentTime dept))
           WAITING None None None None now now /\
    departmentQueues db' = departmentQueues db ++ [qe] /\
    departments db'
      = update_where (hasDepartmentId (Dept.departmentId dept)) (add_load 1) (departments db) /\
    triageSessions db' = triageSessions db ++ [ts].
Proof.
  unfold performTriage. unfold_service.
  destruct (determineDepartment _ _) as [name|[]] eqn:Hdept; try done.
  destruct (head (filter (hasName name) (departments db))) as [dept|] eqn:Hhead; [|done].
  intros [= <- <- <-]. exists name, dept. done.
Qed.

Lemma performTriage_err calc now triageData db e db' :
  performTriage calc now triageData db = (Err e, db') -> db' = db.
Proof.
  unfold performTriage. unfold_service.
  destruct (determineDepartment _ _) as [name|[]] eqn:Hdept; try congruence.
  destruct (head (filter (hasName name) (departments db))) as [dept|]; congruence.
Qed.

(** The intake throws two errors and no other. *)
Lemma performTriage_errors calc now triageData db e db' :
  performTriage calc now triageData db = (Err e, db') ->
  e = AppError "Failed to perform triage" 500 \/ e = AppError "Department not found" 404.
Proof.
  unfold performTriage. unfold_service.
  destruct (determineDepartment _ _) as [name|err] eqn:Hdept.
  - destruct (head (filter (hasName name) (departments db))); intros [= <- <-]. by right.
  - apply determineDepartment_err in Hdept as [-> _]. intros [= <- <-]. by left.
Qed.

Lemma decide_primary_key db :
  bool_decide (NoDup (Queue.queueId <$> departmentQueues db)) = true -> primary_key db.
Proof. apply bool_decide_eq_true_1. Qed.

(** C2, as stated, fails: a RED intake into a queue holding one WAITING GREEN
    entry at position 1 is stored at position 2, where the band rule gives 1,
    and the GREEN entry keeps position 1.  (The read still lists the RED entry
    first: it sorts by urgency rank before position.) *)
Lemma enqueue_band_counterexample :
  exists ts qe db',
    performTriage (fixedCalculator RED) 20 (intake 6%nat) green_db = (Ok (ts, qe), db') /\
    Queue.urgencyLevel qe = RED /\
    spec_bandPosition green_db (Queue.departmentId qe) (Queue.urgencyLevel qe) = 1 /\
    Queue.positionInQueue qe = 2 /\
    (fun e => (Queue.urgencyLevel e, Queue.positionInQueue e)) <$> departmentQueues db'
      = [(GREEN, 1); (RED, 2)] /\
    (fun e => (Queue.urgencyLevel e, Queue.positionInQueue e))
      <$> getPatientQueue (Queue.departmentId qe) db'
      = [(RED, 2); (GREEN, 1)].
Proof. eexists _, _, _. split; [vm_compute; reflexivity|]. by vm_compute. Qed.

(** C2, amended. A successful intake stores the new entry as WAITING at
    position (number of WAITING rows of the department) + 1, whatever its
    urgency, and appends it to the table: no existing row is changed. *)
Theorem enqueue_appends_at_tail calc now triageData db ts qe db' :
  performTriage calc now triageData db = (Ok (ts, qe), db') ->
  Queue.status qe = WAITING /\
  Queue.urgencyLevel qe = triageUrgency calc triageData /\
  Queue.positionInQueue qe = queueCount (Queue.departmentId qe) db + 1 /\
  departmentQueues db' = departmentQueues db ++ [qe].
Proof.
  intros (name & dept & _ & _ & -> & Hq & _)%performTriage_inv. done.
Qed.

(** The RED intake into the queue with one GREEN entry is such an intake. *)
Lemma enqueue_appends_at_tail_witness :
  exists ts qe db',
    performTriage (fixedCalculator RED) 20 (intake 6%nat) green_db = (Ok (ts, qe), db') /\
    (Queue.status qe = WAITING /\
     Queue.urgencyLevel qe = triageUrgency (fixedCalculator RED) (intake 6%nat) /\
     Queue.positionInQueue qe = queueCount (Queue.departmentId qe) green_db + 1 /\
     departmentQueues db' = departmentQueues green_db ++ [qe]).
Proof.
  eexists _, _, _. split; [vm_compute; reflexivity|].
  eapply (enqueue_appends_at_tail (fixedCalculator RED) 20 (intake 6%nat) green_db).
  vm_compute; reflexivity.
Defined.

(** C4, as stated, fails: patient 5 has a WAITING entry in the department,
    and a second intake for the same patient succeeds; the patient then has
    two active entries there. *)
Lemma duplicate_enqueue_counterexample :
  length (activeEntries green_db 1%nat 5%nat) = 1%nat /\
  exists ts qe db',
    performTriage (fixedCalculator GREEN) 20 (intake 5%nat) green_db = (Ok (ts, qe), db') /\
    length (activeEntries db' 1%nat 5%nat) = 2%nat.
Proof.
  split; [by vm_compute|].
  eexists _, _, _. split; [vm_compute; reflexivity|]. by vm_compute.
Qed.

(** C4, amended. The intake has no duplicate check and throws no error for
    a duplicate: the only errors it throws are "Department not found" (404)
    and "Failed to perform triage" (500).  An intake that returns has
    appended one WAITING entry for its patient, whatever entries the patient
    already had: no existing row is changed, the active entries of the
    patient in the department are the former ones and the new one, and a
    patient who had an active entry there then has at least two. *)
Theorem duplicate_enqueue_succeeds calc now triageData db :
  (forall ts qe db',
     performTriage calc now triageData db = (Ok (ts, qe), db') ->
     Queue.patientId qe = td_patientId triageData /\
     Queue.status qe = WAITING /\
     departmentQueues db' = departmentQueues db ++ [qe] /\
     activeEntries db' (Queue.departmentId qe) (td_patientId triageData)
       = activeEntries db (Queue.departmentId qe) (td_patientId triageData) ++ [qe] /\
     (activeEntries db (Queue.departmentId qe) (td_patientId triageData) <> [] ->
      (2 <= length (activeEntries db' (Queue.departmentId qe)
                      (td_patientId triageData)))%nat)) /\
  (forall e db',
     performTriage calc now triageData db = (Err e, db') ->
     db' = db /\
     (e = AppError "Failed to perform triage" 500 \/
      e = AppError "Department not found" 404)).
Proof.
  split.
  - intros ts qe db' Hrun.
    apply performTriage_inv in Hrun as (name & dept & Hname & Hdept & Hqe & Hq & _).
    assert (Hp : Queue.patientId qe = td_patientId triageData) by (by subst qe).
    assert (Hs : Queue.status qe = WAITING) by (by subst qe).
    split; [done|]. split; [done|]. split; [done|].
    assert (Hact : activeEntries db' (Queue.departmentId qe) (td_patientId triageData)
                   = activeEntries db (Queue.departmentId qe) (td_patientId triageData)
                     ++ [qe]).
    { unfold activeEntries. rewrite Hq, filter_app. f_equal.
      rewrite filter_cons_True; [done|]. unfold isActive. tauto. }
    split; [done|]. intros Hactive. rewrite Hact, length_app. simpl.
    destruct (activeEntries db _ _); [done|]. simpl. lia.
  - intros e db' Hrun. split; [by eapply performTriage_err|by eapply performTriage_errors].
Qed.

(** Patient 5, who is waiting in Emergency/General, is taken in again. *)
Lemma duplicate_enqueue_succeeds_witness :
  exists ts qe db',
    performTriage (fixedCalculator GREEN) 20 (intake 5%nat) green_db = (Ok (ts, qe), db') /\
    activeEntries green_db (Queue.departmentId qe) 5%nat <> [] /\
    (2 <= length (activeEntries db' (Queue.departmentId qe) 5%nat))%nat.
Proof.
  destruct (performTriage (fixedCalculator GREEN) 20 (intake 5%nat) green_db)
    as [[[ts qe]|err] db'] eqn:Hrun; [|vm_compute in Hrun; discriminate].
  assert (Hd : Queue.departmentId qe = 1%nat).
  { vm_compute in Hrun. by simplify_eq. }
  assert (Hactive : activeEntries green_db (Queue.departmentId qe) (td_patientId (intake 5%nat))
                    <> []).
  { rewrite Hd. vm_compute. discriminate. }
  destruct (proj1 (duplicate_enqueue_succeeds (fixedCalculator GREEN) 20 (intake 5%nat) green_db)
              ts qe db' Hrun) as (_ & _ & _ & _ & Htwo).
  exists ts, qe, db'. split; [done|]. split; [exact Hactive|]. exact (Htwo Hactive).
Defined.

(** C9, as stated, fails: with one RED and one GREEN entry waiting, a YELLOW
    intake hands the estimator the depth 2, the total WAITING count, where the
    count of entries at least as urgent is 1 (and so is the count of entries
    whose rank number is at least that of YELLOW). *)
Lemma estimator_depth_counterexample :
  exists ts qe db',
    performTriage (fixedCalculator YELLOW) 30 (intake 7%nat) green_red_db
      = (Ok (ts, qe), db') /\
    Queue.expectedWaitTime qe = 2 /\
    spec_depthAhead green_red_db (Queue.departmentId qe) (Queue.urgencyLevel qe) = 1 /\
    spec_depthRankAtLeast green_red_db (Queue.departmentId qe) (Queue.urgencyLevel qe) = 1 /\
    queueCount (Queue.departmentId qe) green_red_db = 2.
Proof. eexists _, _, _. split; [vm_compute; reflexivity|]. by vm_compute. Qed.

(** C9, amended. For every calculator, the depth handed to the wait-time
    estimator is the number of all WAITING rows of the target department,
    whatever their urgency: the stored estimate of the new entry and of the
    triage session is [estimateWaitTime urgency (WAITING count) (average treatment time)]. *)
Theorem estimator_gets_total_waiting calc now triageData db ts qe db' :
  performTriage calc now triageData db = (Ok (ts, qe), db') ->
  exists dept,
    head (filter (hasName (Triage.recommendedDept ts)) (departments db)) = Some dept /\
    Queue.departmentId qe = Dept.departmentId dept /\
    Queue.expectedWaitTime qe
      = estimateWaitTime calc (Queue.urgencyLevel qe)
          (Z.of_nat (length (waitingRows db (Dept.departmentId dept))))
          (Dept.averageTreatmentTime dept) /\
    Triage.estimatedWaitMinutes ts = Queue.expectedWaitTime qe.
Proof.
  unfold performTriage. unfold_service.
  destruct (determineDepartment _ _) as [name|[]] eqn:Hdept; try done.
  destruct (head (filter (hasName name) (departments db))) as [dept|] eqn:Hhead; [|done].
  intros [= <- <- <-]. exists dept. done.
Qed.

(** The YELLOW intake into the queue with one RED and one GREEN entry. *)
Lemma estimator_gets_total_waiting_witness :
  exists ts qe db',
    performTriage (fixedCalculator YELLOW) 30 (intake 7%nat) green_red_db
      = (Ok (ts, qe), db') /\
    exists dept,
      head (filter (hasName (Triage.recommendedDept ts)) (departments green_red_db))
        = Some dept /\
      Queue.departmentId qe = Dept.departmentId dept /\
      Queue.expectedWaitTime qe
        = estimateWaitTime (fixedCalculator YELLOW) (Queue.urgencyLevel qe)
            (Z.of_nat (length (waitingRows green_red_db (Dept.departmentId dept))))
            (Dept.averageTreatmentTime dept) /\
      Triage.estimatedWaitMinutes ts = Queue.expectedWaitTime qe.
Proof.
  eexists _, _, _. split; [vm_compute; reflexivity|].
  eapply (estimator_gets_total_waiting (fixedCalculator YELLOW) 30 (intake 7%nat) green_red_db).
  vm_compute; reflexivity.
Defined.

(** ** Lookups by primary key *)

Lemma find_after_update q (f : Queue.t -> Queue.t) rows :
  (forall r, Queue.queueId (f r) = Queue.queueId r) ->
  head (filter (hasQueueId q) (update_where (hasQueueId q) f rows))
  = f <$> head (filter (hasQueueId q) rows).
Proof.
  intros Hf. unfold update_where. rewrite filter_fmap_stable.
  - destruct (filter (hasQueueId q) rows) as [|x l] eqn:E; [done|]. simpl.
    assert (Hx : x ∈ filter (hasQueueId q) rows) by (rewrite E; left).
    apply list_elem_of_filter in Hx as [Hx _]. by rewrite decide_True.
  - intros x. unfold hasQueueId. destruct (decide _); [by rewrite Hf|done].
Qed.

Lemma find_unique rows e :
  NoDup (Queue.queueId <$> rows) -> e ∈ rows ->
  head (filter (hasQueueId (Queue.queueId e)) rows) = Some e.
Proof.
  induction rows as [|x rows IH]; [by inversion 2|].
  rewrite fmap_cons, NoDup_cons. intros [Hx Hnd] Hin.
  rewrite filter_cons. unfold hasQueueId at 1.
  destruct (decide (Queue.queueId x = Queue.queueId e)) as [Heq|Hne].
  - apply elem_of_cons in Hin as [->|Hin]; [done|].
    exfalso. apply Hx. rewrite Heq. by apply list_elem_of_fmap_2.
  - apply elem_of_cons in Hin as [->|Hin]; [done|]. by apply IH.
Qed.

Lemma find_elem q db e : findQueueEntry q db = Some e ->
  e ∈ departmentQueues db /\ Queue.queueId e = q.
Proof.
  unfold findQueueEntry. intros H%head_Some_elem_of.
  apply list_elem_of_filter in H as [? ?]. done.
Qed.

(** In a table with distinct keys, the rows listed for a department that
    have the key of [e] are [e] itself, if it is listed there, and none
    otherwise. *)
Lemma same_key_same_row rows x y :
  NoDup (Queue.queueId <$> rows) -> x ∈ rows -> y ∈ rows ->
  Queue.queueId x = Queue.queueId y -> x = y.
Proof.
  intros Hnd Hx Hy Heq.
  pose proof (find_unique rows x Hnd Hx) as H1.
  pose proof (find_unique rows y Hnd Hy) as H2.
  rewrite Heq in H1. congruence.
Qed.

(** ** [completePatient] *)

Lemma completePatient_run now q db :
  completePatient now q db =
  match findQueueEntry q db with
  | None => (Err (AppError "Queue entry not found" 404), db)
  | Some _ => (Ok tt, set_queues (update_where (hasQueueId q) (set_completed now)) db)
  end.
Proof.
  unfold completePatient. unfold_service. by destruct (findQueueEntry q db).
Qed.

(** C5, as stated, fails: completing an entry that is still WAITING succeeds
    and the entry becomes COMPLETED. *)
Lemma complete_waiting_counterexample :
  Queue.status <$> findQueueEntry 1%nat green_db = Some WAITING /\
  exists db',
    completePatient 30 1%nat green_db = (Ok tt, db') /\
    Queue.status <$> findQueueEntry 1%nat db' = Some COMPLETED.
Proof.
  split; [by vm_compute|]. eexists. split; [vm_compute; reflexivity|]. by vm_compute.
Qed.

(** C5, amended. [completePatient] has no status guard.  For an entry that
    exists, whatever its status, it succeeds: every row with that key gets
    status COMPLETED and completedAt stamped, the other rows and the
    departments are unchanged.  It fails only when no row has the key, with
    "Queue entry not found" (404), and then the store is unchanged. *)
Theorem complete_has_no_status_guard now q db :
  (forall e, findQueueEntry q db = Some e ->
     exists db' e',
       completePatient now q db = (Ok tt, db') /\
       departmentQueues db'
         = update_where (hasQueueId q) (set_completed now) (departmentQueues db) /\
       departments db' = departments db /\
       findQueueEntry q db' = Some e' /\
       e' = set_completed now e /\
       Queue.status e' = COMPLETED /\
       Queue.completedAt e' = Some now) /\
  (findQueueEntry q db = None ->
     completePatient now q db = (Err (AppError "Queue entry not found" 404), db)).
Proof.
  rewrite completePatient_run. split.
  - intros e He. rewrite He. eexists _, (set_completed now e).
    split; [done|]. split; [done|]. split; [done|].
    split; [|done]. unfold findQueueEntry in *. simpl.
    rewrite find_after_update by done. by rewrite He.
  - by intros ->.
Qed.

(** Entry 1 of the sample queue exists and entry 7 does not. *)
Lemma complete_has_no_status_guard_witness :
  findQueueEntry 1%nat green_db <> None /\
  findQueueEntry 7%nat green_db = None /\
  (exists db', completePatient 30 1%nat green_db = (Ok tt, db')) /\
  completePatient 30 7%nat green_db = (Err (AppError "Queue entry not found" 404), green_db).
Proof.
  assert (H7 : findQueueEntry 7%nat green_db = None) by (vm_compute; reflexivity).
  split; [vm_compute; discriminate|]. split; [exact H7|]. split.
  - destruct (findQueueEntry 1%nat green_db) as [e|] eqn:He; [|by vm_compute in He].
    destruct (proj1 (complete_has_no_status_guard 30 1%nat green_db) e He)
      as (db' & _ & Hrun & _).
    by exists db'.
  - exact (proj2 (complete_has_no_status_guard 30 7%nat green_db) H7).
Defined.

(** ** [callNextPatient] *)

Lemma callNext_run now d doc db :
  callNextPatient now d doc db =
  match head (orderBy (by_key queueKey) (waitingRows db d)) with
  | None => (Err (AppError "No patients in queue" 404), db)
  | Some nextPatient =>
    let rows :=
      update_where (hasQueueId (Queue.queueId nextPatient)) (set_called doc now)
        (departmentQueues db) in
    (Ok (head (filter (hasQueueId (Queue.queueId nextPatient)) rows)),
     mkDb (update_where (hasDepartmentId d) (add_load (-1)) (departments db))
       rows (triageSessions db))
  end.
Proof.
  unfold callNextPatient. unfold_service.
  by destruct (head (orderBy (by_key queueKey) (waitingRows db d))).
Qed.



Lemma positions_after_call now doc q rows :
  Queue.positionInQueue <$> update_where (hasQueueId q) (set_called doc now) rows
  = Queue.positionInQueue <$> rows.
Proof.
  unfold update_where. rewrite <- list_fmap_compose. apply list_fmap_ext.
  intros _ x _. simpl. by destruct (decide _).
Qed.


(** A call that returns has taken the row its query put first. *)
Lemma callNext_returns now d doc db res db' :
  primary_key db -> callNextPatient now d doc db = (Ok res, db') ->
  exists next,
    head (orderBy (by_key queueKey) (waitingRows db d)) = Some next /\
    next ∈ waitingRows db d /\
    (forall e, e ∈ waitingRows db d -> by_key queueKey next e = true) /\
    res = Some (set_called doc now next) /\
    db' = mkDb (update_where (hasDepartmentId d) (add_load (-1)) (departments db))
            (update_where (hasQueueId (Queue.queueId next)) (set_called doc now)
               (departmentQueues db))
            (triageSessions db).
Proof.
  intros Hpk. rewrite callNext_run.
  destruct (head (orderBy (by_key queueKey) (waitingRows db d))) as [next|] eqn:Hhead;
    [|discriminate].
  apply orderBy_head_min in Hhead as Hmin; [|apply by_key_total|apply by_key_trans].
  destruct Hmin as [Hin Hmin].
  assert (Hrow : next ∈ departmentQueues db).
  { unfold waitingRows in Hin. by apply list_elem_of_filter in Hin as [_ ?]. }
  simpl. rewrite find_after_update by done. rewrite find_unique by done. simpl.
  intros [= <- <-]. by exists next.
Qed.



(** ** Department routing *)

Lemma determineDepartment_without_pediatric symptoms vitals :
  truthy (prop symptoms "pediatric") = false ->
  exists name, determineDepartment symptoms vitals = Ok name.
Proof.
  intros Hp. unfold determineDepartment. rewrite Hp.
  repeat (match goal with |- context [if ?b then _ else _] => destruct b end; eauto).
Qed.

(** C8. The routing is not total on validated input: for a request whose
    only flag is [pediatric], with vitals the schema accepts, the routing
    reaches [patient.age] and throws a ReferenceError, and the intake fails
    with "Failed to perform triage" (500) and writes nothing. *)
Theorem routing_pediatric_throws (calc : TriageCalculator) (now : timestamp) (db : Db) :
  triageSchema_vitals pediatric_input_vitals = true /\
  determineDepartment pediatric_input_symptoms pediatric_input_vitals
    = Err (ReferenceError "patient is not defined") /\
  performTriage calc now pediatric_intake db
    = (Err (AppError "Failed to perform triage" 500), db).
Proof.
  assert (H : determineDepartment pediatric_input_symptoms pediatric_input_vitals
              = Err (ReferenceError "patient is not defined")) by (vm_compute; reflexivity).
  split; [vm_compute; reflexivity|]. split; [exact H|].
  unfold performTriage. unfold_service. simpl. by rewrite H.
Qed.

(** ** The load counter along a history *)

Lemma fresh_uuid_bound (keys : list uuid) x :
  x ∈ keys -> (x < fresh_uuid keys)%nat.
Proof.
  unfold fresh_uuid. induction keys as [|k keys IH]; [by inversion 1|].
  intros [->|Hx]%elem_of_cons; simpl; [lia|]. specialize (IH Hx). lia.
Qed.

Lemma fresh_uuid_fresh (keys : list uuid) : fresh_uuid keys ∉ keys.
Proof. intros H%fresh_uuid_bound. lia. Qed.

Lemma update_where_id (f : Queue.t -> Queue.t) q rows :
  q ∉ Queue.queueId <$> rows -> update_where (hasQueueId q) f rows = rows.
Proof.
  intros Hq. unfold update_where. rewrite <- (list_fmap_id rows) at 2.
  apply Forall_fmap_ext, Forall_forall. intros x Hx.
  rewrite decide_False; [done|]. unfold hasQueueId. intros <-.
  apply Hq. by apply list_elem_of_fmap_2.
Qed.

(** An update by primary key rewrites one row. *)
Lemma update_unique (f : Queue.t -> Queue.t) rows e :
  NoDup (Queue.queueId <$> rows) -> e ∈ rows ->
  exists l1 l2,
    rows = l1 ++ e :: l2 /\
    update_where (hasQueueId (Queue.queueId e)) f rows = l1 ++ f e :: l2.
Proof.
  intros Hnd (l1 & l2 & ->)%list_elem_of_split. exists l1, l2. split; [done|].
  rewrite fmap_app, fmap_cons in Hnd.
  apply NoDup_app in Hnd as (_ & Hl1 & [Hl2 _]%NoDup_cons).
  unfold update_where. rewrite fmap_app, fmap_cons.
  fold (update_where (hasQueueId (Queue.queueId e)) f l1).
  fold (update_where (hasQueueId (Queue.queueId e)) f l2).
  rewrite !update_where_id, decide_True; try done.
  intros Hin. apply (Hl1 _ Hin). left.
Qed.

Lemma update_where_queueIds (f : Queue.t -> Queue.t) (P : Queue.t -> Prop)
    `{!forall x, Decision (P x)} rows :
  (forall r, Queue.queueId (f r) = Queue.queueId r) ->
  Queue.queueId <$> update_where P f rows = Queue.queueId <$> rows.
Proof.
  intros Hf. unfold update_where. rewrite <- list_fmap_compose.
  apply list_fmap_ext. intros _ x _. simpl. by destruct (decide _).
Qed.

Lemma invariant_initial db : initial db -> load_invariant db.
Proof.
  intros [Hq Hl]. split; unfold primary_key, uncalledCount; rewrite ?Hq; try constructor.
  simpl. eapply Forall_impl; [exact Hl|]. done.
Qed.

Lemma uncalledCount_snoc db db' d e :
  departmentQueues db' = departmentQueues db ++ [e] ->
  uncalledCount db' d = uncalledCount db d + (if decide (uncalledIn d e) then 1 else 0).
Proof.
  intros Hq. unfold uncalledCount. rewrite Hq, filter_app, length_app.
  rewrite filter_cons, filter_nil. destruct (decide _); simpl; lia.
Qed.

Lemma invariant_intake calc now triageData db r db' :
  load_invariant db -> performTriage calc now triageData db = (r, db') ->
  load_invariant db'.
Proof.
  intros [Hpk Hw Hp Hl] Hrun. destruct r as [[ts qe]|e].
  2: { apply performTriage_err in Hrun as ->. by split. }
  apply performTriage_inv in Hrun as (name & dept & _ & _ & Hqe & Hq & Hd & _).
  split.
  - unfold primary_key in *. rewrite Hq, fmap_app. apply NoDup_app. split; [done|].
    split; [|apply NoDup_singleton].
    intros x Hx [->|H]%elem_of_cons; [|by inversion H].
    subst qe. simpl in Hx. by apply fresh_uuid_fresh in Hx.
  - rewrite Hq. apply Forall_app. split; [done|]. constructor; [|done]. by subst qe.
  - rewrite Hq. apply Forall_app. split; [done|]. constructor; [|done]. by subst qe.
  - rewrite Hd. unfold update_where. apply Forall_fmap, Forall_forall.
    intros x Hx. rewrite Forall_forall in Hl. specialize (Hl x Hx). simpl.
    rewrite (uncalledCount_snoc db db' _ qe Hq).
    destruct (decide (hasDepartmentId (Dept.departmentId dept) x)) as [Hx'|Hx'];
      unfold hasDepartmentId in Hx'; simpl.
    + rewrite Hl, decide_True; [done|]. subst qe. by split.
    + rewrite Hl, decide_False; [lia|]. subst qe. intros [? _]. simpl in *. congruence.
Qed.

Lemma invariant_callNext now d doc db r db' :
  load_invariant db -> callNextPatient now d doc db = (r, db') -> load_invariant db'.
Proof.
  intros [Hpk Hw Hp Hl]. rewrite callNext_run.
  destruct (head (orderBy (by_key queueKey) (waitingRows db d))) as [next|] eqn:Hhead.
  2: { intros [= <- <-]. by split. }
  apply head_Some_elem_of in Hhead.
  apply orderBy_elem in Hhead. apply list_elem_of_filter in Hhead as [[Hd Hst] Hin].
  destruct (update_unique (set_called doc now) _ _ Hpk Hin) as (l1 & l2 & Hrows & Hupd).
  simpl. rewrite Hupd. intros [= <- <-].
  rewrite Hrows in Hw, Hp.
  apply Forall_app in Hw as [Hw1 [Hwn Hw2]%Forall_cons].
  apply Forall_app in Hp as [Hp1 [_ Hp2]%Forall_cons].
  split; simpl.
  - unfold primary_key in *. simpl. by rewrite Hrows, !fmap_app, !fmap_cons in *.
  - apply Forall_app. split; [done|]. by constructor.
  - apply Forall_app. split; [done|]. by constructor.
  - unfold update_where. apply Forall_fmap, Forall_forall.
    intros x Hx. rewrite Forall_forall in Hl. specialize (Hl x Hx). simpl.
    unfold uncalledCount in *. simpl. rewrite Hrows in Hl.
    rewrite filter_app, filter_cons, length_app in Hl.
    rewrite filter_app, length_app.
    rewrite filter_cons_False by (intros [_ ?]; done).
    destruct (decide (hasDepartmentId d x)) as [Hx'|Hx']; unfold hasDepartmentId in Hx'; simpl.
    + rewrite decide_True in Hl by (split; [congruence|auto]). simpl in Hl. lia.
    + rewrite decide_False in Hl by (intros [? _]; congruence). lia.
Qed.

Lemma invariant_complete now q db r db' :
  load_invariant db -> completePatient now q db = (r, db') -> load_invariant db'.
Proof.
  intros [Hpk Hw Hp Hl]. rewrite completePatient_run.
  destruct (findQueueEntry q db); [|intros [= <- <-]; by split].
  intros [= <- <-]. split; simpl.
  - unfold primary_key. simpl. by rewrite update_where_queueIds.
  - unfold update_where. apply Forall_fmap. eapply Forall_impl; [exact Hw|].
    intros x Hx. simpl. by destruct (decide _).
  - unfold update_where. apply Forall_fmap. eapply Forall_impl; [exact Hp|].
    intros x Hx. simpl. by destruct (decide _).
  - eapply Forall_impl; [exact Hl|]. intros x ->. unfold uncalledCount. simpl.
    unfold update_where. rewrite filter_fmap_stable, length_fmap; [done|].
    intros e. unfold uncalledIn. by destruct (decide _).
Qed.







(** ** Density of the WAITING positions *)

Lemma filter_otherWaiting d q (rows : list Queue.t) :
  q ∉ Queue.queueId <$> rows ->
  filter (otherWaiting d q) rows = filter (waitingIn d) rows.
Proof.
  induction rows as [|x rows IH]; [done|].
  rewrite fmap_cons. intros [Hx Hq]%not_elem_of_cons.
  rewrite !filter_cons, IH by done.
  destruct (decide (otherWaiting d q x)) as [Ho|Ho], (decide (waitingIn d x)) as [Hw|Hw];
    try done; exfalso; unfold otherWaiting, waitingIn in *.
  - apply Hw. tauto.
  - apply Ho. destruct Hw. repeat split; [done..|]. intros Heq. by apply Hx.
Qed.

Lemma waiting_split db q e d :
  primary_key db -> findQueueEntry q db = Some e -> waitingIn d e ->
  waitingRows db d ≡ₚ e :: filter (otherWaiting d q) (departmentQueues db).
Proof.
  intros Hpk [Hin <-]%find_elem Hw. unfold waitingRows, primary_key in *.
  apply list_elem_of_split in Hin as (l1 & l2 & Hrows). rewrite Hrows in *.
  rewrite fmap_app, fmap_cons in Hpk.
  apply NoDup_app in Hpk as (_ & Hl1 & [Hl2 _]%NoDup_cons).
  rewrite !filter_app, !filter_cons, decide_True by done.
  rewrite decide_False by (intros (_ & _ & ?); done).
  rewrite !filter_otherWaiting; [by rewrite Permutation_middle|done|].
  intros Hq. apply (Hl1 _ Hq). left.
Qed.

Lemma updatePatientPosition_run now q p db :
  updatePatientPosition now q p db =
  match findQueueEntry q db with
  | None => (Err (AppError "Queue entry not found" 404), db)
  | Some e =>
    (Ok tt,
     set_queues
       (write_positions now
          (adjustPositions q p
             (Queue.queueId <$>
                orderBy by_position
                  (filter (otherWaiting (Queue.departmentId e) q) (departmentQueues db)))))
       db)
  end.
Proof.
  unfold updatePatientPosition. unfold_service. by destruct (findQueueEntry q db).
Qed.

Lemma reposition_dense now q p db e :
  primary_key db -> findQueueEntry q db = Some e -> Queue.status e = WAITING ->
  1 <= p <= Z.of_nat (length (waitingRows db (Queue.departmentId e))) ->
  exists db',
    updatePatientPosition now q p db = (Ok tt, db') /\ dense db' (Queue.departmentId e).
Proof.
  intros Hpk Hfind Hst Hp. rewrite updatePatientPosition_run, Hfind.
  eexists. split; [reflexivity|].
  set (d := Queue.departmentId e) in *.
  set (others := orderBy by_position (filter (otherWaiting d q) (departmentQueues db))).
  assert (Hsplit : waitingRows db d ≡ₚ e :: others).
  { rewrite (waiting_split db q e d Hpk Hfind) by done.
    unfold others. by rewrite orderBy_perm. }
  assert (Hlen : length (waitingRows db d) = S (length others)).
  { by rewrite (Permutation_length Hsplit). }
  rewrite adjustPositions_in_range by (rewrite length_fmap; lia).
  set (k := Z.to_nat (p - 1)).
  apply (dense_intro _ d (S (length others))).
  assert (Hids : take k (Queue.queueId <$> others) ++ q :: drop k (Queue.queueId <$> others)
                 = Queue.queueId <$> (take k others ++ e :: drop k others)).
  { rewrite fmap_app, fmap_cons, fmap_take, fmap_drop.
    apply find_elem in Hfind as [_ ->]. done. }
  rewrite Hids, length_fmap.
  apply write_positions_waiting; [done| |].
  - rewrite Hsplit. by rewrite <- Permutation_middle, take_drop.
  - rewrite length_seqZ, length_app, length_take. simpl. rewrite length_drop.
    unfold k. rewrite Hlen in Hp. lia.
Qed.

Lemma enqueue_dense calc now triageData db ts qe db' d :
  performTriage calc now triageData db = (Ok (ts, qe), db') ->
  dense db d -> dense db' d.
Proof.
  intros (name & dept & _ & _ & Hqe & Hq & _)%performTriage_inv Hdense.
  unfold dense, waitingPositions, waitingRows in *. rewrite Hq, filter_app.
  rewrite filter_cons, filter_nil.
  destruct (decide (waitingIn d qe)) as [[Hd _]|Hw]; [|by rewrite app_nil_r].
  rewrite fmap_app, length_app. simpl.
  replace (length (filter (waitingIn d) (departmentQueues db)) + 1)%nat
    with (S (length (filter (waitingIn d) (departmentQueues db)))) by lia.
  rewrite seqZ_S, Hdense. f_equiv.
  subst qe. simpl in *. subst d. unfold queueCount, waitingRows.
  by rewrite Z.add_comm.
Qed.

Lemma prioritize_dense now d db :
  primary_key db ->
  exists db', prioritizeCriticalPatients now d db = (Ok tt, db') /\ dense db' d.
Proof.
  intros Hpk. rewrite prioritize_run. eexists. split; [reflexivity|].
  apply (dense_intro _ d (length (waitingRows db d))).
  apply write_positions_waiting; [done|apply canonicalOrder_perm|].
  rewrite length_seqZ, (Permutation_length (canonicalOrder_perm db d)). lia.
Qed.

Lemma skipPatient_run now q reason db :
  skipPatient now q reason db =
  match findQueueEntry q db with
  | None => (Err (AppError "Queue entry not found" 404), db)
  | Some _ => (Ok tt, set_queues (update_where (hasQueueId q) (set_skipped now)) db)
  end.
Proof.
  unfold skipPatient. unfold_service. by destruct (findQueueEntry q db).
Qed.

Lemma skip_keeps_positions now q reason db r db' :
  skipPatient now q reason db = (r, db') ->
  Queue.positionInQueue <$> departmentQueues db'
  = Queue.positionInQueue <$> departmentQueues db.
Proof.
  rewrite skipPatient_run. destruct (findQueueEntry q db); intros [= <- <-]; [|done].
  simpl. unfold update_where. rewrite <- list_fmap_compose. apply list_fmap_ext.
  intros _ x _. simpl. by destruct (decide _).
Qed.

Lemma callNext_keeps_positions now d doc db r db' :
  callNextPatient now d doc db = (r, db') ->
  Queue.positionInQueue <$> departmentQueues db'
  = Queue.positionInQueue <$> departmentQueues db.
Proof.
  rewrite callNext_run.
  destruct (head (orderBy (by_key queueKey) (waitingRows db d))); intros [= <- <-]; [|done].
  apply positions_after_call.
Qed.

(** C1, as stated, fails: skipping the entry at position 1 of two WAITING
    entries leaves the other one at position 2, so the WAITING positions are
    [2] and not 1..1; an intake that follows is stored at position 2 as well,
    a duplicate. *)
Lemma dense_skip_counterexample :
  dense two_green_db 1%nat /\
  exists db1 ts qe db2,
    skipPatient 30 1%nat "no show" two_green_db = (Ok tt, db1) /\
    waitingPositions db1 1%nat = [2] /\
    ~ dense db1 1%nat /\
    performTriage (fixedCalculator GREEN) 40 (intake 7%nat) db1 = (Ok (ts, qe), db2) /\
    waitingPositions db2 1%nat = [2; 2].
Proof.
  split.
  - unfold dense. by vm_compute.
  - eexists _, _, _, _. split; [vm_compute; reflexivity|].
    split; [by vm_compute|]. split.
    + unfold dense. vm_compute. intros H%Permutation_singleton_l. discriminate.
    + split; [vm_compute; reflexivity|]. by vm_compute.
Qed.

(** C1, amended. An intake keeps the WAITING positions of every department
    dense when they were dense before; [prioritizeCriticalPatients] makes
    those of its department dense from any store, and so does
    [updatePatientPosition] for a WAITING entry moved to a position in 1..N of
    its department.  [callNextPatient] and [skipPatient] do not renumber:
    they leave the stored position of every row as it was. *)
Theorem dense_positions_by_operation :
  (forall calc now triageData db ts qe db' d,
     performTriage calc now triageData db = (Ok (ts, qe), db') ->
     dense db d -> dense db' d) /\
  (forall now d db,
     primary_key db ->
     exists db', prioritizeCriticalPatients now d db = (Ok tt, db') /\ dense db' d) /\
  (forall now q p db e,
     primary_key db -> findQueueEntry q db = Some e -> Queue.status e = WAITING ->
     1 <= p <= Z.of_nat (length (waitingRows db (Queue.departmentId e))) ->
     exists db',
       updatePatientPosition now q p db = (Ok tt, db') /\
       dense db' (Queue.departmentId e)) /\
  (forall now d doc db r db',
     callNextPatient now d doc db = (r, db') ->
     Queue.positionInQueue <$> departmentQueues db'
     = Queue.positionInQueue <$> departmentQueues db) /\
  (forall now q reason db r db',
     skipPatient now q reason db = (r, db') ->
     Queue.positionInQueue <$> departmentQueues db'
     = Queue.positionInQueue <$> departmentQueues db).
Proof.
  split; [exact enqueue_dense|].
  split; [exact prioritize_dense|].
  split; [exact reposition_dense|].
  split; [exact callNext_keeps_positions|exact skip_keeps_positions].
Qed.

(** Entry 2 of two WAITING entries is moved to position 1, and the queue is
    re-prioritised. *)
Lemma dense_positions_by_operation_witness :
  primary_key two_green_db /\
  (exists e, findQueueEntry 2%nat two_green_db = Some e /\ Queue.status e = WAITING /\
             Queue.departmentId e = 1%nat /\
             1 <= 1 <= Z.of_nat (length (waitingRows two_green_db (Queue.departmentId e)))) /\
  (exists db', prioritizeCriticalPatients 40 1%nat two_green_db = (Ok tt, db') /\
               dense db' 1%nat) /\
  (exists db', updatePatientPosition 40 2%nat 1 two_green_db = (Ok tt, db') /\
               dense db' 1%nat).
Proof.
  destruct dense_positions_by_operation as (_ & Hprio & Hrepos & _).
  assert (Hpk : primary_key two_green_db)
    by (apply decide_primary_key; vm_compute; reflexivity).
  destruct (findQueueEntry 2%nat two_green_db) as [e|] eqn:He; [|by vm_compute in He].
  assert (Hst : Queue.status e = WAITING) by (vm_compute in He; by simplify_eq).
  assert (Hd : Queue.departmentId e = 1%nat) by (vm_compute in He; by simplify_eq).
  assert (Hp : 1 <= 1 <= Z.of_nat (length (waitingRows two_green_db (Queue.departmentId e))))
    by (rewrite Hd; vm_compute; split; discriminate).
  split; [exact Hpk|]. split; [by exists e|].
  split; [exact (Hprio 40 1%nat two_green_db Hpk)|].
  destruct (Hrepos 40 2%nat 1 two_green_db e Hpk He Hst Hp) as (db' & Hrun & Hdense).
  rewrite Hd in Hdense. by exists db'.
Defined.

(** ** Order of the reads *)

Lemma key_le_queueOrder a b : key_le a b = true <-> queueOrder a b.
Proof. unfold key_le, queueOrder. destruct a, b; simpl. lia. Qed.

Lemma urgencyRank_inj u v : urgencyRank u = urgencyRank v -> u = v.
Proof. by destruct u, v. Qed.

Lemma StronglySorted_lookup {A} (R : A -> A -> Prop) (l : list A) i j x y :
  StronglySorted R l -> (i < j)%nat -> l !! i = Some x -> l !! j = Some y -> R x y.
Proof.
  intros Hs. revert i j. induction Hs as [|z l Hs IH Hall]; intros i j Hij Hi Hj.
  - by rewrite lookup_nil in Hi.
  - destruct j as [|j]; [lia|]. destruct i as [|i]; simpl in *.
    + simplify_eq. rewrite Forall_forall in Hall. apply Hall.
      by eapply list_elem_of_lookup_2.
    + apply (IH i j); [lia|done..].
Qed.

Lemma StronglySorted_weaken {A} (R1 R2 : A -> A -> Prop) (l : list A) :
  (forall x y, R1 x y -> R2 x y) -> StronglySorted R1 l -> StronglySorted R2 l.
Proof.
  intros HR. induction 1 as [|x l Hs IH Hall]; constructor; [done|].
  eapply Forall_impl; [exact Hall|]. intros y. apply HR.
Qed.

Lemma read_sorted (P : Queue.t -> Prop) `{!forall x, Decision (P x)} rows :
  StronglySorted (fun a b => queueOrder (queueKey a) (queueKey b))
    (orderBy (by_key queueKey) (filter P rows)).
Proof.
  eapply StronglySorted_weaken; [|apply orderBy_sorted].
  - intros a b Hab. by apply key_le_queueOrder.
  - apply by_key_total.
  - apply by_key_trans.
Qed.

Lemma sorted_rank_monotone (l : list Queue.t) i j a b :
  StronglySorted (fun a b => queueOrder (queueKey a) (queueKey b)) l ->
  (i < j)%nat -> l !! i = Some a -> l !! j = Some b ->
  urgencyRank (Queue.urgencyLevel a) <= urgencyRank (Queue.urgencyLevel b).
Proof.
  intros Hs Hij Hi Hj.
  pose proof (StronglySorted_lookup _ _ _ _ _ _ Hs Hij Hi Hj) as H.
  unfold queueOrder, queueKey in H. simpl in H. lia.
Qed.

(** In a listing sorted by rank first, with distinct keys, two entries of
    different urgency stand in the order of their ranks. *)
Lemma precedes_rank (l : list Queue.t) x y :
  NoDup (Queue.queueId <$> l) ->
  StronglySorted (fun a b => queueOrder (queueKey a) (queueKey b)) l ->
  x ∈ l -> y ∈ l -> Queue.urgencyLevel x <> Queue.urgencyLevel y ->
  precedes l (Queue.queueId x) (Queue.queueId y)
  <-> urgencyRank (Queue.urgencyLevel x) < urgencyRank (Queue.urgencyLevel y).
Proof.
  intros Hnd Hs [ix Hx]%list_elem_of_lookup [iy Hy]%list_elem_of_lookup Hne.
  assert (Hrank : urgencyRank (Queue.urgencyLevel x) <> urgencyRank (Queue.urgencyLevel y))
    by (intros H%urgencyRank_inj; done).
  assert (Hix : (Queue.queueId <$> l) !! ix = Some (Queue.queueId x))
    by (by rewrite list_lookup_fmap, Hx).
  assert (Hiy : (Queue.queueId <$> l) !! iy = Some (Queue.queueId y))
    by (by rewrite list_lookup_fmap, Hy).
  split.
  - intros (i & j & Hij & Hi & Hj).
    assert (i = ix) as -> by (by eapply NoDup_lookup).
    assert (j = iy) as -> by (by eapply NoDup_lookup).
    pose proof (sorted_rank_monotone l ix iy x y Hs Hij Hx Hy). lia.
  - intros Hlt. destruct (lt_eq_lt_dec ix iy) as [[Hlt'|Heq]|Hgt].
    + by exists ix, iy.
    + subst iy. by simplify_eq.
    + pose proof (sorted_rank_monotone l iy ix y x Hs Hgt Hy Hx). lia.
Qed.

(** Rewriting positions does not change how a read orders two entries of
    different urgency. *)
Lemma relocate_keeps_band_order (P : Queue.t -> Prop) `{!forall x, Decision (P x)}
    now ps rows a b :
  (forall r, P (relocate now ps r) <-> P r) ->
  NoDup (Queue.queueId <$> rows) ->
  a ∈ filter P rows -> b ∈ filter P rows ->
  Queue.urgencyLevel a <> Queue.urgencyLevel b ->
  precedes (orderBy (by_key queueKey) (filter P rows)) (Queue.queueId a) (Queue.queueId b)
  <-> precedes (orderBy (by_key queueKey) (filter P (relocate now ps <$> rows)))
        (Queue.queueId a) (Queue.queueId b).
Proof.
  intros HP Hnd Ha Hb Hne.
  rewrite precedes_rank; try done.
  2: { eapply NoDup_queueId_filter; [exact Hnd|]. apply orderBy_perm. }
  2: { apply read_sorted. }
  2, 3: by apply orderBy_elem.
  rewrite <- (relocate_queueId now ps a), <- (relocate_queueId now ps b).
  rewrite precedes_rank.
  - by rewrite !relocate_urgencyLevel.
  - eapply (NoDup_queueId_filter P (relocate now ps <$> rows)); [|apply orderBy_perm].
    rewrite <- list_fmap_compose.
    erewrite list_fmap_ext; [exact Hnd|]. intros _ x _. apply relocate_queueId.
  - apply read_sorted.
  - apply orderBy_elem. rewrite filter_fmap_stable by done. by apply list_elem_of_fmap_2.
  - apply orderBy_elem. rewrite filter_fmap_stable by done. by apply list_elem_of_fmap_2.
  - by rewrite !relocate_urgencyLevel.
Qed.

Lemma reposition_rows now q p db db' :
  updatePatientPosition now q p db = (Ok tt, db') ->
  exists ps, departmentQueues db' = relocate now ps <$> departmentQueues db.
Proof.
  rewrite updatePatientPosition_run. destruct (findQueueEntry q db); [|done].
  intros [= <-]. eexists. simpl. apply write_positions_spec.
Qed.

Lemma status_rows_sorted (l : list Queue.t) :
  StronglySorted (fun a b => queueOrder (queueKey a) (queueKey b)) l ->
  StronglySorted (fun a b => queueOrder (rowKey a) (rowKey b)) (status_row <$> l).
Proof. apply StronglySorted_fmap. by intros x y. Qed.

(** C10. Both queue reads list their rows sorted by urgency rank (RED,
    YELLOW, GREEN) first and stored position second; [getQueueStatus] does so
    on a cache miss, and on a hit it returns the cached listing, which is
    sorted whenever the cache holds a listing this method stored.  Hence in a
    read an entry never comes before one of a more urgent class, and a manual
    reposition, whatever positions it writes, leaves the order in which the
    reads list two entries of different urgency as it was. *)
Theorem reads_sorted_by_rank_then_position :
  (forall d db,
     StronglySorted (fun a b => queueOrder (queueKey a) (queueKey b))
       (getPatientQueue d db)) /\
  (forall cached d db,
     (forall r, cached = Some r ->
        StronglySorted (fun a b => queueOrder (rowKey a) (rowKey b)) (qs_patients r)) ->
     StronglySorted (fun a b => queueOrder (rowKey a) (rowKey b))
       (qs_patients (getQueueStatus cached d db).1) /\
     (forall r, (getQueueStatus cached d db).2 = Some r ->
        StronglySorted (fun a b => queueOrder (rowKey a) (rowKey b)) (qs_patients r))) /\
  (forall d db i j a b,
     (i < j)%nat ->
     (getPatientQueue d db !! i = Some a /\ getPatientQueue d db !! j = Some b) \/
     (queueStatusQuery d db !! i = Some a /\ queueStatusQuery d db !! j = Some b) ->
     urgencyRank (Queue.urgencyLevel a) <= urgencyRank (Queue.urgencyLevel b)) /\
  (forall now q p db db' d a b,
     primary_key db ->
     updatePatientPosition now q p db = (Ok tt, db') ->
     Queue.urgencyLevel a <> Queue.urgencyLevel b ->
     (a ∈ getPatientQueue d db -> b ∈ getPatientQueue d db ->
      precedes (getPatientQueue d db) (Queue.queueId a) (Queue.queueId b)
      <-> precedes (getPatientQueue d db') (Queue.queueId a) (Queue.queueId b)) /\
     (a ∈ queueStatusQuery d db -> b ∈ queueStatusQuery d db ->
      precedes (queueStatusQuery d db) (Queue.queueId a) (Queue.queueId b)
      <-> precedes (queueStatusQuery d db') (Queue.queueId a) (Queue.queueId b))).
Proof.
  split; [intros d db; apply read_sorted|].
  split.
  { intros cached d db Hcache. destruct cached as [r|]; simpl.
    - split; [by apply Hcache|]. intros r' [= <-]. by apply Hcache.
    - assert (Hs : StronglySorted (fun a b => queueOrder (rowKey a) (rowKey b))
                     (status_row <$> queueStatusQuery d db))
        by apply status_rows_sorted, read_sorted.
      split; [done|]. by intros r' [= <-]. }
  split.
  { intros d db i j a b Hij [[Hi Hj]|[Hi Hj]];
      eapply sorted_rank_monotone; try done; apply read_sorted. }
  intros now q p db db' d a b Hpk [ps Hrows]%reposition_rows Hne.
  unfold getPatientQueue, queueStatusQuery, waitingRows. rewrite Hrows.
  split; intros Ha%orderBy_elem Hb%orderBy_elem.
  - apply relocate_keeps_band_order; try done. intros r. apply relocate_waitingIn.
  - apply relocate_keeps_band_order; try done.
    intros r. unfold inDepartment. by rewrite relocate_departmentId.
Qed.

(** The RED entry, stored at position 2 behind the GREEN one, is moved to
    position 1; the read lists the RED entry first before and after. *)
Lemma reads_sorted_by_rank_then_position_witness :
  primary_key green_red_db /\
  exists db' red green,
    updatePatientPosition 40 2%nat 1 green_red_db = (Ok tt, db') /\
    getPatientQueue 1%nat green_red_db = [red; green] /\
    Queue.urgencyLevel red = RED /\ Queue.urgencyLevel green = GREEN /\
    (fun e => (Queue.urgencyLevel e, Queue.positionInQueue e)) <$> departmentQueues db'
      = [(GREEN, 2); (RED, 1)] /\
    (precedes (getPatientQueue 1%nat green_red_db) (Queue.queueId red) (Queue.queueId green)
     <-> precedes (getPatientQueue 1%nat db') (Queue.queueId red) (Queue.queueId green)).
Proof.
  assert (Hpk : primary_key green_red_db)
    by (apply decide_primary_key; vm_compute; reflexivity).
  split; [exact Hpk|].
  eexists _, _, _.
  split; [vm_compute; reflexivity|]. split; [vm_compute; reflexivity|].
  split; [reflexivity|]. split; [reflexivity|]. split; [vm_compute; reflexivity|].
  destruct reads_sorted_by_rank_then_position as (_ & _ & _ & Hrepos).
  eapply (Hrepos 40 2%nat 1 green_red_db _ 1%nat); [exact Hpk| |done| |].
  - vm_compute; reflexivity.
  - vm_compute. left.
  - vm_compute. right. left.
Defined.

(** ** The canonical order after [prioritizeCriticalPatients] *)

Lemma key_le_antisym a b : key_le a b = true -> key_le b a = true -> a = b.
Proof. unfold key_le. destruct a, b; simpl. intros. f_equal; lia. Qed.

Lemma key_le_refl a : key_le a a = true.
Proof. unfold key_le. lia. Qed.

Lemma orderBy_ordered {A} (key : A -> Z * Z) (rows : list A) :
  ordered_rows (by_key key) rows (orderBy (by_key key) rows).
Proof.
  split; [apply orderBy_perm|].
  apply orderBy_sorted; [apply by_key_total|apply by_key_trans].
Qed.


Lemma relocate_lookup now (R : list Queue.t) (vals : list Z) i r :
  NoDup (Queue.queueId <$> R) -> length vals = length R -> R !! i = Some r ->
  vals !! i
  = Some (Queue.positionInQueue (relocate now (zip (Queue.queueId <$> R) vals) r)).
Proof.
  intros Hnd Hlen Hr. pose proof (relocate_zip now R vals Hnd Hlen) as Hz.
  apply (f_equal (fun l => l !! i)) in Hz. rewrite list_lookup_fmap, Hr in Hz.
  by rewrite <- Hz.
Qed.

(** In a sorted listing, a row whose key is strictly smaller comes first. *)
Lemma sorted_strictly_before {A} (le : A -> A -> bool) (l : list A) i j a b :
  (forall x, le x x = true) ->
  StronglySorted (fun x y => le x y = true) l ->
  l !! i = Some a -> l !! j = Some b -> le b a = false -> (i < j)%nat.
Proof.
  intros Hrefl Hs Ha Hb Hlt. destruct (lt_eq_lt_dec i j) as [[Hij| ->]|Hji]; [done| |].
  - rewrite Ha in Hb. injection Hb as ->. by rewrite Hrefl in Hlt.
  - pose proof (StronglySorted_lookup _ l j i b a Hs Hji Hb Ha) as Hba. simpl in Hba.
    by rewrite Hba in Hlt.
Qed.

(** Numbering the rows of a sorted listing 1, 2, ... gives the smaller
    number to the row with the strictly smaller key. *)
Lemma numbered_in_order now (le : Queue.t -> Queue.t -> bool) (l : list Queue.t) a b :
  (forall x, le x x = true) ->
  StronglySorted (fun x y => le x y = true) l ->
  NoDup (Queue.queueId <$> l) -> a ∈ l -> b ∈ l -> le b a = false ->
  Queue.positionInQueue
    (relocate now (zip (Queue.queueId <$> l) (seqZ 1 (Z.of_nat (length l)))) a)
  < Queue.positionInQueue
      (relocate now (zip (Queue.queueId <$> l) (seqZ 1 (Z.of_nat (length l)))) b).
Proof.
  intros Hrefl Hs Hnd [i Hi]%list_elem_of_lookup [j Hj]%list_elem_of_lookup Hlt.
  pose proof (sorted_strictly_before le l i j a b Hrefl Hs Hi Hj Hlt) as Hij.
  assert (Hlen : length (seqZ 1 (Z.of_nat (length l))) = length l)
    by (rewrite length_seqZ; lia).
  pose proof (relocate_lookup now l _ i a Hnd Hlen Hi) as Hpi.
  pose proof (relocate_lookup now l _ j b Hnd Hlen Hj) as Hpj.
  apply lookup_seqZ in Hpi, Hpj. lia.
Qed.

Lemma arrives_before_key a b : arrives_before a b -> by_key arrivalKey b a = false.
Proof. unfold arrives_before, by_key, key_le, arrivalKey. simpl. lia. Qed.

Lemma arrives_before_relocate now1 ps1 now2 ps2 a b :
  arrives_before (relocate now1 ps1 a) (relocate now2 ps2 b) <-> arrives_before a b.
Proof.
  unfold arrives_before. by rewrite !relocate_urgencyLevel, !relocate_createdAt.
Qed.

Lemma ordered_rows_NoDup (P : Queue.t -> Prop) `{!forall x, Decision (P x)}
    (le : Queue.t -> Queue.t -> bool) db l :
  primary_key db -> ordered_rows le (filter P (departmentQueues db)) l ->
  NoDup (Queue.queueId <$> l).
Proof. intros Hpk [Hp _]. by eapply NoDup_queueId_filter. Qed.

(** The loop of [prioritizeCriticalPatients], run over any listing [l] its
    query may have returned: the WAITING rows of the department carry the
    numbers 1..N, and of two of them the one with the more urgent rank, or
    with the same rank and the earlier time of enqueue, carries the smaller
    number. *)
Lemma renumber_canonical now d db l :
  primary_key db -> ordered_rows (by_key arrivalKey) (waitingRows db d) l ->
  waitingPositions (set_queues (renumber now 0 l) db) d
    ≡ₚ seqZ 1 (Z.of_nat (length (waitingRows db d))) /\
  forall a b,
    a ∈ waitingRows (set_queues (renumber now 0 l) db) d ->
    b ∈ waitingRows (set_queues (renumber now 0 l) db) d ->
    arrives_before a b -> Queue.positionInQueue a < Queue.positionInQueue b.
Proof.
  intros Hpk Hl. pose proof (ordered_rows_NoDup _ _ _ _ Hpk Hl) as Hnd.
  destruct Hl as [Hp Hs].
  assert (Hdb : set_queues (renumber now 0 l) db
                = set_queues
                    (write_positions now
                       (zip (Queue.queueId <$> l) (seqZ 1 (Z.of_nat (length l))))) db).
  { unfold set_queues. by rewrite renumber_spec. }
  rewrite Hdb. split.
  - rewrite <- (Permutation_length Hp).
    apply write_positions_waiting; [done|done|]. rewrite length_seqZ. lia.
  - intros a b. rewrite waitingRows_relocate.
    intros (a0 & -> & Ha)%list_elem_of_fmap (b0 & -> & Hb)%list_elem_of_fmap Hab.
    apply arrives_before_relocate in Hab. rewrite <- Hp in Ha, Hb.
    apply (numbered_in_order now (by_key arrivalKey)); try done.
    + intros x. apply key_le_refl.
    + by apply arrives_before_key.
Qed.




(** * Further properties of the services *)

(** ** Sorting and filtering *)

Section OrderByFilter.
Context {A : Type} (le : A -> A -> bool).
Hypothesis le_total : forall a b, le a b = true \/ le b a = true.
Hypothesis le_trans : forall a b c, le a b = true -> le b c = true -> le a c = true.

Lemma insertBy_app_le w x (l1 l2 : list A) :
  le w x = true -> insertBy le w (l1 ++ x :: l2) = insertBy le w l1 ++ x :: l2.
Proof.
  intros Hwx. induction l1 as [|y l1 IH]; simpl; [by rewrite Hwx|].
  destruct (le w y); [done|]. by rewrite IH.
Qed.

Lemma insertBy_app_gt w x (l1 l2 : list A) :
  Forall (fun y => le w y = false) l1 -> le w x = false ->
  insertBy le w (l1 ++ x :: l2) = l1 ++ x :: insertBy le w l2.
Proof.
  intros Hl1 Hwx. induction Hl1 as [|y l1 Hy _ IH]; simpl; [by rewrite Hwx|].
  by rewrite Hy, IH.
Qed.

Lemma filter_insertBy_out (P : A -> Prop) `{!forall x, Decision (P x)} w (l : list A) :
  ~ P w -> filter P (insertBy le w l) = filter P l.
Proof.
  intros Hw. induction l as [|y l IH]; simpl.
  - by rewrite filter_cons_False.
  - destruct (le w y).
    + by rewrite filter_cons_False.
    + by rewrite !(filter_cons _ y), IH.
Qed.

Lemma insertBy_below w (l : list A) :
  Forall (fun y => le w y = true) l -> insertBy le w l = w :: l.
Proof. destruct 1 as [|y l Hy _]; simpl; [done|]. by rewrite Hy. Qed.

Lemma filter_insertBy_in (P : A -> Prop) `{!forall x, Decision (P x)} w (l : list A) :
  StronglySorted (fun a b => le a b = true) l -> P w ->
  filter P (insertBy le w l) = insertBy le w (filter P l).
Proof.
  intros Hs Hw. induction Hs as [|y l Hs IH Hall]; simpl.
  - by rewrite filter_cons_True.
  - destruct (le w y) eqn:Hwy.
    + rewrite filter_cons_True by done. symmetry. apply insertBy_below.
      apply Forall_forall. intros z [Hz Hin]%list_elem_of_filter.
      apply elem_of_cons in Hin as [->|Hin]; [done|].
      rewrite Forall_forall in Hall. eapply le_trans; [exact Hwy|]. by apply Hall.
    + rewrite !(filter_cons _ y). destruct (decide (P y)); simpl.
      * by rewrite Hwy, IH.
      * apply IH.
Qed.

(** Sorting the rows a filter keeps gives the sorted rows the filter keeps. *)
Lemma orderBy_filter (P : A -> Prop) `{!forall x, Decision (P x)} (l : list A) :
  orderBy le (filter P l) = filter P (orderBy le l).
Proof.
  induction l as [|x l IH]; [done|].
  change (orderBy le (x :: l)) with (insertBy le x (orderBy le l)).
  rewrite filter_cons. destruct (decide (P x)).
  - rewrite filter_insertBy_in by (done || by apply orderBy_sorted).
    rewrite <- IH. done.
  - by rewrite filter_insertBy_out.
Qed.

(** A row stored last is sorted behind every row that is not after it. *)
Lemma orderBy_snoc x (l : list A) :
  orderBy le (l ++ [x])
  = filter (fun y => le y x = true) (orderBy le l)
    ++ x :: filter (fun y => le y x = false) (orderBy le l).
Proof.
  induction l as [|w l IH]; [done|].
  change (orderBy le ((w :: l) ++ [x])) with (insertBy le w (orderBy le (l ++ [x]))).
  change (orderBy le (w :: l)) with (insertBy le w (orderBy le l)).
  rewrite IH. pose proof (orderBy_sorted le le_total le_trans l) as Hs.
  destruct (le w x) eqn:Hwx.
  - rewrite insertBy_app_le by done.
    rewrite (filter_insertBy_in (fun y => le y x = true)) by done.
    rewrite (filter_insertBy_out (fun y => le y x = false)); [done|]. by rewrite Hwx.
  - rewrite insertBy_app_gt; [| |done].
    + rewrite (filter_insertBy_out (fun y => le y x = true)) by (by rewrite Hwx).
      by rewrite (filter_insertBy_in (fun y => le y x = false)).
    + apply Forall_forall. intros y [Hy _]%list_elem_of_filter.
      destruct (le w y) eqn:Hwy; [|done].
      by rewrite (le_trans _ _ _ Hwy Hy) in Hwx.
Qed.

End OrderByFilter.

Lemma filter_ext_in {A} (P Q : A -> Prop) `{!forall x, Decision (P x)}
    `{!forall x, Decision (Q x)} (l : list A) :
  (forall x, x ∈ l -> P x <-> Q x) -> filter P l = filter Q l.
Proof.
  induction l as [|x l IH]; [done|]. intros Hext.
  rewrite !filter_cons, IH by (intros y Hy; apply Hext; by right).
  destruct (decide (P x)) as [HP|HP], (decide (Q x)) as [HQ|HQ]; try done;
    exfalso; pose proof (Hext x ltac:(left)); tauto.

Qed.

Lemma filter_all {A} (P : A -> Prop) `{!forall x, Decision (P x)} (l : list A) :
  Forall P l -> filter P l = l.
Proof.
  induction 1 as [|x l Hx _ IH]; [done|]. by rewrite filter_cons_True, IH.
Qed.

(** ** The WAITING listing after an entry leaves it *)

(** An update by key that takes its rows out of WAITING removes exactly the
    rows of that key from the WAITING rows of every department. *)
Lemma waiting_after_leave (f : Queue.t -> Queue.t) d q rows :
  (forall r, Queue.status (f r) <> WAITING) ->
  filter (waitingIn d) (update_where (hasQueueId q) f rows)
  = filter (fun e => Queue.queueId e <> q) (filter (waitingIn d) rows).
Proof.
  intros Hf. unfold update_where. induction rows as [|x rows IH]; [done|].
  rewrite fmap_cons. destruct (decide (hasQueueId q x)) as [Hq|Hq]; unfold hasQueueId in Hq.
  - rewrite filter_cons_False by (intros [_ ?]; by eapply Hf).
    rewrite IH. rewrite (filter_cons (waitingIn d)).
    destruct (decide (waitingIn d x)); [|done].
    by rewrite filter_cons_False by (intros Hx; by apply Hx).
  - rewrite !(filter_cons (waitingIn d)). destruct (decide (waitingIn d x)); [|done].
    rewrite filter_cons_True by done. by rewrite IH.
Qed.

Lemma listing_after_leave (f : Queue.t -> Queue.t) d q db :
  (forall r, Queue.status (f r) <> WAITING) ->
  getPatientQueue d (set_queues (update_where (hasQueueId q) f) db)
  = filter (fun e => Queue.queueId e <> q) (getPatientQueue d db).
Proof.
  intros Hf. unfold getPatientQueue, waitingRows, set_queues. simpl.
  rewrite waiting_after_leave by done.
  apply orderBy_filter; [apply by_key_total|apply by_key_trans].
Qed.

Lemma getPatientQueue_NoDup d db :
  primary_key db -> NoDup (Queue.queueId <$> getPatientQueue d db).
Proof.
  intros Hpk. eapply NoDup_queueId_filter; [exact Hpk|]. apply orderBy_perm.
Qed.

Lemma getPatientQueue_elem d db e :
  e ∈ getPatientQueue d db <-> waitingIn d e /\ e ∈ departmentQueues db.
Proof.
  unfold getPatientQueue, waitingRows. by rewrite orderBy_elem, list_elem_of_filter.
Qed.

(** Call-next pops the head of the listing [getPatientQueue] returns: the
    returned entry is that head, set IN_PROGRESS, and the listing of the
    department afterwards is the rest of the former listing, in the same
    order; the listings of the other departments are unchanged. *)
Lemma callNext_pops_head now d doc db next rest :
  primary_key db -> getPatientQueue d db = next :: rest ->
  exists db',
    callNextPatient now d doc db = (Ok (Some (set_called doc now next)), db') /\
    getPatientQueue d db' = rest /\
    (forall d', d' <> d -> getPatientQueue d' db' = getPatientQueue d' db).
Proof.
  intros Hpk Hlist.
  assert (Hnext : next ∈ getPatientQueue d db) by (rewrite Hlist; left).
  apply getPatientQueue_elem in Hnext as [[Hd Hst] Hin].
  rewrite callNext_run. unfold getPatientQueue in Hlist. rewrite Hlist. simpl.
  rewrite find_after_update by done. rewrite find_unique by done. simpl.
  eexists. split; [reflexivity|]. split.
  - unfold getPatientQueue, waitingRows in *. simpl.
    rewrite waiting_after_leave by done.
    rewrite orderBy_filter; [|apply by_key_total|apply by_key_trans].
    rewrite Hlist. rewrite filter_cons_False by (intros Hx; by apply Hx).
    apply filter_all.
    pose proof (getPatientQueue_NoDup d db Hpk) as Hnd.
    unfold getPatientQueue, waitingRows in Hnd. rewrite Hlist, fmap_cons in Hnd.
    apply NoDup_cons in Hnd as [Hnotin _].
    apply Forall_forall. intros x Hx Heq. apply Hnotin. rewrite <- Heq.
    by apply list_elem_of_fmap_2.
  - intros d' Hd'. unfold getPatientQueue, waitingRows. simpl.
    rewrite waiting_after_leave by done. f_equal.
    apply filter_all, Forall_forall. intros x [[Hxd _] Hx]%list_elem_of_filter Heq.
    assert (x = next) as -> by (by eapply same_key_same_row).
    congruence.
Qed.

Lemma callNext_keeps_primary_key now d doc db r db' :
  primary_key db -> callNextPatient now d doc db = (r, db') -> primary_key db'.
Proof.
  intros Hpk. rewrite callNext_run.
  destruct (head (orderBy (by_key queueKey) (waitingRows db d))); intros [= <- <-]; [|done].
  unfold primary_key. simpl. by rewrite update_where_queueIds.
Qed.

(** With distinct sort keys a query has one answer, whatever the store does
    with ties. *)
Lemma ordered_rows_unique {A} (key : A -> Z * Z) (rows l : list A) :
  NoDup (key <$> rows) -> ordered_rows (by_key key) rows l ->
  l = orderBy (by_key key) rows.
Proof.
  intros Hnd [Hp Hs].
  apply (StronglySorted_unique_strong (fun a b => by_key key a b = true)).
  - intros x y Hx Hy Hxy Hyx.
    rewrite Hp in Hx. rewrite orderBy_elem in Hy.
    pose proof (key_le_antisym _ _ Hxy Hyx) as Hk.
    apply list_elem_of_lookup in Hx as [i Hi], Hy as [j Hj].
    assert (i = j) as ->; [|congruence].
    apply (NoDup_lookup (key <$> rows) i j (key x) Hnd).
    + by rewrite list_lookup_fmap, Hi.
    + by rewrite list_lookup_fmap, Hj, Hk.
  - done.
  - apply orderBy_sorted; [apply by_key_total|apply by_key_trans].
  - by rewrite Hp, orderBy_perm.
Qed.

Lemma served_in_turn_listing now d doc db served db' :
  primary_key db -> served_in_turn now d doc db served db' ->
  served = set_called doc now <$> take (length served) (getPatientQueue d db) /\
  getPatientQueue d db' = drop (length served) (getPatientQueue d db) /\
  (forall d', d' <> d -> getPatientQueue d' db' = getPatientQueue d' db).
Proof.
  intros Hpk Hserved. induction Hserved as [db|db called db1 rest db2 Hrun Hserved IH];
    [done|].
  destruct (getPatientQueue d db) as [|next others] eqn:Hlist.
  { rewrite callNext_run in Hrun. unfold getPatientQueue in Hlist.
    by rewrite Hlist in Hrun. }
  destruct (callNext_pops_head now d doc db next others Hpk Hlist)
    as (db1' & Hrun' & Hrest & Hother).
  rewrite Hrun' in Hrun. injection Hrun as <- <-.
  pose proof (callNext_keeps_primary_key _ _ _ _ _ _ Hpk Hrun') as Hpk1.
  destruct (IH Hpk1) as (IH1 & IH2 & IH3). rewrite Hrest in IH1, IH2.
  simpl. split; [by rewrite IH1 at 1|]. split; [done|].
  intros d' Hd'. rewrite IH3 by done. by apply Hother.
Qed.

(** X1. Successive call-next requests serve the patients in the order of
    the listing.  When no two WAITING entries of the department share rank
    and position, the listing [getPatientQueue] returns is the only order the
    query allows, and call-next requests that return, one after the other,
    return the first entries of that listing in turn, each set IN_PROGRESS;
    what is listed afterwards is the listing without them, and the listings
    of the other departments are as before.  Once the listing is used up, a
    further request fails with "No patients in queue" (404). *)
Theorem callNext_serves_in_listing_order now d doc db served db' :
  primary_key db ->
  NoDup (queueKey <$> waitingRows db d) ->
  served_in_turn now d doc db served db' ->
  (forall l, ordered_rows (by_key queueKey) (waitingRows db d) l ->
     l = getPatientQueue d db) /\
  served = set_called doc now <$> take (length served) (getPatientQueue d db) /\
  getPatientQueue d db' = drop (length served) (getPatientQueue d db) /\
  (forall d', d' <> d -> getPatientQueue d' db' = getPatientQueue d' db) /\
  (length served = length (getPatientQueue d db) ->
   callNextPatient now d doc db' = (Err (AppError "No patients in queue" 404), db')).
Proof.
  intros Hpk Hkeys Hserved.
  destruct (served_in_turn_listing now d doc db served db' Hpk Hserved)
    as (Hturn & Hrest & Hother).
  split; [intros l Hl; by apply ordered_rows_unique|].
  split; [done|]. split; [done|]. split; [done|].
  intros Hall. rewrite Hall, drop_all in Hrest.
  rewrite callNext_run. unfold getPatientQueue in Hrest. by rewrite Hrest.
Qed.

(** Two requests of doctor 77 on the queue with two GREEN entries, both of
    which return. *)
Lemma callNext_serves_in_listing_order_witness :
  primary_key two_green_db /\
  NoDup (queueKey <$> waitingRows two_green_db 1%nat) /\
  exists first second db',
    getPatientQueue 1%nat two_green_db = [first; second] /\
    served_in_turn 30 1%nat 77%nat two_green_db
      [set_called 77%nat 30 first; set_called 77%nat 30 second] db' /\
    callNextPatient 30 1%nat 77%nat db'
      = (Err (AppError "No patients in queue" 404), db').
Proof.
  assert (Hpk : primary_key two_green_db)
    by (apply decide_primary_key; vm_compute; reflexivity).
  assert (Hkeys : NoDup (queueKey <$> waitingRows two_green_db 1%nat)).
  { apply (bool_decide_eq_true_1 (NoDup (queueKey <$> waitingRows two_green_db 1%nat))).
    vm_compute. reflexivity. }
  split; [exact Hpk|]. split; [exact Hkeys|].
  destruct (getPatientQueue 1%nat two_green_db) as [|first [|second [|]]] eqn:Hlist;
    try (by vm_compute in Hlist).
  assert (Hserved : exists c1 c2 db',
            served_in_turn 30 1%nat 77%nat two_green_db [c1; c2] db').
  { eexists _, _, _. eapply served_next; [vm_compute; reflexivity|].
    eapply served_next; [vm_compute; reflexivity|]. apply served_none. }
  destruct Hserved as (c1 & c2 & db' & Hserved).
  destruct (callNext_serves_in_listing_order 30 1%nat 77%nat two_green_db _ db'
              Hpk Hkeys Hserved) as (_ & Hturn & _ & _ & Hempty).
  rewrite Hlist in Hturn, Hempty. simpl in Hturn. injection Hturn as -> ->.
  exists first, second, db'. split; [done|]. split; [exact Hserved|].
  by apply Hempty.
Defined.

(** X2. Skipping or completing an existing entry takes it out of the WAITING
    listing of every department; the entries that stay listed keep their
    order (and, no position being written, their positions). *)
Theorem skip_complete_leave_listing now q reason db e :
  findQueueEntry q db = Some e ->
  exists db1 db2,
    skipPatient now q reason db = (Ok tt, db1) /\
    completePatient now q db = (Ok tt, db2) /\
    forall d,
      getPatientQueue d db1
        = filter (fun x => Queue.queueId x <> q) (getPatientQueue d db) /\
      getPatientQueue d db2
        = filter (fun x => Queue.queueId x <> q) (getPatientQueue d db).
Proof.
  intros Hfind. rewrite skipPatient_run, completePatient_run, Hfind.
  eexists _, _. split; [reflexivity|]. split; [reflexivity|].
  intros d. split; by apply listing_after_leave.
Qed.

(** Entry 1 of the queue with two GREEN entries exists. *)
Lemma skip_complete_leave_listing_witness :
  exists e db1,
    findQueueEntry 1%nat two_green_db = Some e /\
    skipPatient 30 1%nat "no show" two_green_db = (Ok tt, db1) /\
    getPatientQueue 1%nat db1
      = filter (fun x => Queue.queueId x <> 1%nat) (getPatientQueue 1%nat two_green_db).
Proof.
  destruct (findQueueEntry 1%nat two_green_db) as [e|] eqn:He; [|by vm_compute in He].
  destruct (skip_complete_leave_listing 30 1%nat "no show" two_green_db e He)
    as (db1 & db2 & Hskip & _ & Hlist).
  exists e, db1. split; [done|]. split; [exact Hskip|]. apply Hlist.
Defined.

Lemma filter_fmap {A B} (f : A -> B) (P : B -> Prop) `{!forall y, Decision (P y)}
    (l : list A) :
  filter P (f <$> l) = f <$> filter (fun x => P (f x)) l.
Proof.
  induction l as [|x l IH]; [done|].
  rewrite fmap_cons, !filter_cons, IH. by destruct (decide (P (f x))).
Qed.

(** X3. The two reads agree.  On a cache miss the rows [getQueueStatus]
    lists with status WAITING are the rows [getPatientQueue] lists, in the
    same order; its waiting count is the count the intake uses for the next
    position; its total is the number of rows it lists, and it lists every
    row of the department, whatever its status, exactly once. *)
Theorem queue_status_agrees_with_patient_queue d db :
  filter (fun r => row_status r = WAITING) (qs_patients (getQueueStatus None d db).1)
    = status_row <$> getPatientQueue d db /\
  qs_waiting (getQueueStatus None d db).1 = queueCount d db /\
  qs_total (getQueueStatus None d db).1
    = Z.of_nat (length (qs_patients (getQueueStatus None d db).1)) /\
  qs_patients (getQueueStatus None d db).1
    ≡ₚ status_row <$> filter (inDepartment d) (departmentQueues db).
Proof.
  simpl. unfold queueStatusQuery, getPatientQueue, queueCount, waitingRows.
  assert (Hw : filter (hasStatus WAITING)
                 (orderBy (by_key queueKey) (filter (inDepartment d) (departmentQueues db)))
               = orderBy (by_key queueKey) (filter (waitingIn d) (departmentQueues db))).
  { rewrite <- orderBy_filter; [|apply by_key_total|apply by_key_trans].
    rewrite list_filter_filter. f_equal. apply list_filter_iff.
    intros x. unfold hasStatus, inDepartment, waitingIn. tauto. }
  split; [|split; [|split]].
  - rewrite filter_fmap. f_equal. exact Hw.
  - by rewrite Hw, orderBy_length.
  - by rewrite length_fmap.
  - by rewrite orderBy_perm.
Qed.

(** ** Where an intake lands in the listing *)

Lemma dense_position_bound db d e :
  dense db d -> e ∈ waitingRows db d ->
  1 <= Queue.positionInQueue e <= queueCount d db.
Proof.
  intros Hdense He. unfold dense, waitingPositions in Hdense.
  assert (Hin : Queue.positionInQueue e ∈ seqZ 1 (Z.of_nat (length (waitingRows db d)))).
  { rewrite <- Hdense. by apply list_elem_of_fmap_2. }
  apply elem_of_seqZ in Hin. unfold queueCount. lia.
Qed.

(** X4. First come, first served within an urgency class: when the WAITING
    positions of the target department are dense, the listing after an intake
    is the former listing with the new entry put behind every entry of the
    same or a more urgent class and before every entry of a less urgent
    class. *)
Theorem intake_listed_behind_same_urgency calc now triageData db ts qe db' :
  performTriage calc now triageData db = (Ok (ts, qe), db') ->
  dense db (Queue.departmentId qe) ->
  getPatientQueue (Queue.departmentId qe) db'
  = filter (fun e => urgencyRank (Queue.urgencyLevel e) <= urgencyRank (Queue.urgencyLevel qe))
      (getPatientQueue (Queue.departmentId qe) db)
    ++ qe :: filter (fun e => urgencyRank (Queue.urgencyLevel qe)
                              < urgencyRank (Queue.urgencyLevel e))
               (getPatientQueue (Queue.departmentId qe) db).
Proof.
  intros (name & dept & _ & _ & Hqe & Hq & _)%performTriage_inv Hdense.
  set (d := Queue.departmentId qe) in *.
  assert (Hpos : Queue.positionInQueue qe = queueCount d db + 1) by (by subst qe).
  assert (Hw : waitingIn d qe) by (by subst qe).
  unfold getPatientQueue. unfold waitingRows at 1. rewrite Hq, filter_app.
  rewrite filter_cons_True, filter_nil by done. fold (waitingRows db d).
  rewrite orderBy_snoc; [|apply by_key_total|apply by_key_trans].
  assert (Hkey : forall x, x ∈ orderBy (by_key queueKey) (waitingRows db d) ->
            (by_key queueKey x qe = true
             <-> urgencyRank (Queue.urgencyLevel x) <= urgencyRank (Queue.urgencyLevel qe))).
  { intros x Hx%orderBy_elem. pose proof (dense_position_bound db d x Hdense Hx).
    unfold by_key, key_le, queueKey. simpl. lia. }
  f_equal; [|f_equal]; apply filter_ext_in; intros x Hx.
  - by apply Hkey.
  - specialize (Hkey x Hx). destruct (by_key queueKey x qe); split; intros; try done; lia.
Qed.

(** A YELLOW intake into the queue holding a GREEN and a RED entry. *)
Lemma intake_listed_behind_same_urgency_witness :
  exists ts qe db',
    performTriage (fixedCalculator YELLOW) 30 (intake 7%nat) green_red_db
      = (Ok (ts, qe), db') /\
    dense green_red_db (Queue.departmentId qe) /\
    Queue.urgencyLevel <$> getPatientQueue (Queue.departmentId qe) db'
      = [RED; YELLOW; GREEN].
Proof.
  destruct (performTriage (fixedCalculator YELLOW) 30 (intake 7%nat) green_red_db)
    as [[[ts qe]|err] db'] eqn:E; [|vm_compute in E; discriminate].
  exists ts, qe, db'. split; [done|].
  assert (Hd : Queue.departmentId qe = 1%nat) by (vm_compute in E; by simplify_eq).
  assert (Hdense : dense green_red_db (Queue.departmentId qe))
    by (rewrite Hd; unfold dense; by vm_compute).
  split; [exact Hdense|].
  rewrite (intake_listed_behind_same_urgency _ _ _ _ _ _ _ E Hdense).
  vm_compute in E. simplify_eq. by vm_compute.
Defined.

(** ** [updatePatientPosition] outside the range 1..N *)

Lemma adjust_fold_miss q p ws acc c :
  p < c \/ c + Z.of_nat (length ws) <= p ->
  foldl (adjust_step q p) (acc, c) ws
  = (acc ++ zip ws (seqZ c (Z.of_nat (length ws))), c + Z.of_nat (length ws)).
Proof.
  revert acc c. induction ws as [|w ws IH]; intros acc c Hc.
  - simpl. rewrite app_nil_r. f_equal. lia.
  - cbn [foldl length] in *. unfold adjust_step at 2.
    destruct (Z.eqb_spec c p); [lia|].
    rewrite IH by lia. rewrite seqZ_succ. simpl. rewrite <- app_assoc. simpl.
    f_equal. lia.
Qed.

Lemma adjustPositions_past_tail q p ws :
  Z.of_nat (length ws) + 1 <= p ->
  adjustPositions q p ws
  = zip (ws ++ [q]) (seqZ 1 (Z.of_nat (length ws)) ++ [p]).
Proof.
  intros Hp. unfold adjustPositions. rewrite adjust_fold_miss by lia. simpl.
  destruct (Z.leb_spec (1 + Z.of_nat (length ws)) p); [|lia].
  rewrite zip_with_app; [done|]. rewrite length_seqZ. lia.
Qed.

Lemma adjustPositions_nonpositive q p ws :
  p < 1 ->
  adjustPositions q p ws = zip ws (seqZ 1 (Z.of_nat (length ws))).
Proof.
  intros Hp. unfold adjustPositions. rewrite adjust_fold_miss by lia. simpl.
  destruct (Z.leb_spec (1 + Z.of_nat (length ws)) p); [lia|done].
Qed.

Lemma final_position_zip_lookup (keys : list uuid) (vals : list Z) i q v :
  NoDup keys -> keys !! i = Some q -> vals !! i = Some v ->
  final_position (zip keys vals) q = Some v.
Proof.
  revert vals i. induction keys as [|a keys IH]; intros [|b vals] i Hnd Hq Hv;
    try (by destruct i).
  apply NoDup_cons in Hnd as [Ha Hnd]. simpl. destruct i as [|i]; simpl in *.
  - simplify_eq. rewrite final_position_None; [by rewrite decide_True|].
    intros H. by apply fst_zip_subseteq in H.
  - by rewrite (IH vals i).
Qed.

(** The rows the reposition renumbers, and the moved row among them. *)
Lemma others_keys db d q e :
  primary_key db -> findQueueEntry q db = Some e ->
  NoDup (q :: (Queue.queueId <$>
                 orderBy by_position (filter (otherWaiting d q) (departmentQueues db)))).
Proof.
  intros Hpk Hfind. apply NoDup_cons. split.
  - intros (x & Hx & Hin)%list_elem_of_fmap.
    apply orderBy_elem, list_elem_of_filter in Hin as [(_ & _ & Hne) _]. done.
  - eapply NoDup_queueId_filter; [exact Hpk|]. apply orderBy_perm.
Qed.

Lemma reposition_final_position q p (ws : list uuid) :
  NoDup (q :: ws) -> 1 <= p ->
  final_position (adjustPositions q p ws) q = Some p.
Proof.
  intros Hnd Hp. destruct (Z.le_gt_cases p (Z.of_nat (length ws) + 1)) as [Hin|Hout].
  - rewrite adjustPositions_in_range by lia.
    set (k := Z.to_nat (p - 1)).
    assert (Hk : (k <= length ws)%nat) by lia.
    apply (final_position_zip_lookup _ _ k).
    + apply NoDup_cons in Hnd as [Hq Hws].
      rewrite <- (take_drop k ws) in Hws, Hq. apply NoDup_app in Hws as (H1 & H2 & H3).
      apply NoDup_app. split; [done|]. split; [|apply NoDup_cons; split; [|done]].
      * intros x Hx [->|Hx']%elem_of_cons; [|by eapply H2].
        apply Hq, elem_of_app. by left.
      * intros Hx. apply Hq, elem_of_app. by right.
    + rewrite lookup_app_r by (rewrite length_take; lia).
      rewrite length_take. by replace (k - k `min` length ws)%nat with 0%nat by lia.
    + rewrite lookup_seqZ. lia.
  - rewrite adjustPositions_past_tail by lia.
    apply (final_position_zip_lookup _ _ (length ws)).
    + apply NoDup_app. apply NoDup_cons in Hnd as [Hq Hws].
      split; [done|]. split; [|apply NoDup_singleton].
      intros x Hx [->|Hx']%elem_of_cons; [done|by inversion Hx'].
    + by rewrite lookup_app_r, Nat.sub_diag by lia.
    + rewrite lookup_app_r by (rewrite length_seqZ; lia).
      rewrite length_seqZ.
      by replace (length ws - Z.to_nat (Z.of_nat (length ws)))%nat with 0%nat by lia.
Qed.

(** The other WAITING rows of the department, when the writes give the
    numbers 1, 2, ... to them in the order of their positions (and whatever
    they give to further rows): afterwards these rows carry the numbers
    1..N-1, and of two of them the one with the strictly smaller former
    position carries the smaller number. *)
Lemma others_renumbered now db d q (rest : list Queue.t) (vrest : list Z) :
  let others := orderBy by_position (filter (otherWaiting d q) (departmentQueues db)) in
  let db' :=
    set_queues
      (write_positions now
         (zip (Queue.queueId <$> others ++ rest)
              (seqZ 1 (Z.of_nat (length others)) ++ vrest))) db in
  primary_key db -> NoDup (Queue.queueId <$> others ++ rest) ->
  length vrest = length rest ->
  Queue.positionInQueue <$> filter (otherWaiting d q) (departmentQueues db')
    ≡ₚ seqZ 1 (Z.of_nat (length others)) /\
  forall a b,
    a ∈ departmentQueues db -> b ∈ departmentQueues db ->
    otherWaiting d q a -> otherWaiting d q b ->
    Queue.positionInQueue a < Queue.positionInQueue b ->
    exists a' b',
      findQueueEntry (Queue.queueId a) db' = Some a' /\
      findQueueEntry (Queue.queueId b) db' = Some b' /\
      Queue.positionInQueue a' < Queue.positionInQueue b'.
Proof.
  intros others db' Hpk Hnd Hrest.
  set (vals := seqZ 1 (Z.of_nat (length others)) ++ vrest) in *.
  set (ps := zip (Queue.queueId <$> others ++ rest) vals) in *.
  assert (Hlen : length vals = length (others ++ rest)).
  { unfold vals. rewrite !length_app, length_seqZ. lia. }
  pose proof (relocate_zip now (others ++ rest) vals Hnd Hlen) as Hzip. fold ps in Hzip.
  assert (Hat : forall i r, others !! i = Some r ->
            Queue.positionInQueue (relocate now ps r) = 1 + Z.of_nat i).
  { intros i r Hr.
    assert (Hv : vals !! i = Some (1 + Z.of_nat i)).
    { unfold vals. apply lookup_lt_Some in Hr as Hi.
      rewrite lookup_app_l by (rewrite length_seqZ; lia).
      apply lookup_seqZ. lia. }
    assert (HR : (others ++ rest) !! i = Some r) by (by apply lookup_app_l_Some).
    pose proof (relocate_lookup now (others ++ rest) vals i r Hnd Hlen HR) as Hp.
    fold ps in Hp. congruence. }
  split.
  - unfold db', set_queues. simpl. rewrite write_positions_spec.
    rewrite filter_fmap_stable.
    2: { intros x. unfold otherWaiting.
         by rewrite relocate_departmentId, relocate_status, relocate_queueId. }
    rewrite <- list_fmap_compose.
    rewrite <- (orderBy_perm by_position (filter _ _)). fold others.
    replace ((Queue.positionInQueue ∘ relocate now ps) <$> others)
      with (seqZ 1 (Z.of_nat (length others))); [done|].
    apply list_eq. intros i. rewrite list_lookup_fmap.
    destruct (others !! i) as [r|] eqn:Hr; simpl.
    + rewrite (Hat i r Hr). apply lookup_seqZ. apply lookup_lt_Some in Hr. lia.
    + apply lookup_ge_None in Hr. apply lookup_ge_None. rewrite length_seqZ. lia.
  - intros a b Ha Hb Hoa Hob Hlt.
    assert (Hina : a ∈ others) by (apply orderBy_elem, list_elem_of_filter; done).
    assert (Hinb : b ∈ others) by (apply orderBy_elem, list_elem_of_filter; done).
    apply list_elem_of_lookup in Hina as [i Hi], Hinb as [j Hj].
    assert (Hij : (i < j)%nat).
    { apply (sorted_strictly_before by_position others i j a b); try done.
      - intros x. unfold by_position. lia.
      - apply orderBy_sorted; [apply by_position_total|apply by_position_trans].
      - unfold by_position. lia. }
    exists (relocate now ps a), (relocate now ps b). split; [|split].
    + unfold findQueueEntry at 1, db', set_queues. simpl.
      rewrite write_positions_spec, find_relocate.
      unfold findQueueEntry. by rewrite find_unique.
    + unfold findQueueEntry at 1, db', set_queues. simpl.
      rewrite write_positions_spec, find_relocate.
      unfold findQueueEntry. by rewrite find_unique.
    + rewrite (Hat i a Hi), (Hat j b Hj). lia.
Qed.

(** X5. A reposition of an existing entry to a position of at least 1, when
    it returns, has stored exactly the requested position on the entry,
    whatever the status of the entry and however long the queue: read back,
    the entry differs from the stored one in its position and updatedAt
    only. *)
Theorem reposition_stores_requested now q p db e db' :
  primary_key db -> findQueueEntry q db = Some e -> 1 <= p ->
  updatePatientPosition now q p db = (Ok tt, db') ->
  findQueueEntry q db' = Some (set_position p now e).
Proof.
  intros Hpk Hfind Hp. rewrite updatePatientPosition_run, Hfind. intros [= <-].
  unfold findQueueEntry at 1, set_queues. simpl.
  rewrite write_positions_spec, find_relocate, Hfind. simpl. f_equal.
  unfold relocate. apply find_elem in Hfind as Hq. destruct Hq as [_ ->].
  rewrite reposition_final_position; [done| |done].
  by eapply others_keys.
Qed.

(** The GREEN entry of a queue of two is sent to position 9. *)
Lemma reposition_stores_requested_witness :
  primary_key green_red_db /\
  exists e db',
    findQueueEntry 1%nat green_red_db = Some e /\
    updatePatientPosition 40 1%nat 9 green_red_db = (Ok tt, db') /\
    findQueueEntry 1%nat db' = Some (set_position 9 40 e).
Proof.
  assert (Hpk : primary_key green_red_db)
    by (apply decide_primary_key; vm_compute; reflexivity).
  split; [exact Hpk|].
  destruct (findQueueEntry 1%nat green_red_db) as [e|] eqn:He; [|by vm_compute in He].
  destruct (updatePatientPosition 40 1%nat 9 green_red_db) as [[[]|err] db'] eqn:Hrun;
    [|vm_compute in Hrun; discriminate].
  exists e, db'. split; [done|]. split; [done|].
  apply (reposition_stores_requested 40 1%nat 9 green_red_db e db' Hpk He); [lia|exact Hrun].
Defined.

Lemma others_length db d q e :
  primary_key db -> findQueueEntry q db = Some e -> waitingIn d e ->
  length (waitingRows db d)
  = S (length (orderBy by_position (filter (otherWaiting d q) (departmentQueues db)))).
Proof.
  intros Hpk Hfind Hw.
  by rewrite (Permutation_length (waiting_split db q e d Hpk Hfind Hw)), orderBy_length.
Qed.

(** X6. A reposition of a WAITING entry past the tail of its queue (to a
    position p above the number N of WAITING entries), when it returns, has
    left a gap: the moved entry carries p; the other WAITING entries of the
    department carry the numbers 1..N-1, and of two of them the one with the
    smaller former position carries the smaller number; so the WAITING
    positions are no longer the dense sequence 1..N. *)
Theorem reposition_past_tail_leaves_gap now q p db e db' :
  primary_key db -> findQueueEntry q db = Some e -> Queue.status e = WAITING ->
  Z.of_nat (length (waitingRows db (Queue.departmentId e))) < p ->
  updatePatientPosition now q p db = (Ok tt, db') ->
  findQueueEntry q db' = Some (set_position p now e) /\
  Queue.positionInQueue <$>
    filter (otherWaiting (Queue.departmentId e) q) (departmentQueues db')
    ≡ₚ seqZ 1 (Z.of_nat (length (waitingRows db (Queue.departmentId e))) - 1) /\
  (forall a b,
     a ∈ departmentQueues db -> b ∈ departmentQueues db ->
     otherWaiting (Queue.departmentId e) q a -> otherWaiting (Queue.departmentId e) q b ->
     Queue.positionInQueue a < Queue.positionInQueue b ->
     exists a' b',
       findQueueEntry (Queue.queueId a) db' = Some a' /\
       findQueueEntry (Queue.queueId b) db' = Some b' /\
       Queue.positionInQueue a' < Queue.positionInQueue b') /\
  waitingPositions db' (Queue.departmentId e)
    ≡ₚ seqZ 1 (Z.of_nat (length (waitingRows db (Queue.departmentId e))) - 1) ++ [p] /\
  ~ dense db' (Queue.departmentId e).
Proof.
  intros Hpk Hfind Hst Hp Hrun.
  assert (Hmoved : findQueueEntry q db' = Some (set_position p now e)).
  { revert Hrun. rewrite updatePatientPosition_run, Hfind. intros [= <-].
    unfold findQueueEntry at 1, set_queues. simpl.
    rewrite write_positions_spec, find_relocate, Hfind. simpl. f_equal.
    unfold relocate. apply find_elem in Hfind as Hq. destruct Hq as [_ ->].
    rewrite reposition_final_position; [done| |lia].
    by eapply others_keys. }
  split; [exact Hmoved|].
  revert Hrun. rewrite updatePatientPosition_run, Hfind. intros [= <-].
  set (d := Queue.departmentId e) in *.
  set (others := orderBy by_position (filter (otherWaiting d q) (departmentQueues db))).
  assert (Hw : waitingIn d e) by done.
  pose proof (others_length db d q e Hpk Hfind Hw) as Hlen. fold others in Hlen.
  assert (Hids : (Queue.queueId <$> others) ++ [q] = Queue.queueId <$> (others ++ [e])).
  { rewrite fmap_app. simpl. by apply find_elem in Hfind as [_ ->]. }
  rewrite adjustPositions_past_tail by (rewrite length_fmap; lia).
  rewrite length_fmap, Hids.
  assert (Hnd : NoDup (Queue.queueId <$> others ++ [e])).
  { rewrite <- Hids. apply NoDup_app.
    pose proof (others_keys db d q e Hpk Hfind) as Hkeys. fold others in Hkeys.
    apply NoDup_cons in Hkeys as [Hq Hnd]. split; [done|]. split; [|apply NoDup_singleton].
    intros x Hx [->|Hx']%elem_of_cons; [done|by inversion Hx']. }
  replace (Z.of_nat (length (waitingRows db d)) - 1) with (Z.of_nat (length others))
    by (rewrite Hlen; lia).
  destruct (others_renumbered now db d q [e] [p] Hpk Hnd eq_refl) as [Hnum Hord].
  fold others in Hnum, Hord.
  split; [exact Hnum|]. split; [exact Hord|].
  assert (Hperm : waitingPositions
            (set_queues (write_positions now
               (zip (Queue.queueId <$> others ++ [e])
                    (seqZ 1 (Z.of_nat (length others)) ++ [p]))) db) d
          ≡ₚ seqZ 1 (Z.of_nat (length others)) ++ [p]).
  { apply write_positions_waiting; [done| |].
    - rewrite (waiting_split db q e d Hpk Hfind Hw).
      unfold others. rewrite orderBy_perm. by rewrite <- Permutation_cons_append.
    - rewrite !length_app, length_seqZ. simpl. lia. }
  split; [exact Hperm|].
  unfold dense. rewrite Hperm. intros Hdense.
  assert (Hin : p ∈ seqZ 1 (Z.of_nat (length others)) ++ [p])
    by (apply elem_of_app; right; left).
  rewrite Hdense in Hin. apply elem_of_seqZ in Hin.
  rewrite waitingRows_relocate, length_fmap, Hlen in Hin. lia.
Qed.

(** The RED entry of a queue of two is sent to position 5. *)
Lemma reposition_past_tail_leaves_gap_witness :
  primary_key green_red_db /\
  exists e db',
    findQueueEntry 2%nat green_red_db = Some e /\
    Queue.status e = WAITING /\
    Z.of_nat (length (waitingRows green_red_db (Queue.departmentId e))) < 5 /\
    updatePatientPosition 40 2%nat 5 green_red_db = (Ok tt, db') /\
    findQueueEntry 2%nat db' = Some (set_position 5 40 e) /\
    ~ dense db' (Queue.departmentId e).
Proof.
  assert (Hpk : primary_key green_red_db)
    by (apply decide_primary_key; vm_compute; reflexivity).
  split; [exact Hpk|].
  destruct (findQueueEntry 2%nat green_red_db) as [e|] eqn:He; [|by vm_compute in He].
  assert (Hst : Queue.status e = WAITING) by (vm_compute in He; by simplify_eq).
  assert (Hp : Z.of_nat (length (waitingRows green_red_db (Queue.departmentId e))) < 5)
    by (vm_compute in He; simplify_eq; by vm_compute).
  destruct (updatePatientPosition 40 2%nat 5 green_red_db) as [[[]|err] db'] eqn:Hrun;
    [|vm_compute in Hrun; discriminate].
  destruct (reposition_past_tail_leaves_gap 40 2%nat 5 green_red_db e db' Hpk He Hst Hp Hrun)
    as (Hmoved & _ & _ & _ & Hgap).
  by exists e, db'.
Defined.

(** X7. A reposition to a position below 1 reports success without moving
    the entry: its row is not written at all, while the other WAITING entries
    of its department are renumbered 1..N-1 in the order of their former
    positions: of two of them the one with the smaller former position gets
    the smaller number. *)
Theorem reposition_below_one_keeps_entry now q p db e :
  primary_key db -> findQueueEntry q db = Some e -> p < 1 ->
  exists db',
    updatePatientPosition now q p db = (Ok tt, db') /\
    findQueueEntry q db' = Some e /\
    Queue.positionInQueue <$>
      filter (otherWaiting (Queue.departmentId e) q) (departmentQueues db')
      ≡ₚ seqZ 1 (Z.of_nat (length (filter (otherWaiting (Queue.departmentId e) q)
                                      (departmentQueues db)))) /\
    (forall a b,
       a ∈ departmentQueues db -> b ∈ departmentQueues db ->
       otherWaiting (Queue.departmentId e) q a -> otherWaiting (Queue.departmentId e) q b ->
       Queue.positionInQueue a < Queue.positionInQueue b ->
       exists a' b',
         findQueueEntry (Queue.queueId a) db' = Some a' /\
         findQueueEntry (Queue.queueId b) db' = Some b' /\
         Queue.positionInQueue a' < Queue.positionInQueue b') /\
    (Queue.status e = WAITING ->
     waitingPositions db' (Queue.departmentId e)
       ≡ₚ Queue.positionInQueue e
          :: seqZ 1 (Z.of_nat (length (waitingRows db (Queue.departmentId e))) - 1)).
Proof.
  intros Hpk Hfind Hp. rewrite updatePatientPosition_run, Hfind.
  eexists. split; [reflexivity|].
  set (d := Queue.departmentId e) in *.
  set (others := orderBy by_position (filter (otherWaiting d q) (departmentQueues db))).
  rewrite adjustPositions_nonpositive, length_fmap by done.
  pose proof (others_keys db d q e Hpk Hfind) as Hkeys. fold others in Hkeys.
  apply NoDup_cons in Hkeys as [Hq Hnd].
  assert (He : relocate now (zip (Queue.queueId <$> others) (seqZ 1 (Z.of_nat (length others)))) e
               = e).
  { unfold relocate. rewrite final_position_None; [done|].
    intros Hin%fst_zip_subseteq. apply find_elem in Hfind as [_ Heq].
    by rewrite Heq in Hin. }
  split; [|split; [|split]].
  - unfold findQueueEntry at 1, set_queues. simpl.
    rewrite write_positions_spec, find_relocate, Hfind. simpl. by rewrite He.
  - assert (Hnd' : NoDup (Queue.queueId <$> others ++ [])) by (by rewrite app_nil_r).
    destruct (others_renumbered now db d q [] [] Hpk Hnd' eq_refl) as [Hnum _].
    fold others in Hnum. rewrite !app_nil_r in Hnum.
    rewrite <- (orderBy_length by_position (filter (otherWaiting d q) (departmentQueues db))).
    exact Hnum.
  - assert (Hnd' : NoDup (Queue.queueId <$> others ++ [])) by (by rewrite app_nil_r).
    destruct (others_renumbered now db d q [] [] Hpk Hnd' eq_refl) as [_ Hord].
    fold others in Hord. rewrite !app_nil_r in Hord. exact Hord.
  - intros Hst. assert (Hw : waitingIn d e) by done.
    rewrite (others_length db d q e Hpk Hfind Hw). fold others.
    unfold waitingPositions. rewrite waitingRows_relocate, <- list_fmap_compose.
    rewrite (waiting_split db q e d Hpk Hfind Hw).
    fold others. rewrite fmap_cons. simpl. rewrite He.
    replace (Z.of_nat (S (length others)) - 1) with (Z.of_nat (length others)) by lia.
    constructor.
    rewrite <- (orderBy_perm by_position (filter _ _)). fold others.
    pose proof (relocate_zip now others (seqZ 1 (Z.of_nat (length others))) Hnd) as Hr.
    unfold compose. rewrite Hr; [done|]. rewrite length_seqZ. lia.
Qed.

(** In the queue GREEN, RED, GREEN at positions 3, 2, 1, the RED entry is
    sent to position 0: it keeps position 2, and the two others get 1 and 2
    in the order of their former positions. *)
Lemma reposition_below_one_keeps_entry_witness :
  primary_key overridden_db /\
  exists e db',
    findQueueEntry 2%nat overridden_db = Some e /\
    updatePatientPosition 40 2%nat 0 overridden_db = (Ok tt, db') /\
    findQueueEntry 2%nat db' = Some e /\
    (fun r => (Queue.queueId r, Queue.positionInQueue r)) <$> departmentQueues db'
    = [(1%nat, 2); (2%nat, 2); (3%nat, 1)].
Proof.
  assert (Hpk : primary_key overridden_db)
    by (apply decide_primary_key; vm_compute; reflexivity).
  split; [exact Hpk|].
  destruct (findQueueEntry 2%nat overridden_db) as [e|] eqn:He; [|by vm_compute in He].
  destruct (reposition_below_one_keeps_entry 40 2%nat 0 overridden_db e Hpk He)
    as (db' & Hrun & Hsame & _); [lia|].
  exists e, db'. split; [done|]. split; [done|]. split; [done|].
  vm_compute in Hrun. injection Hrun as <-. vm_compute. reflexivity.
Defined.

(** ** What the writes of positions leave alone *)

Lemma adjustPositions_keys q p (ws : list uuid) x :
  x ∈ (adjustPositions q p ws).*1 -> x = q \/ x ∈ ws.
Proof.
  destruct (Z.lt_ge_cases p 1) as [Hlow|Hp].
  { rewrite adjustPositions_nonpositive by done. intros H%fst_zip_subseteq. by right. }
  destruct (Z.le_gt_cases p (Z.of_nat (length ws) + 1)) as [Hin|Hout].
  - rewrite adjustPositions_in_range by lia. intros H%fst_zip_subseteq.
    apply elem_of_app in H as [H|[->|H]%elem_of_cons]; [right|by left|right].
    + by eapply subseteq_take.
    + by eapply subseteq_drop.
  - rewrite adjustPositions_past_tail by lia. intros H%fst_zip_subseteq.
    apply elem_of_app in H as [H|[->|H]%elem_of_cons]; [by right|by left|by inversion H].
Qed.

(** X8. A reposition writes position_in_queue and updatedAt and nothing
    else, and only on the moved entry and on the WAITING entries of its
    department: no row is added or removed, every row keeps its key,
    department, patient, urgency, status and time stamps, every other row is
    left as it is, and the departments (load counters included) and triage
    sessions are unchanged. *)
Theorem reposition_scope now q p db e db' :
  primary_key db -> findQueueEntry q db = Some e ->
  updatePatientPosition now q p db = (Ok tt, db') ->
  departments db' = departments db /\
  triageSessions db' = triageSessions db /\
  length (departmentQueues db') = length (departmentQueues db) /\
  forall i r, departmentQueues db !! i = Some r ->
    exists r',
      departmentQueues db' !! i = Some r' /\
      r' = set_position (Queue.positionInQueue r') (Queue.updatedAt r') r /\
      (Queue.queueId r <> q -> ~ waitingIn (Queue.departmentId e) r -> r' = r).
Proof.
  intros Hpk Hfind. rewrite updatePatientPosition_run, Hfind. intros [= <-].
  unfold set_queues. simpl. rewrite write_positions_spec.
  split; [done|]. split; [done|]. split; [by rewrite length_fmap|].
  intros i r Hr. eexists. rewrite list_lookup_fmap, Hr. simpl.
  split; [reflexivity|]. split; [apply relocate_fields|].
  intros Hne Hnw. unfold relocate. rewrite final_position_None; [done|].
  intros [Hq|Hin]%adjustPositions_keys; [done|].
  apply list_elem_of_fmap in Hin as (o & Heq & Ho).
  apply orderBy_elem, list_elem_of_filter in Ho as [(Hd & Hst & _) Ho].
  assert (r = o) as -> by (eapply same_key_same_row; eauto using list_elem_of_lookup_2).
  by apply Hnw.
Qed.

(** The RED entry of a queue of two is moved to position 1. *)
Lemma reposition_scope_witness :
  exists e db',
    primary_key green_red_db /\
    findQueueEntry 2%nat green_red_db = Some e /\
    updatePatientPosition 40 2%nat 1 green_red_db = (Ok tt, db') /\
    departments db' = departments green_red_db /\
    length (departmentQueues db') = length (departmentQueues green_red_db).
Proof.
  assert (Hpk : primary_key green_red_db)
    by (apply decide_primary_key; vm_compute; reflexivity).
  destruct (findQueueEntry 2%nat green_red_db) as [e|] eqn:He; [|by vm_compute in He].
  destruct (updatePatientPosition 40 2%nat 1 green_red_db) as [[[]|err] db'] eqn:Hrun;
    [|vm_compute in Hrun; discriminate].
  destruct (reposition_scope 40 2%nat 1 green_red_db e db' Hpk He Hrun)
    as (Hd & _ & Hlen & _).
  by exists e, db'.
Defined.

(** ** The listing after [prioritizeCriticalPatients] *)

Lemma StronglySorted_from_lookup {A} (R : A -> A -> Prop) (l : list A) :
  (forall i j x y, (i < j)%nat -> l !! i = Some x -> l !! j = Some y -> R x y) ->
  StronglySorted R l.
Proof.
  induction l as [|a l IH]; intros H; constructor.
  - apply IH. intros i j x y Hij Hi Hj. apply (H (S i) (S j)); [lia|done..].
  - apply Forall_forall. intros y [j Hj]%list_elem_of_lookup.
    by apply (H 0%nat (S j)); [lia|..].
Qed.

Lemma canonicalOrder_rank_monotone db d i j x y :
  (i < j)%nat -> canonicalOrder db d !! i = Some x -> canonicalOrder db d !! j = Some y ->
  urgencyRank (Queue.urgencyLevel x) <= urgencyRank (Queue.urgencyLevel y).
Proof.
  intros Hij Hi Hj.
  pose proof (orderBy_sorted (by_key arrivalKey) (by_key_total arrivalKey)
                (by_key_trans arrivalKey) (waitingRows db d)) as Hs.
  pose proof (StronglySorted_lookup _ _ _ _ _ _ Hs Hij Hi Hj) as H.
  unfold by_key, key_le, arrivalKey in H. simpl in H. lia.
Qed.

Lemma prioritize_listing now d db :
  primary_key db ->
  let db' := set_queues
               (write_positions now
                  (zip (Queue.queueId <$> canonicalOrder db d)
                       (seqZ 1 (Z.of_nat (length (waitingRows db d)))))) db in
  getPatientQueue d db' = canonicalOrder db' d.
Proof.
  intros Hpk db'.
  set (ps := zip (Queue.queueId <$> canonicalOrder db d)
                 (seqZ 1 (Z.of_nat (length (waitingRows db d))))) in *.
  assert (Hcanon : canonicalOrder db' d = relocate now ps <$> canonicalOrder db d)
    by apply canonicalOrder_relocate.
  assert (Hpos : Queue.positionInQueue <$> canonicalOrder db' d
                 = seqZ 1 (Z.of_nat (length (waitingRows db d)))).
  { rewrite Hcanon, <- list_fmap_compose.
    apply (relocate_zip now (canonicalOrder db d)).
    - eapply NoDup_queueId_filter; [exact Hpk|]. apply canonicalOrder_perm.
    - rewrite length_seqZ, (Permutation_length (canonicalOrder_perm db d)). lia. }
  assert (Hat : forall i x, canonicalOrder db' d !! i = Some x ->
                  Queue.positionInQueue x = 1 + Z.of_nat i).
  { intros i x Hx.
    assert (H : (Queue.positionInQueue <$> canonicalOrder db' d) !! i
                = Some (Queue.positionInQueue x)) by (by rewrite list_lookup_fmap, Hx).
    rewrite Hpos in H. apply lookup_seqZ in H. lia. }
  apply (StronglySorted_unique_strong (fun a b => by_key queueKey a b = true)).
  - intros x1 x2 Hx1 Hx2 H12 H21.
    apply orderBy_elem in Hx1. rewrite <- (canonicalOrder_perm db' d) in Hx1.
    apply list_elem_of_lookup in Hx1 as [i Hi]. apply list_elem_of_lookup in Hx2 as [j Hj].
    pose proof (Hat i x1 Hi). pose proof (Hat j x2 Hj).
    unfold by_key, key_le, queueKey in H12, H21. simpl in *.
    assert (i = j) as -> by lia. congruence.
  - apply orderBy_sorted; [apply by_key_total|apply by_key_trans].
  - apply StronglySorted_from_lookup. intros i j x y Hij Hi Hj.
    pose proof (Hat i x Hi). pose proof (Hat j y Hj).
    rewrite Hcanon in Hi, Hj. rewrite list_lookup_fmap in Hi, Hj.
    destruct (canonicalOrder db d !! i) as [x0|] eqn:Hi0; [|done].
    destruct (canonicalOrder db d !! j) as [y0|] eqn:Hj0; [|done].
    simpl in *. simplify_eq.
    pose proof (canonicalOrder_rank_monotone db d i j x0 y0 Hij Hi0 Hj0).
    unfold by_key, key_le, queueKey. simpl. rewrite !relocate_urgencyLevel. lia.
  - unfold getPatientQueue. rewrite orderBy_perm. symmetry. apply canonicalOrder_perm.
Qed.

(** X9. After [prioritizeCriticalPatients] the listing of the department
    shows its WAITING entries by urgency rank and, within a rank, by time of
    enqueue, whatever positions were stored before: of two listed entries
    the one listed first has the smaller or the same rank, and with the same
    urgency the earlier or the same time of enqueue; the positions read
    1, 2, ..., N along the listing.  Only position_in_queue and updatedAt of
    the WAITING rows of that department are written: every other row and the
    departments are unchanged. *)
Theorem prioritize_listing_is_canonical now d db :
  primary_key db ->
  exists db',
    prioritizeCriticalPatients now d db = (Ok tt, db') /\
    Queue.queueId <$> getPatientQueue d db' ≡ₚ Queue.queueId <$> waitingRows db d /\
    Queue.positionInQueue <$> getPatientQueue d db'
      = seqZ 1 (Z.of_nat (length (waitingRows db d))) /\
    (forall i j a b, (i < j)%nat ->
       getPatientQueue d db' !! i = Some a -> getPatientQueue d db' !! j = Some b ->
       urgencyRank (Queue.urgencyLevel a) <= urgencyRank (Queue.urgencyLevel b) /\
       (Queue.urgencyLevel a = Queue.urgencyLevel b ->
        Queue.createdAt a <= Queue.createdAt b)) /\
    departments db' = departments db /\
    forall i r, departmentQueues db !! i = Some r ->
      exists r',
        departmentQueues db' !! i = Some r' /\
        r' = set_position (Queue.positionInQueue r') (Queue.updatedAt r') r /\
        (~ waitingIn d r -> r' = r).
Proof.
  intros Hpk. rewrite prioritize_run. eexists. split; [reflexivity|].
  set (ps := zip (Queue.queueId <$> canonicalOrder db d)
                 (seqZ 1 (Z.of_nat (length (waitingRows db d))))).
  set (db' := set_queues (write_positions now ps) db).
  pose proof (orderBy_ordered arrivalKey (waitingRows db d)) as Hord.
  destruct (renumber_canonical now d db _ Hpk Hord) as [_ Horder].
  assert (Hdb : set_queues (renumber now 0 (orderBy (by_key arrivalKey) (waitingRows db d))) db
                = db').
  { unfold db', set_queues. rewrite renumber_spec. unfold ps, canonicalOrder.
    by rewrite orderBy_length. }
  rewrite Hdb in Horder.
  split; [|split; [|split; [|split; [done|]]]].
  - unfold getPatientQueue. rewrite orderBy_perm. unfold db'.
    rewrite waitingRows_relocate, <- list_fmap_compose.
    erewrite list_fmap_ext; [done|]. intros _ x _. apply relocate_queueId.
  - unfold db', ps. rewrite (prioritize_listing now d db Hpk).
    rewrite canonicalOrder_relocate, <- list_fmap_compose.
    apply (relocate_zip now (canonicalOrder db d)).
    + eapply NoDup_queueId_filter; [exact Hpk|]. apply canonicalOrder_perm.
    + rewrite length_seqZ, (Permutation_length (canonicalOrder_perm db d)). lia.
  - intros i j a b Hij Ha Hb.
    pose proof (orderBy_sorted (by_key queueKey) (by_key_total queueKey)
                  (by_key_trans queueKey) (waitingRows db' d)) as Hs.
    pose proof (StronglySorted_lookup _ _ _ _ _ _ Hs Hij Ha Hb) as Hab.
    unfold by_key, key_le, queueKey in Hab. simpl in Hab.
    assert (Hina : a ∈ waitingRows db' d).
    { apply (orderBy_elem (by_key queueKey)). by eapply list_elem_of_lookup_2. }
    assert (Hinb : b ∈ waitingRows db' d).
    { apply (orderBy_elem (by_key queueKey)). by eapply list_elem_of_lookup_2. }
    split; [lia|]. intros Hlevel.
    destruct (Z.le_gt_cases (Queue.createdAt a) (Queue.createdAt b)) as [|Hlater]; [done|].
    assert (Hba : arrives_before b a).
    { right. rewrite Hlevel. split; [done|lia]. }
    pose proof (Horder b a Hinb Hina Hba). rewrite Hlevel in Hab. lia.
  - intros i r Hr. unfold db', set_queues. simpl. rewrite write_positions_spec.
    eexists. rewrite list_lookup_fmap, Hr. simpl.
    split; [reflexivity|]. split; [apply relocate_fields|].
    intros Hnw. unfold relocate. rewrite final_position_None; [done|].
    intros Hin%fst_zip_subseteq.
    apply list_elem_of_fmap in Hin as (o & Heq & Ho).
    apply orderBy_elem, list_elem_of_filter in Ho as [Hw Ho].
    assert (r = o) as -> by (eapply same_key_same_row; eauto using list_elem_of_lookup_2).
    by apply Hnw.
Qed.

(** The queue GREEN (enqueued at 10), RED (at 20), GREEN (at 30) with the
    manual positions 3, 2, 1 is listed RED, earlier GREEN, later GREEN. *)
Lemma prioritize_listing_is_canonical_witness :
  primary_key overridden_db /\
  (fun r => (Queue.urgencyLevel r, Queue.createdAt r))
    <$> getPatientQueue 1%nat overridden_db
  = [(RED, 20); (GREEN, 30); (GREEN, 10)] /\
  exists db',
    prioritizeCriticalPatients 40 1%nat overridden_db = (Ok tt, db') /\
    (fun r => (Queue.urgencyLevel r, Queue.createdAt r)) <$> getPatientQueue 1%nat db'
    = [(RED, 20); (GREEN, 10); (GREEN, 30)].
Proof.
  assert (Hpk : primary_key overridden_db)
    by (apply decide_primary_key; vm_compute; reflexivity).
  split; [exact Hpk|]. split; [vm_compute; reflexivity|].
  destruct (prioritize_listing_is_canonical 40 1%nat overridden_db Hpk)
    as (db' & Hrun & _).
  exists db'. split; [exact Hrun|].
  vm_compute in Hrun. injection Hrun as <-. vm_compute. reflexivity.
Defined.

(** ** The routing table *)

Lemma prop_insert_ne (s : gmap string JsValue) k k' x :
  k <> k' -> prop (<[k:=x]> s) k' = prop s k'.
Proof. intros H. unfold prop. by rewrite lookup_insert_ne. Qed.

Lemma prop_delete_ne (s : gmap string JsValue) k k' :
  k <> k' -> prop (delete k s) k' = prop s k'.
Proof. intros H. unfold prop. by rewrite lookup_delete_ne. Qed.

Lemma prop_delete_eq (s : gmap string JsValue) k : prop (delete k s) k = JsUndefined.
Proof. unfold prop. by rewrite lookup_delete_eq. Qed.

(** X10. The routing never returns Pediatrics.  It returns one of the six
    Emergency departments or throws the ReferenceError of the pediatric test;
    and the [pediatric] flag never changes a successful result: with the flag
    set to any value the routing either answers as it does without the flag,
    or throws where it would have answered Emergency/General. *)
Theorem routing_never_pediatrics symptoms vitals :
  (forall name, determineDepartment symptoms vitals = Ok name ->
     name ∈ ["Emergency/Cardiology"; "Emergency/Neurology"; "Emergency/Surgery";
             "Emergency/Infectious Diseases"; "Emergency/Trauma"; "Emergency/General"]) /\
  (forall e, determineDepartment symptoms vitals = Err e ->
     e = ReferenceError "patient is not defined") /\
  (forall x,
     determineDepartment (<["pediatric":=x]> symptoms) vitals
       = determineDepartment (delete "pediatric" symptoms) vitals \/
     (determineDepartment (delete "pediatric" symptoms) vitals = Ok "Emergency/General" /\
      determineDepartment (<["pediatric":=x]> symptoms) vitals
        = Err (ReferenceError "patient is not defined"))).
Proof.
  split; [|split].
  - unfold determineDepartment. intros name.
    repeat (match goal with |- context [if ?b then _ else _] => destruct b end;
            try discriminate);
      intros [= <-]; set_solver.
  - intros e He. by apply determineDepartment_err in He as [-> _].
  - intros x. unfold determineDepartment.
    rewrite !prop_insert_ne, !prop_delete_ne by done. rewrite prop_delete_eq.
    repeat (match goal with |- context [if ?b then _ else _] => destruct b end; auto).
Qed.

(** ** Outcomes of an intake *)



Lemma filter_none {A} (P : A -> Prop) `{!forall x, Decision (P x)} (l : list A) :
  Forall (fun x => ~ P x) l -> filter P l = [].
Proof.
  induction 1 as [|x l Hx _ IH]; [done|]. by rewrite filter_cons_False.
Qed.

Lemma find_appended rows (qe : Queue.t) :
  Queue.queueId qe ∉ Queue.queueId <$> rows ->
  head (filter (hasQueueId (Queue.queueId qe)) (rows ++ [qe])) = Some qe.
Proof.
  intros Hfresh. rewrite filter_app.
  replace (filter (hasQueueId (Queue.queueId qe)) rows) with (@nil Queue.t).
  - by rewrite filter_cons_True.
  - symmetry. apply filter_none, Forall_forall. intros x Hx Heq.
    apply Hfresh. unfold hasQueueId in Heq. rewrite <- Heq. by apply list_elem_of_fmap_2.
Qed.

(** X12. What an intake stores can be read back.  The new queue entry is
    found under its key, which no earlier row has, and is listed in the
    WAITING listing of its department; the triage session stored with it has
    a new key, is the one the entry points to, and agrees with it on patient,
    urgency class and estimated wait; the department of the entry is a
    stored department named as the session recommends; and distinct queue
    keys stay distinct. *)
Theorem intake_round_trip calc now triageData db ts qe db' :
  performTriage calc now triageData db = (Ok (ts, qe), db') ->
  findQueueEntry (Queue.queueId qe) db' = Some qe /\
  (Queue.queueId qe ∉ Queue.queueId <$> departmentQueues db) /\
  qe ∈ getPatientQueue (Queue.departmentId qe) db' /\
  triageSessions db' = triageSessions db ++ [ts] /\
  (Triage.sessionId ts ∉ Triage.sessionId <$> triageSessions db) /\
  Queue.triageSessionId qe = Some (Triage.sessionId ts) /\
  Triage.patientId ts = td_patientId triageData /\
  Queue.patientId qe = td_patientId triageData /\
  Triage.urgencyLevel ts = Queue.urgencyLevel qe /\
  Triage.estimatedWaitMinutes ts = Queue.expectedWaitTime qe /\
  (exists dept, dept ∈ departments db /\
     Dept.name dept = Triage.recommendedDept ts /\
     Dept.departmentId dept = Queue.departmentId qe) /\
  (primary_key db -> primary_key db').
Proof.
  unfold performTriage. unfold_service.
  destruct (determineDepartment _ _) as [name|[]] eqn:Hdept; try done.
  destruct (head (filter (hasName name) (departments db))) as [dept|] eqn:Hhead; [|done].
  intros [= <- <- <-]. simpl.
  assert (Hfresh : fresh_uuid (Queue.queueId <$> departmentQueues db)
                   ∉ Queue.queueId <$> departmentQueues db) by apply fresh_uuid_fresh.
  split.
  { unfold findQueueEntry. simpl.
    match goal with |- _ = Some ?q => by apply (find_appended _ q) end. }
  split; [done|]. split.
  { apply getPatientQueue_elem. split; [done|]. simpl. apply elem_of_app. right. left. }
  split; [done|]. split; [apply fresh_uuid_fresh|]. do 5 (split; [done|]). split.
  { exists dept. apply head_Some_elem_of, list_elem_of_filter in Hhead as [Hn Hin]. done. }
  unfold primary_key. simpl. intros Hpk. rewrite fmap_app. apply NoDup_app.
  split; [done|]. split; [|apply NoDup_singleton].
  intros x Hx [->|H]%elem_of_cons; [done|by inversion H].
Qed.

(** The first intake into the sample store. *)
Lemma intake_round_trip_witness :
  exists ts qe db',
    performTriage (fixedCalculator GREEN) 10 (intake 5%nat) empty_db = (Ok (ts, qe), db') /\
    findQueueEntry (Queue.queueId qe) db' = Some qe /\
    Queue.triageSessionId qe = Some (Triage.sessionId ts).
Proof.
  destruct (performTriage (fixedCalculator GREEN) 10 (intake 5%nat) empty_db)
    as [[[ts qe]|err] db'] eqn:E; [|vm_compute in E; discriminate].
  destruct (intake_round_trip _ _ _ _ _ _ _ E) as (H1 & _ & _ & _ & _ & H2 & _).
  by exists ts, qe, db'.
Defined.

(** ** What no operation does to a stored row *)

Lemma evolves_refl r : evolves r r.
Proof. by split; auto. Qed.

Lemma evolves_relocate now ps r : evolves r (relocate now ps r).
Proof. unfold relocate. destruct (final_position _ _); by split; auto. Qed.

Lemma rows_evolve_fmap (g : Queue.t -> Queue.t) (rows : list Queue.t) :
  (forall r, r ∈ rows -> evolves r (g r)) ->
  forall i r, rows !! i = Some r -> exists r', (g <$> rows) !! i = Some r' /\ evolves r r'.
Proof.
  intros Hg i r Hr. exists (g r). rewrite list_lookup_fmap, Hr. split; [done|].
  apply Hg. by eapply list_elem_of_lookup_2.
Qed.

Lemma rows_evolve_update (P : Queue.t -> Prop) `{!forall x, Decision (P x)}
    (f : Queue.t -> Queue.t) (rows : list Queue.t) :
  (forall r, r ∈ rows -> P r -> evolves r (f r)) ->
  forall i r, rows !! i = Some r ->
    exists r', update_where P f rows !! i = Some r' /\ evolves r r'.
Proof.
  intros Hf. apply rows_evolve_fmap. intros r Hr.
  destruct (decide (P r)); [by apply Hf|apply evolves_refl].
Qed.

Lemma primary_key_fmap (g : Queue.t -> Queue.t) db :
  (forall r, Queue.queueId (g r) = Queue.queueId r) ->
  primary_key db -> primary_key (set_queues (fmap g) db).
Proof.
  intros Hg Hpk. unfold primary_key, set_queues. simpl.
  rewrite <- list_fmap_compose. erewrite list_fmap_ext; [exact Hpk|].
  intros _ x _. apply Hg.
Qed.

Lemma updateQueuePosition_run now q p db :
  updateQueuePosition now q p db
  = (Ok tt, set_queues (update_where (hasQueueId q) (set_position p now)) db).
Proof. done. Qed.

(** X13. No operation of the two services deletes or re-keys a queue entry.
    After any of them (intake, call-next, complete, skip, reposition,
    re-prioritise, bare position write), failed or not, every stored row is
    still at its place with the same key, department, patient, urgency,
    triage session, estimate and time of enqueue; no row has gone back to
    WAITING, a row is IN_PROGRESS only if it was WAITING or IN_PROGRESS
    before, none has become CANCELLED and no calledAt has been cleared; and
    the keys stay distinct. *)
Theorem operations_keep_rows calc op db res db' :
  primary_key db ->
  run_operation calc op db = (res, db') ->
  primary_key db' /\
  forall i r, departmentQueues db !! i = Some r ->
    exists r', departmentQueues db' !! i = Some r' /\ evolves r r'.
Proof.
  intros Hpk. destruct op as [now td|now d doc|now q|now q reason|now q p|now d|now q p];
    simpl.
  - unfold bind, ret.
    destruct (performTriage calc now td db) as [[[ts qe]|e] db1] eqn:E; intros [= <- <-].
    + apply performTriage_inv in E as (name & dept & _ & _ & Hqe & Hq & _). split.
      * unfold primary_key in *. rewrite Hq, fmap_app. apply NoDup_app.
        split; [done|]. split; [|apply NoDup_singleton].
        intros x Hx [->|H]%elem_of_cons; [|by inversion H].
        subst qe. simpl in Hx. by apply fresh_uuid_fresh in Hx.
      * intros i r Hr. exists r. rewrite Hq, lookup_app_l by (by eapply lookup_lt_Some).
        split; [done|apply evolves_refl].
    + apply performTriage_err in E as ->. split; [done|].
      intros i r Hr. exists r. split; [done|apply evolves_refl].
  - unfold bind, ret. rewrite callNext_run.
    destruct (head (orderBy (by_key queueKey) (waitingRows db d))) as [next|] eqn:Hhead;
      simpl; intros [= <- <-].
    + apply head_Some_elem_of, orderBy_elem, list_elem_of_filter in Hhead as [[_ Hst] Hin].
      split.
      * unfold primary_key. simpl. by rewrite update_where_queueIds.
      * simpl. apply rows_evolve_update. intros r Hr Hq.
        assert (r = next) as -> by (by eapply same_key_same_row).
        split; simpl; auto; done.
    + split; [done|]. intros i r Hr. exists r. split; [done|apply evolves_refl].
  - rewrite completePatient_run. destruct (findQueueEntry q db); intros [= <- <-].
    + split; [unfold primary_key; simpl; by rewrite update_where_queueIds|].
      simpl. apply rows_evolve_update. intros r _ _. split; simpl; auto; done.
    + split; [done|]. intros i r Hr. exists r. split; [done|apply evolves_refl].
  - rewrite skipPatient_run. destruct (findQueueEntry q db); intros [= <- <-].
    + split; [unfold primary_key; simpl; by rewrite update_where_queueIds|].
      simpl. apply rows_evolve_update. intros r _ _. split; simpl; auto; done.
    + split; [done|]. intros i r Hr. exists r. split; [done|apply evolves_refl].
  - rewrite updatePatientPosition_run. destruct (findQueueEntry q db); intros [= <- <-].
    + unfold set_queues. simpl. rewrite write_positions_spec. split.
      * apply (primary_key_fmap (relocate now _) db); [|done].
        intros r. apply relocate_queueId.
      * apply rows_evolve_fmap. intros r _. apply evolves_relocate.
    + split; [done|]. intros i r Hr. exists r. split; [done|apply evolves_refl].
  - rewrite prioritize_run. intros [= <- <-].
    unfold set_queues. simpl. rewrite write_positions_spec. split.
    + apply (primary_key_fmap (relocate now _) db); [|done].
      intros r. apply relocate_queueId.
    + apply rows_evolve_fmap. intros r _. apply evolves_relocate.
  - rewrite updateQueuePosition_run. intros [= <- <-]. split.
    + unfold primary_key. simpl. by rewrite update_where_queueIds.
    + simpl. apply rows_evolve_update. intros r _ _. split; simpl; auto; done.
Qed.

(** Skipping entry 1 of the sample queue. *)
Lemma operations_keep_rows_witness :
  primary_key green_db /\
  exists res db',
    run_operation (fixedCalculator GREEN) (OpSkip 30 1%nat "no show") green_db = (res, db') /\
    primary_key db'.
Proof.
  assert (Hpk : primary_key green_db)
    by (apply decide_primary_key; vm_compute; reflexivity).
  split; [exact Hpk|].
  destruct (run_operation (fixedCalculator GREEN) (OpSkip 30 1%nat "no show") green_db)
    as [res db'] eqn:E.
  exists res, db'. split; [done|].
  exact (proj1 (operations_keep_rows _ _ _ _ _ Hpk E)).
Defined.

(** ** The load counter along a history of all operations *)

Lemma invariant_rewrite (g : Queue.t -> Queue.t) db :
  (forall r, Queue.queueId (g r) = Queue.queueId r) ->
  (forall r, Queue.status (g r) = Queue.status r) ->
  (forall r, Queue.calledAt (g r) = Queue.calledAt r) ->
  (forall r, Queue.departmentId (g r) = Queue.departmentId r) ->
  load_invariant db -> load_invariant (set_queues (fmap g) db).
Proof.
  intros Hid Hst Hcalled Hdept [Hpk Hw Hp Hl]. split.
  - by apply primary_key_fmap.
  - simpl. apply Forall_fmap. eapply Forall_impl; [exact Hw|].
    intros x Hx. simpl. by rewrite Hst, Hcalled.
  - simpl. apply Forall_fmap. eapply Forall_impl; [exact Hp|].
    intros x Hx. simpl. by rewrite Hst, Hcalled.
  - eapply Forall_impl; [exact Hl|]. intros x ->. unfold uncalledCount. simpl.
    rewrite filter_fmap_stable, length_fmap; [done|].
    intros e. unfold uncalledIn. by rewrite Hdept, Hcalled.
Qed.

Lemma invariant_skip now q reason db r db' :
  load_invariant db -> skipPatient now q reason db = (r, db') -> load_invariant db'.
Proof.
  intros [Hpk Hw Hp Hl]. rewrite skipPatient_run.
  destruct (findQueueEntry q db); [|intros [= <- <-]; by split].
  intros [= <- <-]. split; simpl.
  - unfold primary_key. simpl. by rewrite update_where_queueIds.
  - unfold update_where. apply Forall_fmap. eapply Forall_impl; [exact Hw|].
    intros x Hx. simpl. by destruct (decide _).
  - unfold update_where. apply Forall_fmap. eapply Forall_impl; [exact Hp|].
    intros x Hx. simpl. by destruct (decide _).
  - eapply Forall_impl; [exact Hl|]. intros x ->. unfold uncalledCount. simpl.
    unfold update_where. rewrite filter_fmap_stable, length_fmap; [done|].
    intros e. unfold uncalledIn. by destruct (decide _).
Qed.

Lemma served_invariant calc db : served calc db -> load_invariant db.
Proof.
  induction 1 as [db Hinit|db op _ IH]; [by apply invariant_initial|].
  unfold after.
  destruct op as [now td|now d doc|now q|now q reason|now q p|now d|now q p];
    cbn [run_operation].
  - unfold bind, ret. destruct (performTriage calc now td db) as [[a|e] db'] eqn:E;
      simpl; by eapply invariant_intake.
  - unfold bind, ret. destruct (callNextPatient now d doc db) as [[a|e] db'] eqn:E;
      simpl; by eapply invariant_callNext.
  - destruct (completePatient now q db) as [res db'] eqn:E. simpl.
    by eapply invariant_complete.
  - destruct (skipPatient now q reason db) as [res db'] eqn:E. simpl.
    by eapply invariant_skip.
  - rewrite updatePatientPosition_run. destruct (findQueueEntry q db) as [e|]; [|done].
    simpl. unfold set_queues at 1. simpl.
    pose proof (invariant_rewrite (relocate now
      (adjustPositions q p (Queue.queueId <$> orderBy by_position
         (filter (otherWaiting (Queue.departmentId e) q) (departmentQueues db))))) db) as H.
    unfold set_queues in H. rewrite write_positions_spec. apply H; [..|done]; intros r;
      auto using relocate_queueId, relocate_status, relocate_departmentId.
    unfold relocate. by destruct (final_position _ _).
  - rewrite prioritize_run. simpl. unfold set_queues at 1. simpl.
    pose proof (invariant_rewrite (relocate now
      (zip (Queue.queueId <$> canonicalOrder db d)
           (seqZ 1 (Z.of_nat (length (waitingRows db d)))))) db) as H.
    unfold set_queues in H. rewrite write_positions_spec. apply H; [..|done]; intros r;
      auto using relocate_queueId, relocate_status, relocate_departmentId.
    unfold relocate. by destruct (final_position _ _).
  - rewrite updateQueuePosition_run. simpl.
    apply (invariant_rewrite (fun r => if decide (hasQueueId q r) then set_position p now r
                                       else r) db); [..|done];
      intros r; by destruct (decide _).
Qed.

Lemma filter_length_mono {A} (P Q : A -> Prop) `{!forall x, Decision (P x)}
    `{!forall x, Decision (Q x)} (l : list A) :
  Forall (fun x => P x -> Q x) l -> (length (filter P l) <= length (filter Q l))%nat.
Proof.
  induction 1 as [|x l Hx _ IH]; [done|]. rewrite !filter_cons.
  destruct (decide (P x)), (decide (Q x)); simpl; try lia. tauto.
Qed.

(** X14. Over every history of the seven mutations of the two services,
    started from a store with no queue entry and load 0, the load counter of
    a department equals the number of its entries that were never called.  So
    it is never negative and never below the number of WAITING entries; an
    entry that is skipped or completed while WAITING stays counted for good,
    since only a call-next takes the counter down. *)
Theorem load_over_all_operations calc db x :
  served calc db -> x ∈ departments db ->
  Dept.currentPatientLoad x = uncalledCount db (Dept.departmentId x) /\
  0 <= queueCount (Dept.departmentId x) db <= Dept.currentPatientLoad x.
Proof.
  intros [Hpk Hw Hp Hl]%served_invariant Hx.
  rewrite Forall_forall in Hl. rewrite (Hl x Hx). split; [done|].
  unfold queueCount, uncalledCount, waitingRows. split; [lia|].
  apply inj_le, filter_length_mono.
  eapply Forall_impl; [exact Hw|]. intros e He [Hd Hst]. split; [done|by apply He].
Qed.

Lemma skipped_db_served : served (fixedCalculator GREEN) skipped_db.
Proof.
  assert (E : after (run_operation (fixedCalculator GREEN) (OpSkip 30 1%nat "no show"))
                (after (run_operation (fixedCalculator GREEN) (OpIntake 10 (intake 5%nat)))
                   empty_db)
              = skipped_db) by (vm_compute; reflexivity).
  rewrite <- E. do 2 apply served_step. apply served_initial.
  split; [done|]. by repeat constructor.
Qed.

(** After an intake and a skip the department has no WAITING entry and its
    load counter is 1. *)
Lemma load_over_all_operations_witness :
  served (fixedCalculator GREEN) skipped_db /\
  (exists x, x ∈ departments skipped_db /\
             Dept.currentPatientLoad x = 1 /\
             queueCount (Dept.departmentId x) skipped_db = 0 /\
             Dept.currentPatientLoad x = uncalledCount skipped_db (Dept.departmentId x)).
Proof.
  pose proof skipped_db_served as Hs.
  split; [exact Hs|].
  exists (Dept.mk 1%nat "Emergency/General" 1 50 20).
  assert (Hin : Dept.mk 1%nat "Emergency/General" 1 50 20 ∈ departments skipped_db)
    by (vm_compute; left).
  split; [exact Hin|]. split; [done|]. split; [by vm_compute|].
  exact (proj1 (load_over_all_operations _ _ _ Hs Hin)).
Defined.

(** ** The HTTP answers of the queue endpoints *)










(** ** [getPatientDetails] *)

(** X18. [getPatientDetails] never returns the details of a patient.  For
    an unknown patient it fails with "Patient not found" (404); for a stored
    patient it reaches the query on [vitalsHistory], a name the module does
    not import, and fails with "Failed to fetch patient details" (500).  So
    the patient-details endpoint answers 404 or 500 and never 200. *)
Theorem getPatientDetails_never_succeeds patients now patientId db :
  (head (filter (fun p => Patient.patientId p = patientId) patients) = None ->
     getPatientDetails patients now patientId db
       = (Err (AppError "Patient not found" 404), db)) /\
  (forall patient,
     head (filter (fun p => Patient.patientId p = patientId) patients) = Some patient ->
     getPatientDetails patients now patientId db
       = (Err (AppError "Failed to fetch patient details" 500), db)) /\
  res_status (getPatientDetails_endpoint patients now patientId db).1 ∈ [404; 500] /\
  (getPatientDetails_endpoint patients now patientId db).2 = db.
Proof.
  unfold getPatientDetails_endpoint, respond, getPatientDetails. unfold_service.
  destruct (head (filter _ patients)) as [patient|]; simpl.
  - split; [done|]. split; [done|]. split; [set_solver|done].
  - split; [done|]. split; [done|]. split; [set_solver|done].
Qed.

(** ** [TriageService.updateQueuePosition] *)

Lemma find_none q db : findQueueEntry q db = None -> q ∉ Queue.queueId <$> departmentQueues db.
Proof.
  unfold findQueueEntry. intros Hnone (x & Hq & Hx)%list_elem_of_fmap.
  assert (Hmem : x ∈ filter (hasQueueId q) (departmentQueues db))
    by (by apply list_elem_of_filter).
  destruct (filter _ _); [by inversion Hmem|done].
Qed.

(** X19. The bare position write of TriageService checks nothing of its
    own, neither the key nor the number.  When it returns, the number
    (zero and negative ones included) is what the entry holds when read back;
    no other row is touched, so no renumbering takes place and two entries
    may end with the same position; the method has no "not found" error,
    and a write to an unknown key that returns has left the store as it
    was. *)
Theorem updateQueuePosition_round_trip now q p db db' :
  updateQueuePosition now q p db = (Ok tt, db') ->
  (forall e, findQueueEntry q db = Some e ->
     findQueueEntry q db' = Some (set_position p now e)) /\
  (findQueueEntry q db = None -> db' = db) /\
  departments db' = departments db /\
  (forall i r, departmentQueues db !! i = Some r -> Queue.queueId r <> q ->
     departmentQueues db' !! i = Some r).
Proof.
  rewrite updateQueuePosition_run. intros [= <-].
  split; [|split; [|split; [done|]]].
  - intros e He. unfold findQueueEntry in *. simpl.
    rewrite find_after_update by done. by rewrite He.
  - intros Hnone%find_none. unfold set_queues. rewrite update_where_id by done.
    by destruct db.
  - intros i r Hr Hne. simpl. unfold update_where. rewrite list_lookup_fmap, Hr. simpl.
    by rewrite decide_False.
Qed.

(** ** From call to completion *)

(** X20. Call, then complete.  When a call-next returns an entry and that
    entry is completed afterwards, its row reads: COMPLETED, called at the
    time of the call by the doctor of the call, completed at the time of the
    completion, every other column as the call returned it.  The listing of
    the department is the former listing without that entry, and over both
    steps the load counter of the department has gone down by one. *)
Theorem called_entry_completes t1 t2 d doc db called db1 :
  primary_key db ->
  callNextPatient t1 d doc db = (Ok (Some called), db1) ->
  exists db2,
    completePatient t2 (Queue.queueId called) db1 = (Ok tt, db2) /\
    findQueueEntry (Queue.queueId called) db2 = Some (set_completed t2 called) /\
    Queue.status (set_completed t2 called) = COMPLETED /\
    Queue.calledAt (set_completed t2 called) = Some t1 /\
    Queue.assignedDoctorId (set_completed t2 called) = Some doc /\
    Queue.completedAt (set_completed t2 called) = Some t2 /\
    getPatientQueue d db2
      = filter (fun x => Queue.queueId x <> Queue.queueId called) (getPatientQueue d db) /\
    departments db2 = update_where (hasDepartmentId d) (add_load (-1)) (departments db).
Proof.
  intros Hpk Hrun.
  destruct (callNext_returns t1 d doc db _ db1 Hpk Hrun)
    as (next & Hhead & Hin & _ & Hcalled & Hdb1).
  injection Hcalled as ->.
  assert (Hrow : next ∈ departmentQueues db).
  { unfold waitingRows in Hin. by apply list_elem_of_filter in Hin as [_ ?]. }
  assert (Hfind1 : findQueueEntry (Queue.queueId next) db1 = Some (set_called doc t1 next)).
  { subst db1. unfold findQueueEntry. simpl.
    rewrite find_after_update by done. by rewrite find_unique. }
  change (Queue.queueId (set_called doc t1 next)) with (Queue.queueId next).
  eexists. rewrite completePatient_run, Hfind1. split; [reflexivity|].
  split; [|do 4 (split; [done|]); split].
  - unfold findQueueEntry in *. simpl. rewrite find_after_update by done.
    by rewrite Hfind1.
  - rewrite listing_after_leave by done.
    assert (Hl1 : getPatientQueue d db1
                  = filter (fun x => Queue.queueId x <> Queue.queueId next)
                      (getPatientQueue d db)).
    { subst db1. unfold getPatientQueue, waitingRows. simpl.
      rewrite waiting_after_leave by done.
      apply orderBy_filter; [apply by_key_total|apply by_key_trans]. }
    rewrite Hl1, list_filter_filter. apply list_filter_iff. intros x. tauto.
  - by subst db1.
Qed.

(** The first entry of the queue with two GREEN entries is called at 30 by
    doctor 77 and completed at 60. *)
Lemma called_entry_completes_witness :
  primary_key two_green_db /\
  exists called db1 db2,
    callNextPatient 30 1%nat 77%nat two_green_db = (Ok (Some called), db1) /\
    completePatient 60 (Queue.queueId called) db1 = (Ok tt, db2) /\
    findQueueEntry (Queue.queueId called) db2 = Some (set_completed 60 called) /\
    length (getPatientQueue 1%nat db2) = 1%nat.
Proof.
  assert (Hpk : primary_key two_green_db)
    by (apply decide_primary_key; vm_compute; reflexivity).
  split; [exact Hpk|].
  destruct (callNextPatient 30 1%nat 77%nat two_green_db) as [[[called|]|err] db1] eqn:Hrun;
    try (vm_compute in Hrun; discriminate).
  destruct (called_entry_completes 30 60 1%nat 77%nat two_green_db called db1 Hpk Hrun)
    as (db2 & Hdone & Hfind & _ & _ & _ & _ & Hlist & _).
  exists called, db1, db2. split; [done|]. split; [done|]. split; [done|].
  rewrite Hlist. vm_compute in Hrun. injection Hrun as <- _. by vm_compute.
Defined.

(** ** [updatePatientPosition] inside the range 1..N *)

(** A list whose positions are consecutive numbers is what a sort by
    position makes of any arrangement of it. *)
Lemma orderBy_consecutive (T l : list Queue.t) m n :
  Queue.positionInQueue <$> T = seqZ m n -> l ≡ₚ T -> orderBy by_position l = T.
Proof.
  intros Hpos Hperm.
  assert (Hat : forall i x, T !! i = Some x -> Queue.positionInQueue x = m + Z.of_nat i).
  { intros i x Hx.
    assert (Hi : (Queue.positionInQueue <$> T) !! i = Some (Queue.positionInQueue x))
      by (by rewrite list_lookup_fmap, Hx).
    rewrite Hpos in Hi. apply lookup_seqZ in Hi. lia. }
  apply (StronglySorted_unique_strong (fun a b => by_position a b = true)).
  - intros x1 x2 H1 H2 H12 H21.
    rewrite orderBy_elem, Hperm in H1.
    apply list_elem_of_lookup in H1 as [i Hi], H2 as [j Hj].
    pose proof (Hat _ _ Hi). pose proof (Hat _ _ Hj).
    unfold by_position in *. apply Z.leb_le in H12, H21.
    assert (i = j) as -> by lia. congruence.
  - apply orderBy_sorted; [apply by_position_total|apply by_position_trans].
  - apply StronglySorted_from_lookup. intros i j x y Hij Hx Hy.
    pose proof (Hat _ _ Hx). pose proof (Hat _ _ Hy).
    unfold by_position. apply Z.leb_le. lia.
  - by rewrite orderBy_perm.
Qed.

(** X21. A reposition of a WAITING entry to a position inside 1..N puts it
    into that slot and keeps the others in the order of their former
    positions: listed by stored position, the WAITING entries of the
    department are the others up to slot p - 1, then the entry, then the
    remaining others, and their positions read 1, 2, ..., N. *)
Theorem reposition_moves_to_slot now q p db e :
  primary_key db -> findQueueEntry q db = Some e -> Queue.status e = WAITING ->
  1 <= p <= Z.of_nat (length (waitingRows db (Queue.departmentId e))) ->
  exists db',
    updatePatientPosition now q p db = (Ok tt, db') /\
    let others :=
      Queue.queueId <$>
        orderBy by_position
          (filter (otherWaiting (Queue.departmentId e) q) (departmentQueues db)) in
    let listing := orderBy by_position (waitingRows db' (Queue.departmentId e)) in
    Queue.queueId <$> listing
      = take (Z.to_nat (p - 1)) others ++ q :: drop (Z.to_nat (p - 1)) others /\
    Queue.positionInQueue <$> listing = seqZ 1 (Z.of_nat (length listing)).
Proof.
  intros Hpk Hfind Hst Hp. rewrite updatePatientPosition_run, Hfind.
  eexists. split; [reflexivity|]. cbv zeta.
  set (d := Queue.departmentId e) in *.
  set (others := orderBy by_position (filter (otherWaiting d q) (departmentQueues db))).
  assert (Hsplit : waitingRows db d ≡ₚ e :: others).
  { rewrite (waiting_split db q e d Hpk Hfind) by done.
    unfold others. by rewrite orderBy_perm. }
  assert (Hlen : length (waitingRows db d) = S (length others)).
  { by rewrite (Permutation_length Hsplit). }
  rewrite adjustPositions_in_range by (rewrite length_fmap; lia).
  set (k := Z.to_nat (p - 1)).
  set (R := take k others ++ e :: drop k others).
  assert (Hids : take k (Queue.queueId <$> others) ++ q :: drop k (Queue.queueId <$> others)
                 = Queue.queueId <$> R).
  { unfold R. rewrite fmap_app, fmap_cons, fmap_take, fmap_drop.
    apply find_elem in Hfind as [_ ->]. done. }
  assert (HR : R ≡ₚ waitingRows db d).
  { rewrite Hsplit. unfold R. by rewrite <- Permutation_middle, take_drop. }
  assert (HlenR : length R = S (length others)).
  { by rewrite (Permutation_length HR). }
  rewrite Hids, length_fmap.
  set (ps := zip (Queue.queueId <$> R) (seqZ 1 (Z.of_nat (S (length others))))).
  assert (Hsorted : orderBy by_position (waitingRows (set_queues (write_positions now ps) db) d)
                    = relocate now ps <$> R).
  { apply (orderBy_consecutive _ _ 1 (Z.of_nat (S (length others)))).
    - rewrite <- list_fmap_compose. apply relocate_zip.
      + by eapply NoDup_queueId_filter.
      + rewrite length_seqZ. lia.
    - rewrite waitingRows_relocate. by rewrite HR. }
  rewrite Hsorted. split.
  - rewrite <- list_fmap_compose. apply list_fmap_ext. intros i x _. simpl.
    apply relocate_queueId.
  - rewrite <- list_fmap_compose, length_fmap, HlenR. apply relocate_zip.
    + by eapply NoDup_queueId_filter.
    + rewrite length_seqZ. lia.
Qed.

(** The second of two GREEN entries is moved to position 1. *)
Lemma reposition_moves_to_slot_witness :
  primary_key two_green_db /\
  exists e db',
    findQueueEntry 2%nat two_green_db = Some e /\
    updatePatientPosition 40 2%nat 1 two_green_db = (Ok tt, db') /\
    Queue.queueId <$> orderBy by_position (waitingRows db' (Queue.departmentId e))
      = [2%nat; 1%nat].
Proof.
  assert (Hpk : primary_key two_green_db)
    by (apply decide_primary_key; vm_compute; reflexivity).
  split; [exact Hpk|].
  destruct (findQueueEntry 2%nat two_green_db) as [e|] eqn:He; [|by vm_compute in He].
  assert (Hst : Queue.status e = WAITING) by (vm_compute in He; by simplify_eq).
  assert (Hp : 1 <= 1 <= Z.of_nat (length (waitingRows two_green_db (Queue.departmentId e))))
    by (vm_compute in He; simplify_eq; by vm_compute).
  destruct (reposition_moves_to_slot 40 2%nat 1 two_green_db e Hpk He Hst Hp)
    as (db' & Hrun & Hids & _).
  exists e, db'. split; [done|]. split; [done|]. rewrite Hids.
  vm_compute in He. simplify_eq. by vm_compute.
Defined.

(** ** The endpoints of complete and of prioritize *)

(** X22. The complete endpoint answers 200 when the entry exists, whatever
    its status, and the entry then reads COMPLETED; it answers 404 with
    "Queue entry not found" and an unchanged store otherwise.  The prioritize
    endpoint answers 200 for every department key; for a department without
    WAITING entries (an unknown key included) the store is left as it was. *)
Theorem complete_and_prioritize_endpoints now q d db :
  (forall e, findQueueEntry q db = Some e ->
     exists db',
       TriageController.completePatient now q db = (mkResponse 200 (Data tt), db') /\
       findQueueEntry q db' = Some (set_completed now e)) /\
  (findQueueEntry q db = None ->
     TriageController.completePatient now q db
       = (mkResponse 404 (Failure "Queue entry not found"), db)) /\
  (exists db',
     TriageController.prioritizeQueue now d db = (mkResponse 200 (Data tt), db') /\
     (waitingRows db d = [] -> db' = db)).
Proof.
  unfold TriageController.completePatient, TriageController.prioritizeQueue, respond.
  rewrite completePatient_run, prioritize_run. split; [|split].
  - intros e He. rewrite He. eexists. split; [reflexivity|].
    unfold findQueueEntry in *. simpl. rewrite find_after_update by done.
    by rewrite He.
  - by intros ->.
  - eexists. split; [reflexivity|]. intros Hw. unfold canonicalOrder. rewrite Hw.
    by destruct db.
Qed.

(** Entry 1 of the queue with two GREEN entries is completed while WAITING;
    no entry has key 9; department 7 has no rows. *)
Lemma complete_and_prioritize_endpoints_witness :
  (exists e db',
     findQueueEntry 1%nat two_green_db = Some e /\
     Queue.status e = WAITING /\
     TriageController.completePatient 60 1%nat two_green_db
       = (mkResponse 200 (Data tt), db') /\
     findQueueEntry 1%nat db' = Some (set_completed 60 e)) /\
  TriageController.completePatient 60 9%nat two_green_db
    = (mkResponse 404 (Failure "Queue entry not found"), two_green_db) /\
  TriageController.prioritizeQueue 60 7%nat two_green_db
    = (mkResponse 200 (Data tt), two_green_db).
Proof.
  split; [|split].
  - destruct (findQueueEntry 1%nat two_green_db) as [e|] eqn:He; [|by vm_compute in He].
    destruct (proj1 (complete_and_prioritize_endpoints 60 1%nat 7%nat two_green_db) e He)
      as (db' & Hrun & Hfind).
    exists e, db'. split; [done|]. split; [|done]. vm_compute in He. by simplify_eq.
  - apply (proj1 (proj2 (complete_and_prioritize_endpoints 60 9%nat 7%nat two_green_db))).
    vm_compute; reflexivity.
  - destruct (proj2 (proj2 (complete_and_prioritize_endpoints 60 9%nat 7%nat two_green_db)))
      as (db' & Hrun & Hsame).
    rewrite Hrun, Hsame; [done|]. vm_compute; reflexivity.
Defined.

(** The details of [stored_patient] are asked for, and those of a patient
    that is not stored. *)
Lemma getPatientDetails_never_succeeds_witness :
  getPatientDetails [stored_patient] 100 5%nat two_green_db
    = (Err (AppError "Failed to fetch patient details" 500), two_green_db) /\
  getPatientDetails [stored_patient] 100 6%nat two_green_db
    = (Err (AppError "Patient not found" 404), two_green_db).
Proof.
  split.
  - apply (proj1 (proj2 (getPatientDetails_never_succeeds
                           [stored_patient] 100 5%nat two_green_db)) stored_patient).
    vm_compute; reflexivity.
  - apply (proj1 (getPatientDetails_never_succeeds [stored_patient] 100 6%nat two_green_db)).
    vm_compute; reflexivity.
Defined.

(** Entry 2 of the queue with two GREEN entries is given position -3, which
    entry 1 is then given too; a write to the unknown key 9 leaves the store
    as it was. *)
Lemma updateQueuePosition_round_trip_witness :
  (exists e db',
     findQueueEntry 2%nat two_green_db = Some e /\
     updateQueuePosition 50 2%nat (-3) two_green_db = (Ok tt, db') /\
     findQueueEntry 2%nat db' = Some (set_position (-3) 50 e)) /\
  updateQueuePosition 50 9%nat 4 two_green_db = (Ok tt, two_green_db).
Proof.
  split.
  - destruct (findQueueEntry 2%nat two_green_db) as [e|] eqn:He; [|by vm_compute in He].
    destruct (updateQueuePosition 50 2%nat (-3) two_green_db) as [[[]|err] db'] eqn:Hrun;
      [|vm_compute in Hrun; discriminate].
    destruct (updateQueuePosition_round_trip 50 2%nat (-3) two_green_db db' Hrun)
      as (Hfind & _).
    exists e, db'. split; [done|]. split; [done|]. by apply Hfind.
  - destruct (updateQueuePosition 50 9%nat 4 two_green_db) as [[[]|err] db'] eqn:Hrun;
      [|vm_compute in Hrun; discriminate].
    destruct (updateQueuePosition_round_trip 50 9%nat 4 two_green_db db' Hrun)
      as (_ & Hnone & _).
    rewrite Hnone; [done|]. vm_compute; reflexivity.
Defined.
